(** * Tile grid and geometry sampling of [modules/raster.py]

    A shallow embedding of the tiling and sampling methods of the class
    [Raster]: [get_coords], [get_locations], [get_bounds],
    [get_pixel_bounds], [make_tile_grid], [get_tile], [get_next_tile],
    [read_array] and [extract_geom].

    Numbers.  The Python code is duck-typed over its numbers.  The embedding
    is parametric in a number type through the class [PyNum]; two instances
    are given: [Exact.exact_num] (rationals, i.e. Python [int]/[Fraction],
    which is also binary64 whenever no operation rounds) and
    [B64.float_num] (IEEE-754 binary64 with CPython's float floor
    division), the type Python [float] values really have.

    Exceptions are values of [exn]; a method of the raster object is a
    function from the object's state to the new state and a [result].

    Outside the embedding: GDAL and OGR.  The data source is a record of
    sizes and pixels; OGR's [Intersects] and the numbers that come back
    from the text of [ExportToWkt] are parameters of [extract_geom], and
    [extract_geom] starts from the list [id_geom_list] that OGR parses out
    of the WKT strings. *)

From stdpp Require Import base list option strings.
From Stdlib Require Import ZArith QArith Qround Qreduction Qabs Lia Bool.
From Stdlib Require Import SpecFloat.

Open Scope Z_scope.

(** ** Exceptions and results *)

Inductive exn : Type :=
  | ValueError
  | IndexError
  | ZeroDivisionError
  | OverflowError
  | TypeError
  | RuntimeError.

Inductive result (A : Type) : Type :=
  | Ok (a : A)
  | Raise (e : exn).
Arguments Ok {A} a.
Arguments Raise {A} e.

Definition rbind {A B} (m : result A) (k : A -> result B) : result B :=
  match m with
  | Ok a => k a
  | Raise e => Raise e
  end.

Notation "'let*' x ':=' m 'in' k" := (rbind m (fun x => k))
  (at level 10, x pattern, m at level 100, k at level 200).

(** [list(f(x) for x in xs)]: the calls are made left to right and the first
    exception ends the comprehension. *)
Fixpoint map_result {A B} (f : A -> result B) (xs : list A) : result (list B) :=
  match xs with
  | [] => Ok []
  | x :: xs' => let* y := f x in let* ys := map_result f xs' in Ok (y :: ys)
  end.

(** ** Python numbers *)

Class PyNum (R : Type) : Type := {
  of_int : Z -> R;                  (* float(n) *)
  add : R -> R -> R;                (* a + b *)
  sub : R -> R -> R;                (* a - b *)
  mul : R -> R -> R;                (* a * b *)
  half : R -> R;                    (* a / 2.0 *)
  floordiv : R -> R -> result R;    (* a // b *)
  to_int : R -> result Z;           (* int(a) *)
  ltb : R -> R -> bool;             (* a < b *)
  is_nan : R -> bool;               (* np.isnan *)
  is_inf : R -> bool                (* np.isinf *)
}.

(** *** Exact arithmetic: rationals in lowest terms *)

Module Exact.

Definition truncate (q : Q) : Z := Z.quot (Qnum q) (Zpos (Qden q)).

Definition qfloordiv (a b : Q) : result Q :=
  if Qeq_bool b 0 then Raise ZeroDivisionError
  else Ok (inject_Z (Qfloor (a / b))).

#[global] Instance exact_num : PyNum Q := {|
  of_int := inject_Z;
  add a b := Qred (a + b);
  sub a b := Qred (a - b);
  mul a b := Qred (a * b);
  half a := Qred (a / 2);
  floordiv := qfloordiv;
  to_int q := Ok (truncate q);
  ltb a b := negb (Qle_bool b a);
  is_nan _ := false;
  is_inf _ := false
|}.

End Exact.

(** *** IEEE-754 binary64, the Python [float] *)

Module B64.

Definition prec : Z := 53.
Definition emax : Z := 1024.

Definition of_Z (n : Z) : spec_float := binary_normalize prec emax n 0 false.

Definition fadd := SFadd prec emax.
Definition fsub := SFsub prec emax.
Definition fmul := SFmul prec emax.
Definition fdiv := SFdiv prec emax.

(** The literal [a/b] for small integers: the double nearest to the
    quotient, as the Python parser yields for [0.1], [0.7], ... *)
Definition ratio (a b : Z) : spec_float := fdiv (of_Z a) (of_Z b).

Definition is_zero (x : spec_float) : bool :=
  match x with S754_zero _ => true | _ => false end.

Definition signbit (x : spec_float) : bool :=
  match x with
  | S754_zero s | S754_infinity s | S754_finite s _ _ => s
  | S754_nan => false
  end.

(** C [fmod]: the exact remainder, with the sign of the dividend. *)
Definition fmod (v w : spec_float) : spec_float :=
  match v, w with
  | S754_nan, _ | _, S754_nan | S754_infinity _, _ | _, S754_zero _ => S754_nan
  | S754_zero _, _ | S754_finite _ _ _, S754_infinity _ => v
  | S754_finite sv mv ev, S754_finite _ mw ew =>
      let e0 := Z.min ev ew in
      let V := Z.shiftl (Zpos mv) (ev - e0) in
      let W := Z.shiftl (Zpos mw) (ew - e0) in
      binary_normalize prec emax (cond_Zopp sv (V mod W)) e0 sv
  end.

(** C [floor]. *)
Definition floor (d : spec_float) : spec_float :=
  match d with
  | S754_finite s m e =>
      if 0 <=? e then d
      else
        let n := Z.shiftr (Zpos m) (- e) in
        let exact := Z.shiftl n (- e) =? Zpos m in
        let z := if s then (if exact then - n else - (n + 1)) else n in
        binary_normalize prec emax z 0 s
  | _ => d
  end.

(** CPython's [float_floor_div] ([_float_div_mod] in floatobject.c). *)
Definition floor_div (v w : spec_float) : result spec_float :=
  if is_zero w then Raise ZeroDivisionError
  else
    let md := fmod v w in
    let dv := fdiv (fsub v md) w in
    let dv :=
      if is_zero md then dv
      else if xorb (SFltb w (of_Z 0)) (SFltb md (of_Z 0))
           then fsub dv (of_Z 1) else dv in
    Ok (if is_zero dv then S754_zero (signbit (fdiv v w))
        else
          let fl := floor dv in
          if SFltb (ratio 1 2) (fsub dv fl) then fadd fl (of_Z 1) else fl).

(** [int(x)]: truncation toward zero; [nan] and the infinities raise. *)
Definition trunc (x : spec_float) : result Z :=
  match x with
  | S754_zero _ => Ok 0
  | S754_nan => Raise ValueError
  | S754_infinity _ => Raise OverflowError
  | S754_finite s m e =>
      let n := if 0 <=? e then Z.shiftl (Zpos m) e else Z.shiftr (Zpos m) (- e) in
      Ok (cond_Zopp s n)
  end.

(** The rational that a finite float stands for (0 for the others). *)
Definition to_Q (x : spec_float) : Q :=
  match x with
  | S754_finite s m e => (inject_Z (cond_Zopp s (Zpos m)) * 2 ^ e)%Q
  | _ => 0%Q
  end.

#[global] Instance float_num : PyNum spec_float := {|
  of_int := of_Z;
  add := fadd;
  sub := fsub;
  mul := fmul;
  half a := fdiv a (of_Z 2);
  floordiv := floor_div;
  to_int := trunc;
  ltb := SFltb;
  is_nan x := match x with S754_nan => true | _ => false end;
  is_inf x := match x with S754_infinity _ => true | _ => false end
|}.

End B64.

(** ** The affine transform: [get_coords] and [get_locations] *)

Section Affine.
Context {R : Type} `{PyNum R}.

(** [Raster.get_coords(xy_list, pixel_size, tie_point, pixel_center)].
    [float(pixel_size[i])] is the identity on [R]. *)
Definition get_coords (xy_list : list (Z * Z)) (pixel_size tie_point : R * R)
    (pixel_center : bool) : list (R * R) :=
  let add_const :=
    if pixel_center then (half (fst pixel_size), half (snd pixel_size))
    else (of_int 0, of_int 0) in
  map (fun xy : Z * Z =>
         (add (add (mul (of_int (fst xy)) (fst pixel_size)) (fst tie_point))
              (fst add_const),
          add (add (mul (of_int (snd xy)) (snd pixel_size)) (snd tie_point))
              (snd add_const)))
      xy_list.

(** One element of the generator of [get_locations]: a coordinate gives
    the pair of floor divisions, [None] gives [[None, None]]. *)
Definition locate (pixel_size tie_point : R * R) (coord : option (R * R))
    : result (option R * option R) :=
  match coord with
  | Some c =>
      let* x := floordiv (sub (fst c) (fst tie_point)) (fst pixel_size) in
      let* y := floordiv (sub (snd c) (snd tie_point)) (snd pixel_size) in
      Ok (Some x, Some y)
  | None => Ok (None, None)
  end.

(** [Raster.get_locations(coords_list, pixel_size, tie_point)]. *)
Definition get_locations (coords_list : list (option (R * R)))
    (pixel_size tie_point : R * R) : result (list (option R * option R)) :=
  map_result (locate pixel_size tie_point) coords_list.

End Affine.

(** ** Loops *)

(** [xrange(start, stop, step)]. *)
Definition xrange (start stop step : Z) : result (list Z) :=
  if step =? 0 then Raise ValueError
  else
    let n :=
      if 0 <? step then (stop - start + step - 1) / step
      else (start - stop - step - 1) / (- step) in
    Ok (map (fun k : nat => start + Z.of_nat k * step) (seq 0 (Z.to_nat n))).

(** A [for] loop whose body updates a state and may raise: the exception
    ends the loop and the updates made so far stay. *)
Fixpoint for_each {S A : Type} (body : A -> S -> S * result unit)
    (xs : list A) (s : S) : S * result unit :=
  match xs with
  | [] => (s, Ok tt)
  | x :: xs' =>
      match body x s with
      | (s', Ok _) => for_each body xs' s'
      | (s', Raise e) => (s', Raise e)
      end
  end.

(** ** numpy indexing *)

(** An index [i] on an axis of length [n]: negative indices count from the
    end, anything outside [-n, n) is an [IndexError]. *)
Definition np_index (n : nat) (i : Z) : result nat :=
  if (0 <=? i) && (i <? Z.of_nat n) then Ok (Z.to_nat i)
  else if (- Z.of_nat n <=? i) && (i <? 0) then Ok (Z.to_nat (i + Z.of_nat n))
  else Raise IndexError.

Definition np_get {A : Type} (l : list A) (i : Z) : result A :=
  let* k := np_index (length l) i in
  match l !! k with
  | Some a => Ok a
  | None => Raise IndexError
  end.

(** ** The raster object *)

Definition block : Type := Z * Z * Z * Z.   (* (x, y, cols, rows) *)

Section RasterModel.
Context {R : Type} `{PyNum R}.

(** The GDAL geotransform, [self.transform[0]] ... [self.transform[5]]. *)
Record GeoTransform : Type := {
  gt0 : R; gt1 : R; gt2 : R; gt3 : R; gt4 : R; gt5 : R
}.

(** An entry of [self.tile_grid]. *)
Record Tile : Type := {
  block_coords : block;
  tie_point : R * R;
  bound_coords : list (R * R);
  first_pixel : Z * Z
}.

Inductive ndarray : Type :=
  | Arr2 (a : list (list R))           (* rows x cols *)
  | Arr3 (a : list (list (list R))).   (* bands x rows x cols *)

(** The opened GDAL dataset: its sizes, its geotransform, the no-data value
    of its first band and its pixels, [pixel b row col] for the band number
    [b] (from 1). *)
Record DataSource : Type := {
  RasterCount : Z;
  RasterYSize : Z;
  RasterXSize : Z;
  GetGeoTransform : GeoTransform;
  GetNoDataValue : option R;
  pixel : Z -> Z -> Z -> R
}.

(** [GetRasterBand(band).ReadAsArray(xoff, yoff, xsize, ysize)]: the window
    as rows of columns.  GDAL refuses a band that the dataset does not
    have; numpy refuses to allocate a buffer of negative size; for a window
    without a column or without a row GDAL has nothing to read and hands
    the empty buffer back, wherever the window lies; any other window must
    lie inside the dataset. *)
Definition ReadAsArray (ds : DataSource) (band : Z) (b : block)
    : result (list (list R)) :=
  let '(xoff, yoff, xsize, ysize) := b in
  if negb ((1 <=? band) && (band <=? RasterCount ds)) then Raise RuntimeError
  else if (xsize <? 0) || (ysize <? 0) then Raise ValueError
  else if (xsize =? 0) || (ysize =? 0)
          || ((0 <=? xoff) && (0 <=? yoff)
              && (xoff + xsize <=? RasterXSize ds) && (yoff + ysize <=? RasterYSize ds))
  then
    Ok (map (fun i : nat =>
               map (fun j : nat => pixel ds band (yoff + Z.of_nat i) (xoff + Z.of_nat j))
                   (seq 0 (Z.to_nat xsize)))
            (seq 0 (Z.to_nat ysize)))
  else Raise RuntimeError.

(** The state of a [Raster] that [initialize] has filled from its data
    source: [self.init] is [True], and [self.shape] and [self.transform] are
    the sizes and the geotransform of [self.datasource], which is why they
    are functions of the state and not fields.  [reads] is not a field of
    the Python object: it records the offsets of every [read_array] call,
    in call order. *)
Record Raster : Type := {
  datasource : DataSource;
  nodatavalue : option R;
  array : option ndarray;
  array_offsets : option block;
  tile_grid : list Tile;
  ntiles : option Z;
  reads : list block
}.

(** [self.shape], as [(bands, rows, cols)], and [self.transform]. *)
Definition shape (r : Raster) : Z * Z * Z :=
  (RasterCount (datasource r), RasterYSize (datasource r), RasterXSize (datasource r)).

Definition transform (r : Raster) : GeoTransform := GetGeoTransform (datasource r).

Definition nbands (r : Raster) : Z := fst (fst (shape r)).   (* shape[0] *)
Definition nrows (r : Raster) : Z := snd (fst (shape r)).    (* shape[1] *)
Definition ncols (r : Raster) : Z := snd (shape r).          (* shape[2] *)

(** [initialize()] with its defaults, on a raster that is initialized: the
    metadata are read again from the same data source, and of what is
    modelled only the no-data value can change (after [set_nodataval]).
    The methods call it when [self.init] is [False], which is never the
    case here; [extract_geom] calls it also when [self.array] is [None]. *)
Definition initialize (r : Raster) : Raster :=
  {| datasource := datasource r;
     nodatavalue := GetNoDataValue (datasource r);
     array := array r;
     array_offsets := array_offsets r;
     tile_grid := tile_grid r;
     ntiles := ntiles r;
     reads := reads r |}.

(** [Raster(name)] followed by [initialize()]: an empty grid, no array. *)
Definition initialized (ds : DataSource) : Raster :=
  {| datasource := ds;
     nodatavalue := GetNoDataValue ds;
     array := None;
     array_offsets := None;
     tile_grid := [];
     ntiles := None;
     reads := [] |}.

(** *** [get_pixel_bounds] *)

(** The arguments [bound_coords] and [coords_type] together. *)
Inductive bounds_arg : Type :=
  | NoBounds                              (* bound_coords is None *)
  | PixelBounds (b : Z * Z * Z * Z)       (* coords_type == 'pixel' *)
  | CrsBounds (b : R * R * R * R)         (* coords_type == 'crs' *)
  | OtherBounds.                          (* any other coords_type *)

(** [a.min()] and [a.max()] of a numpy array: a [nan] wins. *)
Definition np_min2 (a b : R) : R :=
  if is_nan a then a else if is_nan b then b else if ltb b a then b else a.
Definition np_max2 (a b : R) : R :=
  if is_nan a then a else if is_nan b then b else if ltb a b then b else a.
Definition np_min (l : list R) : result R :=
  match l with [] => Raise ValueError | x :: l' => Ok (fold_left np_min2 l' x) end.
Definition np_max (l : list R) : result R :=
  match l with [] => Raise ValueError | x :: l' => Ok (fold_left np_max2 l' x) end.

(** A column [a[:, k]] of the array of locations; the column of a
    [[None, None]] row has no number to compare. *)
Definition column (k : bool) (locs : list (option R * option R)) : result (list R) :=
  map_result (fun p : option R * option R =>
                match (if k then snd p else fst p) with
                | Some v => Ok v
                | None => Raise TypeError
                end) locs.

Definition clamp_bounds (r : Raster) (b : Z * Z * Z * Z) : result (Z * Z * Z * Z) :=
  let '(xmin, xmax, ymin, ymax) := b in
  let xmin := if xmin <? 0 then 0 else xmin in
  let xmax := if ncols r <? xmax then ncols r else xmax in
  let ymin := if ymin <? 0 then 0 else ymin in
  let ymax := if nrows r <? ymax then nrows r else ymax in
  if xmax <=? xmin then Raise ValueError
  else if ymax <=? ymin then Raise ValueError
  else Ok (xmin, xmax, ymin, ymax).

Definition crs_corners (b : R * R * R * R) : list (option (R * R)) :=
  let '(_xmin, _xmax, _ymin, _ymax) := b in
  [Some (_xmin, _ymax); Some (_xmax, _ymax); Some (_xmax, _ymin); Some (_xmin, _ymin)].

(** The window of the ['crs'] branch before clamping: the four corners go
    through [get_locations] with the raster's pixel size and tie point, and
    the extremes of each column are truncated by [int]. *)
Definition crs_window (r : Raster) (b : R * R * R * R) : result (Z * Z * Z * Z) :=
  let* coords_locations :=
    get_locations (crs_corners b)
      (gt1 (transform r), gt5 (transform r))
      (gt0 (transform r), gt3 (transform r)) in
  let* c0 := column false coords_locations in
  let* m := np_min c0 in let* xmin := to_int m in
  let* m := np_max c0 in let* xmax := to_int m in
  let* c1 := column true coords_locations in
  let* m := np_min c1 in let* ymin := to_int m in
  let* m := np_max c1 in let* ymax := to_int m in
  Ok (xmin, xmax, ymin, ymax).

Definition get_pixel_bounds (r : Raster) (bound_coords : bounds_arg)
    : result (Z * Z * Z * Z) :=
  match bound_coords with
  | NoBounds => Ok (0, ncols r, 0, nrows r)
  | PixelBounds b => clamp_bounds r b
  | CrsBounds b => let* w := crs_window r b in clamp_bounds r w
  | OtherBounds => Raise ValueError
  end.

(** *** [make_tile_grid] *)

Definition with_grid (r : Raster) (g : list Tile) (n : option Z) : Raster :=
  {| datasource := datasource r; nodatavalue := nodatavalue r; array := array r;
     array_offsets := array_offsets r; tile_grid := g; ntiles := n;
     reads := reads r |}.

(** The dictionary appended for the cell at pixel [(x, y)]. *)
Definition make_tile (t : GeoTransform) (xmin xmax ymin ymax : Z)
    (tile_xsize tile_ysize : Z) (x y : Z) : Tile :=
  let rows := if y + tile_ysize <? ymax then tile_ysize else ymax - y in
  let cols := if x + tile_xsize <? xmax then tile_xsize else xmax - x in
  let tie_pt :=
    hd (of_int 0, of_int 0)
       (get_coords [(x, y)] (gt1 t, gt5 t) (gt0 t, gt3 t) false) in
  let bounds :=
    [tie_pt;
     (add (fst tie_pt) (mul (gt1 t) (of_int cols)), snd tie_pt);
     (add (fst tie_pt) (mul (gt1 t) (of_int cols)),
      add (snd tie_pt) (mul (gt5 t) (of_int rows)));
     (fst tie_pt, add (snd tie_pt) (mul (gt5 t) (of_int rows)));
     tie_pt] in
  {| block_coords := (x, y, cols, rows);
     tie_point := tie_pt;
     bound_coords := bounds;
     first_pixel := (xmin, ymin) |}.

(** The body of the loop over [y]: the inner loop over [x]. *)
Definition grid_row (xmin xmax ymin ymax tile_xsize tile_ysize : Z) (y : Z)
    (r : Raster) : Raster * result unit :=
  match xrange xmin xmax tile_xsize with
  | Raise e => (r, Raise e)
  | Ok xs =>
      for_each
        (fun x r =>
           (with_grid r
              (tile_grid r ++
               [make_tile (transform r) xmin xmax ymin ymax tile_xsize tile_ysize x y])
              (ntiles r),
            Ok tt))
        xs r
  end.

Definition make_tile_grid (tile_xsize tile_ysize : Z) (bound_coords : bounds_arg)
    (r : Raster) : Raster * result unit :=
  match get_pixel_bounds r bound_coords with
  | Raise e => (r, Raise e)
  | Ok (xmin, xmax, ymin, ymax) =>
      match xrange ymin ymax tile_ysize with
      | Raise e => (r, Raise e)
      | Ok ys =>
          match for_each (grid_row xmin xmax ymin ymax tile_xsize tile_ysize) ys r with
          | (r', Raise e) => (r', Raise e)
          | (r', Ok _) =>
              (with_grid r' (tile_grid r') (Some (Z.of_nat (length (tile_grid r')))),
               Ok tt)
          end
      end
  end.

(** *** [get_tile] *)

(** [range(a, b)]. *)
Definition range (a b : Z) : list Z :=
  map (fun k : nat => a + Z.of_nat k) (seq 0 (Z.to_nat (b - a))).

Definition any2 (p : R -> bool) (a : list (list R)) : bool :=
  existsb (existsb p) a.

Definition any3 (p : R -> bool) (a : list (list (list R))) : bool :=
  existsb (existsb (existsb p)) a.

(** [a[mask(a)] = v] on two dimensions. *)
Definition assign_where2 (p : R -> bool) (v : R) (a : list (list R))
    : list (list R) :=
  map (map (fun x => if p x then v else x)) a.

(** [a[mask(a)] = v]. *)
Definition assign_where (p : R -> bool) (v : R) (a : list (list (list R)))
    : list (list (list R)) :=
  map (map (map (fun x => if p x then v else x))) a.

Definition get_tile (r : Raster) (bands : option (list Z)) (block_coords : block)
    (finite_only : bool) (nan_replacement : option R) : result ndarray :=
  let nan_replacement :=
    match nan_replacement with
    | Some v => v
    | None => match nodatavalue r with None => of_int 0 | Some v => v end
    end in
  let bands :=
    match bands with Some b => b | None => range 1 (nbands r + 1) end in
  match bands with
  | [b] =>
      let* tile_arr := ReadAsArray (datasource r) b block_coords in
      Ok (Arr2 tile_arr)
  | _ =>
      let '(_, _, cols, rows) := block_coords in
      if (cols <? 0) || (rows <? 0) then Raise ValueError
      else
        let* tile_arr :=
          map_result (fun b => ReadAsArray (datasource r) b block_coords) bands in
        let tile_arr :=
          if finite_only then
            if any3 is_nan tile_arr || any3 is_inf tile_arr then
              assign_where is_inf nan_replacement
                (assign_where is_nan nan_replacement tile_arr)
            else tile_arr
          else tile_arr in
        Ok (Arr3 tile_arr)
  end.

(** The array of one entry of the grid in [get_next_tile], with
    [get_array] true: the body of the generator's loop.  [bands] are the
    band numbers the generator settled on before the loop. *)
Definition next_tile_array (r : Raster) (bands : list Z) (tile : Tile)
    (finite_only : bool) (nan_replacement : R) : result ndarray :=
  let* tile_arr :=
    match bands with
    | [b] =>
        let* a := ReadAsArray (datasource r) b (block_coords tile) in
        Ok (Arr2 a)
    | _ =>
        let '(_, _, cols, rows) := block_coords tile in
        if (cols <? 0) || (rows <? 0) then Raise ValueError
        else
          let* a :=
            map_result (fun b => ReadAsArray (datasource r) b (block_coords tile)) bands in
          Ok (Arr3 a)
    end in
  if finite_only then
    match tile_arr with
    | Arr2 a =>
        if any2 is_nan a || any2 is_inf a then
          Ok (Arr2 (assign_where2 is_inf nan_replacement
                      (assign_where2 is_nan nan_replacement a)))
        else Ok tile_arr
    | Arr3 a =>
        if any3 is_nan a || any3 is_inf a then
          Ok (Arr3 (assign_where is_inf nan_replacement
                      (assign_where is_nan nan_replacement a)))
        else Ok tile_arr
    end
  else Ok tile_arr.

(** *** [read_array] *)

Definition with_array (r : Raster) (a : option ndarray) (o : option block)
    (log : list block) : Raster :=
  {| datasource := datasource r; nodatavalue := nodatavalue r; array := a;
     array_offsets := o; tile_grid := tile_grid r; ntiles := ntiles r;
     reads := log |}.

(** The array [read_array] builds for the window [offs]: one
    [ReadAsArray] for each band, reshaped to two dimensions when the raster
    has a single band. *)
Definition read_block (ds : DataSource) (nb : Z) (offs : block) : result ndarray :=
  let '(_, _, xcount, ycount) := offs in
  if (nb <? 0) || (ycount <? 0) || (xcount <? 0) then Raise ValueError
  else if RasterCount ds <? 1 then Raise RuntimeError
  else
    let* array3d := map_result (fun b => ReadAsArray ds (b + 1) offs) (range 0 nb) in
    Ok match array3d with
       | [band] => if nb =? 1 then Arr2 band else Arr3 array3d
       | _ => Arr3 array3d
       end.

(** [read_array(offsets)], with [band_order] left at [None]. *)
Definition read_array (offsets : option block) (r : Raster) : Raster * result unit :=
  let offs :=
    match offsets with Some o => o | None => (0, 0, ncols r, nrows r) end in
  let r1 := with_array r (array r) (Some offs) (reads r ++ [offs]) in
  match read_block (datasource r) (nbands r) offs with
  | Raise e => (r1, Raise e)
  | Ok a => (with_array r1 (Some a) (array_offsets r1) (reads r1), Ok tt)
  end.

(** *** [extract_geom] *)

(** A parsed geometry: OGR hands back a point, or something else. *)
Inductive Geom : Type :=
  | Point (x y : R)
  | NotPoint.

(** A slot of [tile_samp_output]: the empty list, or [(id, values)]. *)
Inductive Slot : Type :=
  | Unsampled
  | Sampled (id : string) (values : list R).

(** [tile_geom.Intersects(geom)] of OGR, for the polygon whose ring is the
    tile's [bound_coords]. *)
Variable Intersects : list (R * R) -> Geom -> bool.

(** The two numbers that [float] reads back from the text that
    [ExportToWkt()] prints for the point at [(x, y)].  OGR prints a limited
    number of digits, so they are not always [x] and [y] themselves. *)
Variable ExportToWkt : R * R -> R * R.

(** The coordinates read back from [ExportToWkt()]: the text of anything
    but a point does not parse as two floats. *)
Definition samp_coord (g : Geom) : result (option (R * R)) :=
  match g with
  | Point x y => Ok (Some (ExportToWkt (x, y)))
  | NotPoint => Raise ValueError
  end.

(** [[self.array[int(y), int(x)]]] for one band,
    [self.array[band_order, int(y), int(x)].tolist()] otherwise; [a] is
    [self.array] and [nb] is [self.shape[0]]. *)
Definition sample (a : option ndarray) (nb : Z) (band_order : list Z)
    (loc : option R * option R) : result (list R) :=
  match loc with
  | (Some x, Some y) =>
      let* iy := to_int y in
      let* ix := to_int x in
      match a with
      | None => Raise TypeError
      | Some (Arr2 a) =>
          if nb =? 1 then
            let* row := np_get a iy in
            let* v := np_get row ix in
            Ok [v]
          else Raise IndexError
      | Some (Arr3 a) =>
          if nb =? 1 then Raise TypeError
          else
            match band_order with
            | [] => Raise IndexError
            | _ =>
                let* planes := map_result (np_get a) band_order in
                map_result (fun p => let* row := np_get p iy in np_get row ix) planes
            end
      end
  | _ => Raise TypeError
  end.

(** [enumerate(l, start)]. *)
Fixpoint enumerate_from {A : Type} (start : nat) (l : list A) : list (nat * A) :=
  match l with
  | [] => []
  | x :: l' => (start, x) :: enumerate_from (S start) l'
  end.

Definition enumerate {A : Type} (l : list A) : list (nat * A) := enumerate_from 0 l.

Definition part : Type := string * Geom.

(** The parts a tile intersects, with their positions: [samp_ids]. *)
Definition samp_ids (id_geom_list : list part) (tile : Tile) : list (nat * part) :=
  filter (fun p : nat * part => Intersects (bound_coords tile) (snd (snd p)))
         (enumerate id_geom_list).

Definition store (out : list Slot) (p : nat * part * list R) : list Slot :=
  <[fst (fst p) := Sampled (fst (snd (fst p))) (snd p)]> out.

(** The body of the loop over [self.tile_grid]. *)
Definition sample_tile (id_geom_list : list part) (band_order : list Z)
    (tile : Tile) (s : Raster * list Slot) : (Raster * list Slot) * result unit :=
  let '(r, out) := s in
  let ids := samp_ids id_geom_list tile in
  match ids with
  | [] => ((r, out), Ok tt)
  | _ =>
      match read_array (Some (block_coords tile)) r with
      | (r1, Raise e) => ((r1, out), Raise e)
      | (r1, Ok _) =>
          match
            (let* samp_coords := map_result (fun p : nat * part => samp_coord (snd (snd p))) ids in
             let* locs :=
               get_locations samp_coords
                 (gt1 (transform r1), gt5 (transform r1)) (tie_point tile) in
             map_result (sample (array r1) (nbands r1) band_order) locs)
          with
          | Raise e => ((r1, out), Raise e)
          | Ok samp_values =>
              ((r1, fold_left store (zip ids samp_values) out), Ok tt)
          end
      end
  end.

(** [extract_geom], from the parsed [id_geom_list] on. *)
Definition extract_geom (id_geom_list : list part) (band_order : option (list Z))
    (tile_size : option (Z * Z)) (r : Raster) : Raster * result (list Slot) :=
  let tile_size :=
    match tile_size with Some t => t | None => (nrows r, ncols r) end in
  let band_order :=
    match band_order with Some b => b | None => range 0 (nbands r) end in
  let r := match array r with None => initialize r | Some _ => r end in
  match make_tile_grid (fst tile_size) (snd tile_size) NoBounds r with
  | (r1, Raise e) => (r1, Raise e)
  | (r1, Ok _) =>
      let tile_samp_output := map (fun _ => Unsampled) id_geom_list in
      match for_each (sample_tile id_geom_list band_order) (tile_grid r1)
                     (r1, tile_samp_output) with
      | ((r2, _), Raise e) => (r2, Raise e)
      | ((r2, out), Ok _) => (r2, Ok out)
      end
  end.

End RasterModel.

Arguments GeoTransform R : clear implicits.
Arguments Tile R : clear implicits.
Arguments ndarray R : clear implicits.
Arguments DataSource R : clear implicits.
Arguments Raster R : clear implicits.
Arguments bounds_arg R : clear implicits.
Arguments Geom R : clear implicits.
Arguments Slot R : clear implicits.
Arguments part R : clear implicits.

Arguments shape {R} r : simpl never.
Arguments transform {R} r : simpl never.
Arguments nbands {R} r : simpl never.
Arguments nrows {R} r : simpl never.
Arguments ncols {R} r : simpl never.

(** ** Pixel to coordinate and back *)

Section RoundTrip.
Context {R : Type} `{PyNum R}.

(** [get_locations(get_coords([(px, py)], pixel_size, tie_point,
    pixel_center=False), pixel_size, tie_point)]. *)
Definition round_trip (px py : Z) (pixel_size tie_point : R * R)
    : result (list (option R * option R)) :=
  get_locations (map Some (get_coords [(px, py)] pixel_size tie_point false))
                pixel_size tie_point.

(** The locations that came back are the pixel [(px, py)]. *)
Definition reads_back (px py : Z) (res : result (list (option R * option R))) : Prop :=
  exists lx ly, res = Ok [(Some lx, Some ly)] /\ to_int lx = Ok px /\ to_int ly = Ok py.

End RoundTrip.

(** ** OGR's [Intersects] for a point and an axis-parallel ring

    A point intersects the polygon of a rectangle's ring exactly when it
    lies in the closed rectangle, the boundary included. *)

Section Rectangles.
Context {R : Type} `{PyNum R}.

Definition leb (a b : R) : bool := negb (ltb b a).

Definition in_span (vals : list R) (v : R) : bool :=
  existsb (fun a => leb a v) vals && existsb (fun a => leb v a) vals.

Definition rect_intersects (ring : list (R * R)) (g : Geom R) : bool :=
  match g with
  | Point x y => in_span (map fst ring) x && in_span (map snd ring) y
  | NotPoint => false
  end.

End Rectangles.

(** ** Vocabulary of the statements *)

(** [q] is the floor of [v]. *)
Definition is_floor (q : Z) (v : Q) : Prop :=
  (inject_Z q <= v)%Q /\ (v < inject_Z (q + 1))%Q.

(** What [get_locations] owes one entry of its input, in exact arithmetic. *)
Definition floor_location (pw ph tx ty : Q) (c : option (Q * Q))
    (l : option Q * option Q) : Prop :=
  match c with
  | None => l = (None, None)
  | Some (x, y) =>
      exists qx qy : Z,
        l = (Some (inject_Z qx), Some (inject_Z qy)) /\
        is_floor qx ((x - tx) / pw) /\ is_floor qy ((y - ty) / ph)
  end.

(** The number of tiles along an axis from [lo] to [hi], and their offsets. *)
Definition steps (lo hi size : Z) : nat := Z.to_nat ((hi - lo + size - 1) / size).

Definition offsets (lo hi size : Z) : list Z :=
  map (fun k : nat => lo + Z.of_nat k * size) (seq 0 (steps lo hi size)).

Section GridCells.
Context {R : Type} `{PyNum R}.

(** The cells of a window in row-major order: [y] outside, [x] inside. *)
Definition grid_cells (t : GeoTransform R) (xmin xmax ymin ymax tw th : Z)
    : list (Tile R) :=
  flat_map (fun y => map (fun x => make_tile t xmin xmax ymin ymax tw th x y)
                         (offsets xmin xmax tw))
           (offsets ymin ymax th).

Definition tile_width (t : Tile R) : Z := snd (fst (block_coords t)).

End GridCells.

Section SamplingVocabulary.
Context {R : Type} `{PyNum R}.
Variable Intersects : list (R * R) -> Geom R -> bool.
Variable ExportToWkt : R * R -> R * R.

(** The tile's polygon intersects the geometry; some part does. *)
Definition meets (t : Tile R) (g : Geom R) : bool := Intersects (bound_coords t) g.

Definition touched (parts : list (part R)) (t : Tile R) : bool :=
  existsb (fun p : part R => meets t (snd p)) parts.

(** Two states of one raster: they differ at most in [array],
    [array_offsets] and the log of reads. *)
Definition same_meta (r r' : Raster R) : Prop :=
  shape r' = shape r /\ transform r' = transform r /\
  nodatavalue r' = nodatavalue r /\ datasource r' = datasource r /\
  tile_grid r' = tile_grid r /\ ntiles r' = ntiles r.

(** The raster's data, transform and log of reads are those of [r]. *)
Definition same_source (r r' : Raster R) : Prop :=
  shape r' = shape r /\ transform r' = transform r /\
  datasource r' = datasource r /\ reads r' = reads r.

(** The band values of the geometry [g] taken from the tile [t]: the
    tile's block is read, the coordinates read back from the text of [g]
    are located from the tile's tie point and the array is indexed
    there. *)
Definition tile_sample (r : Raster R) (band_order : list Z) (t : Tile R) (g : Geom R)
    : result (list R) :=
  let* a := read_block (datasource r) (nbands r) (block_coords t) in
  let* c := samp_coord ExportToWkt g in
  let* l := locate (gt1 (transform r), gt5 (transform r)) (tie_point t) c in
  sample (Some a) (nbands r) band_order l.

(** [band_order] as [extract_geom] completes it. *)
Definition band_order_of (r : Raster R) (band_order : option (list Z)) : list Z :=
  match band_order with Some b => b | None => range 0 (nbands r) end.

(** Every [nan] and every infinity replaced by [v]. *)
Definition make_finite (v : R) (a : list (list (list R))) : list (list (list R)) :=
  map (map (map (fun x => if is_nan x || is_inf x then v else x))) a.

End SamplingVocabulary.

(** A coordinate list without a coordinate: every entry is [None]. *)
Definition all_none {A : Type} (l : list (option A)) : bool :=
  forallb (fun c => match c with None => true | Some _ => false end) l.

(** The pixel [(px, py)] lies in the block [(x, y, cols, rows)]. *)
Definition in_block (b : block) (px py : Z) : bool :=
  let '(x, y, cols, rows) := b in
  (x <=? px) && (px <? x + cols) && (y <=? py) && (py <? y + rows).

Section ArrayVocabulary.
Context {R : Type} `{PyNum R}.

(** [np.isfinite(a).all()]: the array holds no [nan] and no infinity. *)
Definition finite_array (a : ndarray R) : bool :=
  match a with
  | Arr2 a => negb (any2 is_nan a || any2 is_inf a)
  | Arr3 a => negb (any3 is_nan a || any3 is_inf a)
  end.

(** The tile size [extract_geom] settles on, and the raster it hands to
    [make_tile_grid]. *)
Definition tile_size_of (r : Raster R) (tile_size : option (Z * Z)) : Z * Z :=
  match tile_size with Some t => t | None => (nrows r, ncols r) end.

Definition refreshed (r : Raster R) : Raster R :=
  match array r with None => initialize r | Some _ => r end.

End ArrayVocabulary.

(** The pixel of the whole raster that holds a coordinate, counted from the
    raster's own tie point: column and row. *)
Definition pixel_of (t : GeoTransform Q) (X Y : Q) : Z * Z :=
  (Qfloor ((X - gt0 t) / gt1 t), Qfloor ((Y - gt3 t) / gt5 t)).

Section TileVocabulary.
Context {R : Type} `{PyNum R}.

(** The tie point of a tile is the corner of the first pixel of its block,
    as [get_coords] gives it. *)
Definition anchored (t : GeoTransform R) (tl : Tile R) : Prop :=
  let '(x, y, _, _) := block_coords tl in
  get_coords [(x, y)] (gt1 t, gt5 t) (gt0 t, gt3 t) false = [tie_point tl].

(** A tile of the raster [r]: anchored, its block inside the raster. *)
Definition tile_of (r : Raster R) (tl : Tile R) : Prop :=
  anchored (transform r) tl /\
  let '(x, y, cols, rows) := block_coords tl in
  0 <= x /\ 0 <= y /\ x + cols <= ncols r /\ y + rows <= nrows r.

(** The values of the chosen bands at one pixel of the data source: the
    first band alone on a raster of one band, the bands of [band_order]
    (counted from 0) otherwise. *)
Definition band_values (ds : DataSource R) (nb : Z) (band_order : list Z)
    (row col : Z) : list R :=
  if nb =? 1 then [pixel ds 1 row col]
  else map (fun b => pixel ds (b + 1) row col) band_order.

(** [band_order] names bands of the raster. *)
Definition bands_in_range (nb : Z) (band_order : list Z) : Prop :=
  nb <> 1 -> band_order <> [] /\ Forall (fun b => 0 <= b < nb) band_order.

(** The window of a band that [ReadAsArray] hands back. *)
Definition window (ds : DataSource R) (band : Z) (b : block) : list (list R) :=
  let '(xoff, yoff, xsize, ysize) := b in
  map (fun i : nat =>
         map (fun j : nat => pixel ds band (yoff + Z.of_nat i) (xoff + Z.of_nat j))
             (seq 0 (Z.to_nat xsize)))
      (seq 0 (Z.to_nat ysize)).

End TileVocabulary.

(** The pixel of the whole raster at which [extract_geom] looks a point
    up: the pixel that holds the coordinates read back from the point's
    text, not the point's own coordinates. *)
Definition sampled_pixel (ExportToWkt : Q * Q -> Q * Q) (t : GeoTransform Q) (X Y : Q)
    : Z * Z :=
  pixel_of t (fst (ExportToWkt (X, Y))) (snd (ExportToWkt (X, Y))).

(** The pixel at which a point is looked up lies in the block of the
    tile. *)
Definition located_in (ExportToWkt : Q * Q -> Q * Q) (t : GeoTransform Q) (tl : Tile Q)
    (g : Geom Q) : bool :=
  match g with
  | Point X Y =>
      in_block (block_coords tl) (fst (sampled_pixel ExportToWkt t X Y))
               (snd (sampled_pixel ExportToWkt t X Y))
  | NotPoint => false
  end.

(** numpy accepts the index [i] on an axis of length [n]. *)
Definition index_ok (n i : Z) : bool := (- n <=? i) && (i <? n).

(** ** The generator [get_next_tile] *)

Section NextTile.
Context {R : Type} `{PyNum R}.

(** The argument [bands]: [None], a number, a list, anything else. *)
Inductive bands_arg : Type :=
  | AllBands                     (* bands is None *)
  | OneBand (n : Z)              (* type(bands) is int *)
  | OneBandFloat (x : R)         (* type(bands) is float *)
  | BandList (l : list Z)        (* a list or a tuple, counted from 0 *)
  | OtherBands.                  (* any other type *)

(** The band numbers the generator settles on before its loop. *)
Definition tile_bands (r : Raster R) (bands : bands_arg) : result (list Z) :=
  match bands with
  | AllBands => Ok (range 1 (nbands r + 1))
  | OneBand n => Ok [n]
  | OneBandFloat x => let* n := to_int x in Ok [n]
  | BandList l => Ok (map (fun ib => ib + 1) l)
  | OtherBands => Raise ValueError
  end.

(** What the generator yields: the tie point of a tile and its array, or
    [None] for the array. *)
Definition yielded : Type := (R * R) * option (ndarray R).

(** The [while] loop over the indices [ii]: the tiles yielded before the
    generator ends, and how it ends. *)
Fixpoint yield_tiles (r : Raster R) (bands : list Z) (get_array finite_only : bool)
    (nan_replacement : R) (iis : list nat) : list yielded * result unit :=
  match iis with
  | [] => ([], Ok tt)
  | ii :: rest =>
      match tile_grid r !! ii with
      | None => ([], Raise IndexError)
      | Some tile =>
          match (if get_array
                 then let* a := next_tile_array r bands tile finite_only nan_replacement in
                      Ok (Some a)
                 else Ok None) with
          | Raise e => ([], Raise e)
          | Ok tile_arr =>
              let '(ys, res) :=
                yield_tiles r bands get_array finite_only nan_replacement rest in
              ((tie_point tile, tile_arr) :: ys, res)
          end
      end
  end.

(** [get_next_tile(tile_xsize, tile_ysize, bands, get_array, finite_only,
    nan_replacement)], run to its end: the new state of the raster, the
    tiles yielded, and [Ok] when the generator is exhausted or the
    exception that ended it.  The grid is built only when [self.ntiles] is
    [None]; a count of [None] at the loop cannot occur after that (and
    compares below every index). *)
Definition get_next_tile (tile_xsize tile_ysize : Z) (bands : bands_arg)
    (get_array finite_only : bool) (nan_replacement : option R) (r : Raster R)
    : Raster R * (list yielded * result unit) :=
  let '(r, made) :=
    match ntiles r with
    | None => make_tile_grid tile_xsize tile_ysize NoBounds r
    | Some _ => (r, Ok tt)
    end in
  match made with
  | Raise e => (r, ([], Raise e))
  | Ok _ =>
      let nan_replacement :=
        match nan_replacement with
        | Some v => v
        | None => match nodatavalue r with None => of_int 0 | Some v => v end
        end in
      match tile_bands r bands with
      | Raise e => (r, ([], Raise e))
      | Ok bands =>
          match ntiles r with
          | None => (r, ([], Ok tt))
          | Some n =>
              (r, yield_tiles r bands get_array finite_only nan_replacement
                    (seq 0 (Z.to_nat n)))
          end
      end
  end.

(** The pixels of a block in the chosen bands, as one array: two
    dimensions for one band, three otherwise. *)
Definition tile_pixels (ds : DataSource R) (bands : list Z) (b : block) : ndarray R :=
  match bands with
  | [band] => Arr2 (window ds band b)
  | _ => Arr3 (map (fun band => window ds band b) bands)
  end.

(** An array with every [nan] and every infinity replaced by [v]. *)
Definition finite_version (v : R) (a : ndarray R) : ndarray R :=
  match a with
  | Arr2 a => Arr2 (map (map (fun x => if is_nan x || is_inf x then v else x)) a)
  | Arr3 a => Arr3 (make_finite v a)
  end.

(** The replacement value the tile methods settle on. *)
Definition replacement_of (r : Raster R) (nan_replacement : option R) : R :=
  match nan_replacement with
  | Some v => v
  | None => match nodatavalue r with None => of_int 0 | Some v => v end
  end.

End NextTile.

Arguments bands_arg R : clear implicits.
Arguments yielded R : clear implicits.

(** ** [get_bounds] *)

(** Python's [abs]. *)
Class PyAbs (R : Type) : Type := { py_abs : R -> R }.

#[global] Instance exact_abs : PyAbs Q := {| py_abs := Qabs |}.
#[global] Instance float_abs : PyAbs spec_float := {| py_abs := SFabs |}.

Section GetBounds.
Context {R : Type} `{PyNum R} `{PyAbs R}.

(** [self.metadict['xpixel']] and [self.metadict['ypixel']], as
    [get_raster_metadict] fills them from the geotransform. *)
Definition xpixel (r : Raster R) : R := py_abs (gt1 (transform r)).
Definition ypixel (r : Raster R) : R := py_abs (gt5 (transform r)).

(** What [get_bounds] returns: a ring of five vertices, or the list
    [[xmin, xmax, ymin, ymax]]. *)
Inductive bounds : Type :=
  | Ring (vertices : list (R * R))
  | Extent (limits : list R).

(** [get_bounds(xy_coordinates)]. *)
Definition get_bounds (r : Raster R) (xy_coordinates : bool) : bounds :=
  let tie_pt := (gt0 (transform r), gt3 (transform r)) in
  if xy_coordinates then
    Ring [tie_pt;
          (add (fst tie_pt) (mul (xpixel r) (of_int (ncols r))), snd tie_pt);
          (add (fst tie_pt) (mul (xpixel r) (of_int (ncols r))),
           sub (snd tie_pt) (mul (ypixel r) (of_int (nrows r))));
          (fst tie_pt, sub (snd tie_pt) (mul (ypixel r) (of_int (nrows r))));
          tie_pt]
  else
    Extent [fst tie_pt;
            add (fst tie_pt) (mul (xpixel r) (of_int (ncols r)));
            sub (snd tie_pt) (mul (ypixel r) (of_int (nrows r)));
            snd tie_pt].

(** The tile of the whole raster, as [make_tile_grid] makes it when the
    tile is as large as the raster. *)
Definition whole_tile (r : Raster R) : Tile R :=
  make_tile (transform r) 0 (ncols r) 0 (nrows r) (ncols r) (nrows r) 0 0.

End GetBounds.

Arguments bounds R : clear implicits.

(** Two points with equal coordinates. *)
Definition same_point (p q : Q * Q) : Prop := (fst p == fst q)%Q /\ (snd p == snd q)%Q.

Section LastRead.
Context {R : Type} `{PyNum R}.

(** The raster [r'] holds what [r] held, or the last block read since. *)
Definition holds_last_read (r r' : Raster R) : Prop :=
  (reads r' = reads r /\ array_offsets r' = array_offsets r /\ array r' = array r) \/
  (exists (l : list block) (b : block),
     reads r' = reads r ++ l ++ [b] /\ array_offsets r' = Some b).

End LastRead.

(** The pixel [(px, py)] is out of the reach of numpy's indices on the
    block [(x, y, cols, rows)]: at or past its last column or row, or a
    whole block before it. *)
Definition beyond_block (b : block) (px py : Z) : Prop :=
  let '(x, y, cols, rows) := b in
  (x + cols <= px \/ px < x - cols) \/ (y + rows <= py \/ py < y - rows).

(** A block with at least one column and one row. *)
Definition positive_block (b : block) : Prop :=
  let '(_, _, cols, rows) := b in 0 < cols /\ 0 < rows.

(** The geometry is a point. *)
Definition is_point {R : Type} (g : Geom R) : Prop :=
  match g with Point _ _ => True | NotPoint => False end.

(** ** Fifteen significant digits *)

(** The integer nearest to [v], the even one of two. *)
Definition round_half_even (v : Q) : Z :=
  let f := Qfloor v in
  match (v - inject_Z f ?= 1 # 2)%Q with
  | Lt => f
  | Gt => f + 1
  | Eq => if Z.even f then f else f + 1
  end.

(** The decimal exponent of [a > 0]: the [k] with [10^k <= a < 10^(k+1)],
    searched up or down from [k]. *)
Fixpoint magnitude (fuel : nat) (a : Q) (k : Z) : Z :=
  match fuel with
  | O => k
  | S fuel' =>
      if Qle_bool (10 ^ (k + 1)) a then magnitude fuel' a (k + 1)
      else if Qle_bool (10 ^ k) a then k
      else magnitude fuel' a (k - 1)
  end.

(** [q] rounded to fifteen significant decimal digits. *)
Definition digits15 (q : Q) : Q :=
  if Qeq_bool q 0 then 0%Q
  else
    let a := Qabs q in
    let fuel := Z.to_nat (Z.log2 (Z.abs (Qnum q)) + Z.log2 (Zpos (Qden q)) + 2) in
    let unit := (10 ^ (magnitude fuel a 0 - 14))%Q in
    let n := round_half_even (a / unit) in
    Qred (inject_Z (if Qle_bool 0 q then n else - n) * unit).

(** ** Example rasters *)

Module Examples.

(** An 8 x 8 raster of one band with the transform [(0, 1, 0, 8, 0, -1)];
    the pixel at row [i], column [j] of band [b] holds [100 b + 10 i + j]. *)
Definition north_up : GeoTransform Q :=
  {| gt0 := 0; gt1 := 1; gt2 := 0; gt3 := 8; gt4 := 0; gt5 := -1 |}%Q.

Definition ds8 : DataSource Q :=
  {| RasterCount := 1; RasterYSize := 8; RasterXSize := 8;
     GetGeoTransform := north_up; GetNoDataValue := None;
     pixel b i j := inject_Z (100 * b + 10 * i + j) |}.

Definition raster8 : Raster Q := initialized ds8.

(** A raster of 2 rows and 5 columns. *)
Definition ds25 : DataSource Q :=
  {| RasterCount := 1; RasterYSize := 2; RasterXSize := 5;
     GetGeoTransform :=
       {| gt0 := 0; gt1 := 1; gt2 := 0; gt3 := 2; gt4 := 0; gt5 := -1 |}%Q;
     GetNoDataValue := None;
     pixel b i j := inject_Z (100 * b + 10 * i + j) |}.

Definition raster25 : Raster Q := initialized ds25.

(** A 2 x 2 raster of [nb] bands of floats whose pixel at row 0, column 1
    is [nan] in every band. *)
Definition ds_nan (nb : Z) : DataSource spec_float :=
  {| RasterCount := nb; RasterYSize := 2; RasterXSize := 2;
     GetGeoTransform :=
       {| gt0 := B64.of_Z 0; gt1 := B64.of_Z 1; gt2 := B64.of_Z 0;
          gt3 := B64.of_Z 2; gt4 := B64.of_Z 0; gt5 := B64.of_Z (-1) |};
     GetNoDataValue := None;
     pixel b i j := if (i =? 0) && (j =? 1) then S754_nan else B64.of_Z (b + i + j) |}.

Definition raster_nan (nb : Z) : Raster spec_float := initialized (ds_nan nb).

(** The 8 x 8 raster with a pixel width of zero. *)
Definition ds_zero_width : DataSource Q :=
  {| RasterCount := 1; RasterYSize := 8; RasterXSize := 8;
     GetGeoTransform :=
       {| gt0 := 0; gt1 := 0; gt2 := 0; gt3 := 8; gt4 := 0; gt5 := -1 |}%Q;
     GetNoDataValue := None;
     pixel b i j := inject_Z (100 * b + 10 * i + j) |}.

Definition raster_zero_width : Raster Q := initialized ds_zero_width.

(** A text of fifteen significant digits, as C's [%.15g] prints a number:
    each coordinate comes back as the nearest decimal of fifteen
    significant digits.  The short decimals of the examples come back as
    they are. *)
Definition text15 (c : Q * Q) : Q * Q := (digits15 (fst c), digits15 (snd c)).

End Examples.

(** * Properties *)

(** ** The affine transform in exact arithmetic *)

Module ExactFacts.
Import Exact.

Lemma qfloordiv_nonzero (a b : Q) :
  ~ (b == 0)%Q -> qfloordiv a b = Ok (inject_Z (Qfloor (a / b))).
Proof.
  intros Hb. unfold qfloordiv.
  destruct (Qeq_bool b 0) eqn:E; [|reflexivity].
  apply Qeq_bool_iff in E. contradiction.
Qed.

Lemma truncate_inject_Z (n : Z) : to_int (inject_Z n) = Ok n.
Proof. cbn. unfold truncate. cbn. by rewrite Z.quot_1_r. Qed.

Lemma Qfloor_is_floor (v : Q) : is_floor (Qfloor v) v.
Proof. split; [apply Qfloor_le | apply Qlt_floor]. Qed.

Lemma Qfloor_Qred_div (a b : Q) : Qfloor (Qred a / b) = Qfloor (a / b).
Proof. apply Qfloor_comp. rewrite Qred_correct. reflexivity. Qed.

Lemma floor_of_scaled (n : Z) (s t : Q) :
  ~ (s == 0)%Q ->
  Qfloor (Qred (Qred (Qred (Qred (inject_Z n * s) + t) + inject_Z 0) - t) / s) = n.
Proof.
  intros Hs. etransitivity; [|apply Qfloor_Z]. apply Qfloor_comp.
  rewrite !Qred_correct. change (inject_Z 0) with 0%Q. field. exact Hs.
Qed.

#[local] Opaque Qfloor Qred Qdiv Qplus Qminus Qmult inject_Z.

Lemma locate_floor (pw ph tx ty : Q) (c : option (Q * Q)) :
  ~ (pw == 0)%Q -> ~ (ph == 0)%Q ->
  exists l, locate (pw, ph) (tx, ty) c = Ok l /\ floor_location pw ph tx ty c l.
Proof.
  intros Hw Hh. destruct c as [[x y]|]; cbn.
  - rewrite !qfloordiv_nonzero by assumption. cbn.
    eexists; split; [reflexivity|].
    exists (Qfloor ((x - tx) / pw)), (Qfloor ((y - ty) / ph)).
    split; [|split; apply Qfloor_is_floor].
    rewrite !Qfloor_Qred_div. reflexivity.
  - eexists; split; reflexivity.
Qed.

(** C8, amended.  In exact arithmetic and for a pixel size without a zero,
    [get_locations] returns, entry by entry and in the order of its input,
    the pair of floors of [(x - tx) / pw] and [(y - ty) / ph] (the largest
    integers below the quotients, whatever the signs of [pw] and [ph]) for a
    coordinate and [(None, None)] for a [None]; it does not raise. *)
Theorem get_locations_floor_semantics
    (coords : list (option (Q * Q))) (pw ph tx ty : Q) :
  ~ (pw == 0)%Q -> ~ (ph == 0)%Q ->
  exists locs,
    get_locations coords (pw, ph) (tx, ty) = Ok locs /\
    length locs = length coords /\
    Forall2 (floor_location pw ph tx ty) coords locs.
Proof.
  intros Hw Hh. unfold get_locations.
  induction coords as [|c coords IH]; cbn.
  - exists []. repeat split. constructor.
  - destruct (locate_floor pw ph tx ty c Hw Hh) as (l & -> & Hl).
    destruct IH as (locs & -> & Hlen & Hall). cbn.
    exists (l :: locs). repeat split; [cbn; congruence | by constructor].
Qed.

Lemma get_locations_floor_semantics_witness :
  (~ (1 == 0)%Q /\ ~ (-1 == 0)%Q) /\
  exists locs,
    get_locations [Some (5 # 2, 11 # 2); None; Some (-(1 # 2), 17 # 2)]%Q (1, -1)%Q (0, 8)%Q
      = Ok locs /\
    length locs = 3%nat /\
    Forall2 (floor_location 1 (-1) 0 8)
      [Some (5 # 2, 11 # 2); None; Some (-(1 # 2), 17 # 2)]%Q locs.
Proof.
  split; [split; discriminate|].
  apply (get_locations_floor_semantics
           [Some (5 # 2, 11 # 2); None; Some (-(1 # 2), 17 # 2)]%Q 1 (-1) 0 8);
    discriminate.
Defined.

(** C3, amended.  In exact arithmetic, for every pixel and every pixel size
    without a zero, [get_locations] undoes [get_coords] with
    [pixel_center=False]. *)
Theorem round_trip_exact (px py : Z) (pw ph tx ty : Q) :
  ~ (pw == 0)%Q -> ~ (ph == 0)%Q ->
  round_trip px py (pw, ph) (tx, ty) = Ok [(Some (inject_Z px), Some (inject_Z py))] /\
  reads_back px py (round_trip px py (pw, ph) (tx, ty)).
Proof.
  intros Hw Hh.
  assert (E : round_trip px py (pw, ph) (tx, ty)
              = Ok [(Some (inject_Z px), Some (inject_Z py))]).
  { unfold round_trip, get_coords, get_locations. cbn.
    rewrite !qfloordiv_nonzero by assumption. cbn.
    rewrite !floor_of_scaled by assumption. reflexivity. }
  split; [exact E|]. rewrite E. exists (inject_Z px), (inject_Z py).
  split; [reflexivity|]. split; apply truncate_inject_Z.
Qed.

Lemma round_trip_exact_witness :
  (~ (1 # 10 == 0)%Q /\ ~ (-(1 # 10) == 0)%Q) /\
  reads_back 1 0 (round_trip 1 0 (1 # 10, -(1 # 10))%Q (7 # 10, 8)%Q).
Proof.
  split; [split; discriminate|].
  apply (round_trip_exact 1 0 (1 # 10) (-(1 # 10)) (7 # 10) 8); discriminate.
Defined.

(** In exact arithmetic the corners of CRS bounds always convert: the
    window of [get_pixel_bounds] exists whenever the pixel size has no
    zero. *)
Lemma crs_window_exact (r : Raster Q) (b : Q * Q * Q * Q) :
  ~ (gt1 (transform r) == 0)%Q -> ~ (gt5 (transform r) == 0)%Q ->
  exists w, crs_window r b = Ok w.
Proof.
  intros Hw Hh. destruct b as [[[bx0 bx1] by0] by1].
  unfold crs_window, crs_corners, get_locations. cbn.
  rewrite !qfloordiv_nonzero by assumption. cbn. eexists. reflexivity.
Qed.

End ExactFacts.

(** ** The affine transform in binary64 *)

Module B64Facts.
Import B64.

(** C3, as stated, fails on floats: with pixel width [0.1] and tie point
    [0.7] the pixel column 1 goes to [0.7999999999999999], and
    [(0.7999999999999999 - 0.7) // 0.1] is [0.0]. *)
Lemma round_trip_drifts :
  round_trip 1 0 (ratio 1 10, of_Z (-1)) (ratio 7 10, of_Z 8)
  = Ok [(Some (S754_zero false), Some (S754_zero true))] /\
  ~ reads_back 1 0 (round_trip 1 0 (ratio 1 10, of_Z (-1)) (ratio 7 10, of_Z 8)).
Proof.
  assert (E : round_trip 1 0 (ratio 1 10, of_Z (-1)) (ratio 7 10, of_Z 8)
              = Ok [(Some (S754_zero false), Some (S754_zero true))])
    by (vm_compute; reflexivity).
  split; [exact E|].
  rewrite E. intros (lx & ly & Heq & Hx & _).
  injection Heq as <- <-. vm_compute in Hx. discriminate Hx.
Qed.

(** C8, as stated, fails on floats: the difference [x - tx] is rounded
    before the floor division.  With the tie point [2**-60] and the pixel
    width [1.0], the coordinate [100000.0] lies in the pixel 99999, the
    floor of [(x - tx) / pw]; [100000.0 - 2**-60] is [100000.0], and
    [get_locations] returns [100000.0].  The [None] of the list still
    becomes [(None, None)], in its place. *)
Lemma get_locations_rounds_difference :
  let x := of_Z 100000 in
  let tx := ratio 1 (2 ^ 60) in
  let pw := of_Z 1 in
  get_locations [Some (x, of_Z 8); None] (pw, of_Z (-1)) (tx, of_Z 8)
  = Ok [(Some (of_Z 100000), Some (S754_zero true)); (None, None)] /\
  (to_Q (of_Z 100000) == 100000)%Q /\
  is_floor 99999 ((to_Q x - to_Q tx) / to_Q pw) /\
  ~ is_floor 100000 ((to_Q x - to_Q tx) / to_Q pw).
Proof.
  cbv zeta. split; [vm_compute; reflexivity|]. split; [vm_compute; reflexivity|].
  assert (E : ((to_Q (of_Z 100000) - to_Q (ratio 1 (2 ^ 60))) / to_Q (of_Z 1)
               == 115292150460684697599999 # 1152921504606846976)%Q)
    by (vm_compute; reflexivity).
  unfold is_floor. rewrite E. split; [split; vm_compute; congruence|].
  intros [Hle _]. vm_compute in Hle. by apply Hle.
Qed.

End B64Facts.

(** ** [get_pixel_bounds] *)

Section Bounds.
Context {R : Type} `{PyNum R}.

Lemma clamp_bounds_spec (r : Raster R) (x0 x1 y0 y1 : Z) :
  let xmin := Z.max 0 x0 in
  let xmax := Z.min (ncols r) x1 in
  let ymin := Z.max 0 y0 in
  let ymax := Z.min (nrows r) y1 in
  clamp_bounds r (x0, x1, y0, y1) =
    if (xmax <=? xmin) || (ymax <=? ymin) then Raise ValueError
    else Ok (xmin, xmax, ymin, ymax).
Proof.
  cbn. unfold clamp_bounds.
  replace (if x0 <? 0 then 0 else x0) with (Z.max 0 x0)
    by (destruct (Z.ltb_spec x0 0); lia).
  replace (if ncols r <? x1 then ncols r else x1) with (Z.min (ncols r) x1)
    by (destruct (Z.ltb_spec (ncols r) x1); lia).
  replace (if y0 <? 0 then 0 else y0) with (Z.max 0 y0)
    by (destruct (Z.ltb_spec y0 0); lia).
  replace (if nrows r <? y1 then nrows r else y1) with (Z.min (nrows r) y1)
    by (destruct (Z.ltb_spec (nrows r) y1); lia).
  destruct (_ <=? _); [reflexivity|]. destruct (_ <=? _); reflexivity.
Qed.

End Bounds.

(** ** [make_tile_grid] *)

Lemma xrange_positive (lo hi size : Z) :
  0 < size -> xrange lo hi size = Ok (offsets lo hi size).
Proof.
  intros Hs. unfold xrange, offsets, steps.
  destruct (Z.eqb_spec size 0); [lia|].
  destruct (Z.ltb_spec 0 size); [reflexivity|lia].
Qed.

Lemma length_offsets lo hi size : length (offsets lo hi size) = steps lo hi size.
Proof. unfold offsets. by rewrite length_map, length_seq. Qed.

Lemma lookup_offsets lo hi size (k : nat) :
  (k < steps lo hi size)%nat ->
  offsets lo hi size !! k = Some (lo + Z.of_nat k * size).
Proof.
  intros Hk. unfold offsets. rewrite list_lookup_fmap, lookup_seq_lt by done. done.
Qed.

Lemma steps_bounds lo hi size (k : nat) :
  0 < size -> (k < steps lo hi size)%nat ->
  lo + Z.of_nat k * size < hi /\
  (S k = steps lo hi size -> hi <= lo + Z.of_nat k * size + size) /\
  ((S k < steps lo hi size)%nat -> lo + Z.of_nat k * size + size < hi).
Proof.
  intros Hs Hk. unfold steps in *.
  pose proof (Z.mul_div_le (hi - lo + size - 1) size Hs).
  pose proof (Z.mul_succ_div_gt (hi - lo + size - 1) size Hs).
  set (q := (hi - lo + size - 1) / size) in *.
  assert (0 < q) by lia.
  repeat split; intros; nia.
Qed.

Lemma clipped_size (lo hi size : Z) (k : nat) :
  0 < size -> (k < steps lo hi size)%nat ->
  let x := lo + Z.of_nat k * size in
  (if x + size <? hi then size else hi - x) = Z.min size (hi - x) /\
  0 < Z.min size (hi - x) /\ x + Z.min size (hi - x) <= hi /\
  ((S k < steps lo hi size)%nat -> Z.min size (hi - x) = size) /\
  (S k = steps lo hi size -> x + Z.min size (hi - x) = hi).
Proof.
  intros Hs Hk x. destruct (steps_bounds lo hi size k Hs Hk) as (Hlt & Hlast & Hin).
  fold x in Hlt, Hlast, Hin.
  destruct (Z.ltb_spec (x + size) hi); repeat split; lia.
Qed.

Lemma lookup_flat_map_rows {A B C : Type} (f : A -> B -> C) (xs : list B)
    (ys : list A) (i j : nat) (x : B) (y : A) :
  xs !! i = Some x -> ys !! j = Some y ->
  flat_map (fun y => map (f y) xs) ys !! (j * length xs + i)%nat = Some (f y x).
Proof.
  intros Hx. revert j. induction ys as [|y0 ys IH]; intros j Hy; [done|].
  pose proof (lookup_lt_Some _ _ _ Hx) as Hi.
  destruct j as [|j]; cbn [flat_map].
  - injection Hy as ->. cbn [Nat.mul Nat.add].
    rewrite lookup_app_l by (rewrite length_map; lia).
    by rewrite list_lookup_fmap, Hx.
  - cbn [Nat.mul]. rewrite lookup_app_r by (rewrite length_map; lia).
    rewrite length_map.
    replace (length xs + j * length xs + i - length xs)%nat
      with (j * length xs + i)%nat by lia.
    by apply IH.
Qed.

Lemma length_flat_map_rows {A B C : Type} (f : A -> B -> C) (xs : list B) (ys : list A) :
  length (flat_map (fun y => map (f y) xs) ys) = (length ys * length xs)%nat.
Proof.
  induction ys as [|y ys IH]; [done|]. cbn [flat_map].
  rewrite length_app, length_map, IH. cbn [length Nat.mul]. lia.
Qed.

Section Grid.
Context {R : Type} `{PyNum R}.

Lemma with_grid_same (r : Raster R) : with_grid r (tile_grid r) (ntiles r) = r.
Proof. by destruct r. Qed.

Lemma for_each_append (f : GeoTransform R -> Z -> Tile R) (xs : list Z) (r : Raster R) :
  for_each (fun x r => (with_grid r (tile_grid r ++ [f (transform r) x]) (ntiles r), Ok tt))
           xs r
  = (with_grid r (tile_grid r ++ map (f (transform r)) xs) (ntiles r), Ok tt).
Proof.
  revert r. induction xs as [|x xs IH]; intros r; cbn [for_each map].
  - by rewrite app_nil_r, with_grid_same.
  - rewrite IH. cbn. by rewrite <- app_assoc.
Qed.

Lemma grid_row_append (xmin xmax ymin ymax tw th y : Z) (r : Raster R) :
  0 < tw ->
  grid_row xmin xmax ymin ymax tw th y r
  = (with_grid r
       (tile_grid r ++
        map (fun x => make_tile (transform r) xmin xmax ymin ymax tw th x y)
            (offsets xmin xmax tw))
       (ntiles r), Ok tt).
Proof.
  intros Hw. unfold grid_row. rewrite xrange_positive by done.
  apply (for_each_append (fun t x => make_tile t xmin xmax ymin ymax tw th x y)).
Qed.

Lemma grid_rows_append (xmin xmax ymin ymax tw th : Z) (ys : list Z) (r : Raster R) :
  0 < tw ->
  for_each (grid_row xmin xmax ymin ymax tw th) ys r
  = (with_grid r
       (tile_grid r ++
        flat_map (fun y => map (fun x => make_tile (transform r) xmin xmax ymin ymax tw th x y)
                               (offsets xmin xmax tw)) ys)
       (ntiles r), Ok tt).
Proof.
  intros Hw. revert r. induction ys as [|y ys IH]; intros r; cbn [for_each flat_map].
  - by rewrite app_nil_r, with_grid_same.
  - rewrite grid_row_append by done. rewrite IH. cbn. by rewrite <- app_assoc.
Qed.

(** The two loops of [make_tile_grid] append the cells of the window. *)
Lemma make_tile_grid_cells (r : Raster R) (b : bounds_arg R)
    (xmin xmax ymin ymax tw th : Z) :
  0 < tw -> 0 < th ->
  get_pixel_bounds r b = Ok (xmin, xmax, ymin, ymax) ->
  let g := tile_grid r ++ grid_cells (transform r) xmin xmax ymin ymax tw th in
  make_tile_grid tw th b r = (with_grid r g (Some (Z.of_nat (length g))), Ok tt).
Proof.
  intros Hw Hh Hb. unfold make_tile_grid. rewrite Hb.
  rewrite xrange_positive by done. rewrite grid_rows_append by done. reflexivity.
Qed.

Lemma block_coords_make_tile (t : GeoTransform R) (xmin xmax ymin ymax tw th x y : Z) :
  block_coords (make_tile t xmin xmax ymin ymax tw th x y)
  = (x, y, (if x + tw <? xmax then tw else xmax - x),
           (if y + th <? ymax then th else ymax - y)).
Proof. reflexivity. Qed.

Lemma lookup_grid_cells (t : GeoTransform R) (xmin xmax ymin ymax tw th : Z) (i j : nat) :
  (i < steps xmin xmax tw)%nat -> (j < steps ymin ymax th)%nat ->
  grid_cells t xmin xmax ymin ymax tw th !! (j * steps xmin xmax tw + i)%nat
  = Some (make_tile t xmin xmax ymin ymax tw th
            (xmin + Z.of_nat i * tw) (ymin + Z.of_nat j * th)).
Proof.
  intros Hi Hj. unfold grid_cells. rewrite <- (length_offsets xmin xmax tw).
  apply (lookup_flat_map_rows (fun y x => make_tile t xmin xmax ymin ymax tw th x y));
    by apply lookup_offsets.
Qed.

Lemma length_grid_cells (t : GeoTransform R) (xmin xmax ymin ymax tw th : Z) :
  length (grid_cells t xmin xmax ymin ymax tw th)
  = (steps ymin ymax th * steps xmin xmax tw)%nat.
Proof.
  unfold grid_cells.
  rewrite (length_flat_map_rows (fun y x => make_tile t xmin xmax ymin ymax tw th x y)).
  by rewrite !length_offsets.
Qed.

(** C2.  For positive tile sizes and the pixel window
    [(xmin, xmax, ymin, ymax)], [make_tile_grid] appends [ny * nx] tiles in
    row-major order: the tile number [j * nx + i] starts at
    [(xmin + i tw, ymin + j th)]; its width is [tw] and its height [th],
    except in the last column and the last row, where they are what is left
    up to [xmax] and [ymax], never more and never nothing.  Ten columns cut
    by 4 give the widths 4, 4, 2; an 8 x 8 raster cut by 4 x 4 gives the four
    blocks of the scenario, in its order. *)
Theorem make_tile_grid_row_major :
  (forall (r : Raster R) (b : bounds_arg R) (xmin xmax ymin ymax tw th : Z),
     0 < tw -> 0 < th ->
     get_pixel_bounds r b = Ok (xmin, xmax, ymin, ymax) ->
     let nx := steps xmin xmax tw in
     let ny := steps ymin ymax th in
     exists g : list (Tile R),
       make_tile_grid tw th b r
       = (with_grid r (tile_grid r ++ g) (Some (Z.of_nat (length (tile_grid r ++ g)))),
          Ok tt) /\
       length g = (ny * nx)%nat /\
       forall i j : nat, (i < nx)%nat -> (j < ny)%nat ->
         let x := xmin + Z.of_nat i * tw in
         let y := ymin + Z.of_nat j * th in
         let w := Z.min tw (xmax - x) in
         let h := Z.min th (ymax - y) in
         block_coords <$> g !! (j * nx + i)%nat = Some (x, y, w, h) /\
         0 < w /\ 0 < h /\ x + w <= xmax /\ y + h <= ymax /\
         ((S i < nx)%nat -> w = tw) /\ (S i = nx -> x + w = xmax) /\
         ((S j < ny)%nat -> h = th) /\ (S j = ny -> y + h = ymax)) /\
  (forall r : Raster R,
     tile_grid r = [] -> ncols r = 10 -> nrows r = 3 ->
     tile_width <$> tile_grid (fst (make_tile_grid 4 3 NoBounds r)) = [4; 4; 2]) /\
  (forall r : Raster R,
     tile_grid r = [] -> ncols r = 8 -> nrows r = 8 ->
     block_coords <$> tile_grid (fst (make_tile_grid 4 4 NoBounds r))
     = [(0, 0, 4, 4); (4, 0, 4, 4); (0, 4, 4, 4); (4, 4, 4, 4)]).
Proof.
  split; [|split].
  - intros r b xmin xmax ymin ymax tw th Hw Hh Hb. cbv zeta.
    exists (grid_cells (transform r) xmin xmax ymin ymax tw th).
    split; [by apply make_tile_grid_cells|].
    split; [apply length_grid_cells|].
    intros i j Hi Hj.
    rewrite lookup_grid_cells by done. cbn [fmap option_fmap option_map].
    rewrite block_coords_make_tile.
    destruct (clipped_size xmin xmax tw i Hw Hi) as (-> & ? & ? & ? & ?).
    destruct (clipped_size ymin ymax th j Hh Hj) as (-> & ? & ? & ? & ?).
    repeat split; assumption.
  - intros r Hg Hc Hr.
    rewrite (make_tile_grid_cells r NoBounds 0 10 0 3 4 3) by (cbn; congruence || lia).
    cbn [fst with_grid tile_grid]. rewrite Hg. reflexivity.
  - intros r Hg Hc Hr.
    rewrite (make_tile_grid_cells r NoBounds 0 8 0 8 4 4) by (cbn; congruence || lia).
    cbn [fst with_grid tile_grid]. rewrite Hg. reflexivity.
Qed.

End Grid.

Lemma make_tile_grid_row_major_witness :
  (0 < 4 /\ 0 < 4 /\ get_pixel_bounds Examples.raster8 NoBounds = Ok (0, 8, 0, 8)) /\
  exists g : list (Tile Q),
    tile_grid (fst (make_tile_grid 4 4 NoBounds Examples.raster8)) = g /\
    length g = 4%nat /\
    block_coords <$> g !! 3%nat = Some (4, 4, 4, 4).
Proof.
  split; [repeat split; lia|].
  destruct (proj1 make_tile_grid_row_major Examples.raster8 NoBounds 0 8 0 8 4 4)
    as (g & Hg & Hlen & Hcell); [lia | lia | reflexivity |].
  exists g. rewrite Hg. split; [reflexivity|]. split; [exact Hlen|].
  exact (proj1 (Hcell 1%nat 1%nat ltac:(vm_compute; lia) ltac:(vm_compute; lia))).
Defined.

Section GridTwice.
Context {R : Type} `{PyNum R}.

Lemma get_pixel_bounds_with_grid (r : Raster R) (g : list (Tile R)) (n : option Z)
    (b : bounds_arg R) :
  get_pixel_bounds (with_grid r g n) b = get_pixel_bounds r b.
Proof. destruct b; reflexivity. Qed.

(** C7, amended.  [make_tile_grid] appends: each call with the same
    positive tile sizes and the same bounds adds the same row-major cells
    to the raster's grid and sets the count to the new length; two calls
    leave the cells twice. *)
Theorem make_tile_grid_appends (r : Raster R) (b : bounds_arg R)
    (xmin xmax ymin ymax tw th : Z) :
  0 < tw -> 0 < th ->
  get_pixel_bounds r b = Ok (xmin, xmax, ymin, ymax) ->
  let g := grid_cells (transform r) xmin xmax ymin ymax tw th in
  let once := make_tile_grid tw th b r in
  let twice := make_tile_grid tw th b (fst once) in
  snd once = Ok tt /\
  tile_grid (fst once) = tile_grid r ++ g /\
  ntiles (fst once) = Some (Z.of_nat (length (tile_grid r) + length g)) /\
  snd twice = Ok tt /\
  tile_grid (fst twice) = tile_grid r ++ g ++ g /\
  ntiles (fst twice) = Some (Z.of_nat (length (tile_grid r) + length g + length g)).
Proof.
  intros Hw Hh Hb g once twice. subst once twice.
  rewrite (make_tile_grid_cells r b xmin xmax ymin ymax tw th) by done.
  cbn [fst snd].
  rewrite (make_tile_grid_cells _ b xmin xmax ymin ymax tw th)
    by (try done; by rewrite get_pixel_bounds_with_grid).
  cbn [fst snd with_grid tile_grid ntiles transform]. fold g.
  rewrite !length_app, <- app_assoc. repeat split; do 2 f_equal; lia.
Qed.

End GridTwice.

(** C7, as stated, fails: the second call on the 8 x 8 raster leaves eight
    tiles where the first left four. *)
Lemma make_tile_grid_not_idempotent :
  let once := fst (make_tile_grid 4 4 NoBounds Examples.raster8) in
  let twice := fst (make_tile_grid 4 4 NoBounds once) in
  (length (tile_grid once) = 4%nat /\ ntiles once = Some 4) /\
  (length (tile_grid twice) = 8%nat /\ ntiles twice = Some 8) /\
  ~ (tile_grid twice = tile_grid once /\ ntiles twice = ntiles once).
Proof.
  cbv zeta. split; [|split]; [vm_compute; done | vm_compute; done |].
  intros [_ E]. vm_compute in E. discriminate E.
Qed.

Lemma make_tile_grid_appends_witness :
  (0 < 4 /\ 0 < 4 /\ get_pixel_bounds Examples.raster8 NoBounds = Ok (0, 8, 0, 8)) /\
  tile_grid (fst (make_tile_grid 4 4 NoBounds
                    (fst (make_tile_grid 4 4 NoBounds Examples.raster8))))
  = tile_grid Examples.raster8
    ++ grid_cells (transform Examples.raster8) 0 8 0 8 4 4
    ++ grid_cells (transform Examples.raster8) 0 8 0 8 4 4.
Proof.
  split; [repeat split; lia|].
  apply (make_tile_grid_appends Examples.raster8 NoBounds 0 8 0 8 4 4);
    [lia | lia | reflexivity].
Defined.

(** C6, at a raster of 2 rows and 5 columns: without [tile_size] the grid
    of [extract_geom] has three tiles, two columns wide, not the one tile
    [(0, 0, 5, 2)]. *)
Lemma extract_geom_default_grid_not_single :
  block_coords <$>
    tile_grid (fst (extract_geom rect_intersects Examples.text15
                      [("1_1"%string, Point (1 # 2) (3 # 2))]
                      None None Examples.raster25))
  = [(0, 0, 2, 2); (2, 0, 2, 2); (4, 0, 1, 2)].
Proof. vm_compute. reflexivity. Qed.

(** ** [get_tile] *)

Section Finite.
Context {R : Type} `{PyNum R}.

Lemma assign_twice (v : R) (a : list (list (list R))) :
  assign_where is_inf v (assign_where is_nan v a) = make_finite v a.
Proof.
  unfold assign_where, make_finite. rewrite !map_map.
  apply map_ext; intros p. rewrite !map_map. apply map_ext; intros row.
  rewrite !map_map. apply map_ext; intros x.
  destruct (is_nan x); cbn; [by destruct (is_inf v)|done].
Qed.

Lemma make_finite_id (v : R) (a : list (list (list R))) :
  any3 is_nan a || any3 is_inf a = false -> make_finite v a = a.
Proof.
  intros Hn. apply orb_false_elim in Hn as [Hnan Hinf].
  unfold make_finite, any3 in *.
  induction a as [|p a IHa]; [done|]. cbn in *.
  apply orb_false_elim in Hnan as [Hp1 Ha1]. apply orb_false_elim in Hinf as [Hp2 Ha2].
  rewrite IHa by done. f_equal. clear IHa Ha1 Ha2.
  induction p as [|row p IHp]; [done|]. cbn in *.
  apply orb_false_elim in Hp1 as [Hr1 Hp1]. apply orb_false_elim in Hp2 as [Hr2 Hp2].
  rewrite IHp by done. f_equal. clear IHp Hp1 Hp2.
  induction row as [|x row IHr]; [done|]. cbn in *.
  apply orb_false_elim in Hr1 as [-> Hr1]. apply orb_false_elim in Hr2 as [-> Hr2].
  by rewrite IHr.
Qed.

(** With several bands and [finite_only], [get_tile] returns what was read
    with every [nan] and every infinity replaced, the rest as read. *)
Lemma get_tile_multi_band_finite (r : Raster R) (bands : list Z) (bc : block)
    (v : R) (arr : ndarray R) :
  length bands <> 1%nat ->
  get_tile r (Some bands) bc true (Some v) = Ok arr ->
  exists raw,
    map_result (fun b => ReadAsArray (datasource r) b bc) bands = Ok raw /\
    arr = Arr3 (make_finite v raw).
Proof.
  intros Hlen. unfold get_tile. destruct bc as [[[x y] cols] rows].
  assert (Hgo :
    (if (cols <? 0) || (rows <? 0) then Raise ValueError
     else
       let* tile_arr :=
         map_result (fun b => ReadAsArray (datasource r) b (x, y, cols, rows)) bands in
       Ok (Arr3
             (if any3 is_nan tile_arr || any3 is_inf tile_arr
              then assign_where is_inf v (assign_where is_nan v tile_arr)
              else tile_arr))) = Ok arr ->
    exists raw,
      map_result (fun b => ReadAsArray (datasource r) b (x, y, cols, rows)) bands = Ok raw /\
      arr = Arr3 (make_finite v raw)).
  { destruct (_ || _); [discriminate|].
    destruct (map_result _ bands) as [raw|e]; cbn; [|discriminate].
    intros [= <-]. exists raw. split; [done|]. f_equal.
    destruct (any3 is_nan raw || any3 is_inf raw) eqn:E.
    - apply assign_twice.
    - symmetry. by apply make_finite_id. }
  destruct bands as [|b1 [|b2 bands]]; [exact Hgo | done | exact Hgo].
Qed.

End Finite.

(** C5, at a raster of one band: with [finite_only] and the replacement
    [-1], [get_tile] hands the [nan] back, where [get_next_tile] replaces
    it for the same block; with two bands [get_tile] replaces it too. *)
Lemma get_tile_single_band_keeps_nan :
  get_tile (Examples.raster_nan 1) None (0, 0, 2, 2) true (Some (B64.of_Z (-1)))
  = Ok (Arr2 [[B64.of_Z 1; S754_nan]; [B64.of_Z 2; B64.of_Z 3]]) /\
  next_tile_array (Examples.raster_nan 1) [1]
    (make_tile (transform (Examples.raster_nan 1)) 0 2 0 2 2 2 0 0) true (B64.of_Z (-1))
  = Ok (Arr2 [[B64.of_Z 1; B64.of_Z (-1)]; [B64.of_Z 2; B64.of_Z 3]]) /\
  get_tile (Examples.raster_nan 2) None (0, 0, 2, 2) true (Some (B64.of_Z (-1)))
  = Ok (Arr3 [[[B64.of_Z 1; B64.of_Z (-1)]; [B64.of_Z 2; B64.of_Z 3]];
              [[B64.of_Z 2; B64.of_Z (-1)]; [B64.of_Z 3; B64.of_Z 4]]]).
Proof. repeat split; vm_compute; reflexivity. Qed.

(** ** [extract_geom] *)

Lemma map_result_Forall2 {A B : Type} (f : A -> result B) (xs : list A) (ys : list B) :
  map_result f xs = Ok ys -> Forall2 (fun x y => f x = Ok y) xs ys.
Proof.
  revert ys. induction xs as [|x xs IH]; intros ys; cbn.
  - intros [= <-]. constructor.
  - destruct (f x) as [y|e] eqn:Hx; cbn; [|discriminate].
    destruct (map_result f xs) as [ys'|e]; cbn; [|discriminate].
    intros [= <-]. constructor; [exact Hx | by apply IH].
Qed.

Lemma elem_of_enumerate_from {A : Type} (l : list A) (n i : nat) (x : A) :
  (i, x) ∈ enumerate_from n l <-> (n <= i)%nat /\ l !! (i - n)%nat = Some x.
Proof.
  revert n. induction l as [|y l IH]; intros n; cbn.
  - rewrite elem_of_nil, lookup_nil. split; [done | by intros [_ ?]].
  - rewrite elem_of_cons, IH. split.
    + intros [[= -> ->]|[Hle Hl]].
      * split; [lia|]. by rewrite Nat.sub_diag.
      * split; [lia|]. by replace (i - n)%nat with (S (i - S n)) by lia.
    + intros [Hle Hl]. destruct (decide (i = n)) as [->|Hne].
      * left. rewrite Nat.sub_diag in Hl. cbn in Hl. congruence.
      * right. split; [lia|].
        by replace (i - n)%nat with (S (i - S n)) in Hl by lia.
Qed.

Lemma elem_of_enumerate {A : Type} (l : list A) (i : nat) (x : A) :
  (i, x) ∈ enumerate l <-> l !! i = Some x.
Proof.
  unfold enumerate. rewrite elem_of_enumerate_from, Nat.sub_0_r.
  split; [by intros [_ ?] | intros ?; split; [lia | done]].
Qed.

Lemma fst_enumerate_from {A : Type} (l : list A) (n : nat) :
  (enumerate_from n l).*1 = seq n (length l).
Proof. revert n. induction l as [|y l IH]; intros n; cbn; [done|]. by rewrite IH. Qed.

Lemma NoDup_fst_filter {A B : Type} (P : A * B -> Prop) `{!forall x, Decision (P x)}
    (l : list (A * B)) :
  NoDup l.*1 -> NoDup (filter P l).*1.
Proof.
  induction l as [|x l IH]; [done|]. rewrite fmap_cons, NoDup_cons. intros [Hx Hl].
  rewrite filter_cons. destruct (decide (P x)); [|by apply IH].
  rewrite fmap_cons, NoDup_cons. split; [|by apply IH].
  intros Hin. apply Hx. apply list_elem_of_fmap in Hin as (y & -> & Hy).
  apply list_elem_of_filter in Hy as [_ Hy]. apply list_elem_of_fmap. eauto.
Qed.

Section Sampling.
Context {R : Type} `{PyNum R}.
Variable Intersects : list (R * R) -> Geom R -> bool.

Lemma same_meta_refl (r : Raster R) : same_meta r r.
Proof. by repeat split. Qed.

Lemma same_meta_trans (r1 r2 r3 : Raster R) :
  same_meta r1 r2 -> same_meta r2 r3 -> same_meta r1 r3.
Proof. unfold same_meta. intuition congruence. Qed.

Variable ExportToWkt : R * R -> R * R.

Lemma tile_sample_meta (r r' : Raster R) bo t g :
  same_meta r r' -> tile_sample ExportToWkt r' bo t g = tile_sample ExportToWkt r bo t g.
Proof.
  intros (Hs & Ht & _ & Hd & _). unfold tile_sample, nbands. by rewrite Hs, Ht, Hd.
Qed.

Lemma read_array_spec (b : block) (r : Raster R) :
  let r1 := fst (read_array (Some b) r) in
  same_meta r r1 /\ reads r1 = reads r ++ [b] /\
  match snd (read_array (Some b) r) with
  | Ok _ => exists a, read_block (datasource r) (nbands r) b = Ok a /\ array r1 = Some a
  | Raise _ => True
  end.
Proof.
  unfold read_array. destruct (read_block _ _ _) as [a|e]; cbn.
  - repeat split. by exists a.
  - by repeat split.
Qed.

Lemma elem_of_samp_ids (parts : list (part R)) (t : Tile R) (i : nat) (p : part R) :
  (i, p) ∈ samp_ids Intersects parts t <-> parts !! i = Some p /\ meets Intersects t (snd p) = true.
Proof.
  unfold samp_ids. rewrite list_elem_of_filter, elem_of_enumerate. cbn.
  unfold meets. rewrite Is_true_true. split; by intros [? ?].
Qed.

Lemma NoDup_samp_ids (parts : list (part R)) (t : Tile R) :
  NoDup (samp_ids Intersects parts t).*1.
Proof.
  apply NoDup_fst_filter. unfold enumerate. rewrite fst_enumerate_from. apply NoDup_seq.
Qed.

Lemma samp_ids_nil (parts : list (part R)) (t : Tile R) :
  samp_ids Intersects parts t = [] <-> touched Intersects parts t = false.
Proof.
  split.
  - intros Hnil. unfold touched. apply not_true_is_false. intros Hex.
    apply existsb_exists in Hex as (p & Hp & Hm).
    apply list_elem_of_In, list_elem_of_lookup in Hp as [i Hi].
    assert (Hin : (i, p) ∈ samp_ids Intersects parts t) by by apply elem_of_samp_ids.
    rewrite Hnil in Hin. by apply elem_of_nil in Hin.
  - intros Ht. destruct (samp_ids Intersects parts t) as [|[i p] l] eqn:E; [done|].
    assert (Hin : (i, p) ∈ samp_ids Intersects parts t) by (rewrite E; left).
    apply elem_of_samp_ids in Hin as [Hi Hm].
    unfold touched in Ht.
    assert (existsb (fun p : part R => meets Intersects t (snd p)) parts = true); [|congruence].
    apply existsb_exists. exists p. split; [|done].
    apply list_elem_of_In. by eapply list_elem_of_lookup_2.
Qed.

(** The slots after the stores of one tile. *)
Lemma lookup_fold_store (l : list (nat * part R * list R)) (out : list (Slot R)) (i : nat) :
  (forall e, e ∈ l -> fst (fst e) <> i) ->
  fold_left store l out !! i = out !! i.
Proof.
  revert out. induction l as [|e l IH]; intros out Hl; [done|]. cbn [fold_left].
  rewrite IH by (intros e' He'; apply Hl; by right).
  unfold store. apply list_lookup_insert_ne. apply Hl. by left.
Qed.

Lemma length_fold_store (l : list (nat * part R * list R)) (out : list (Slot R)) :
  length (fold_left store l out) = length out.
Proof.
  revert out. induction l as [|e l IH]; intros out; [done|]. cbn [fold_left].
  rewrite IH. unfold store. apply length_insert.
Qed.

Lemma lookup_fold_store_in (l : list (nat * part R * list R)) (out : list (Slot R))
    (i : nat) (p : part R) (v : list R) :
  NoDup (l.*1).*1 -> (i, p, v) ∈ l -> (i < length out)%nat ->
  fold_left store l out !! i = Some (Sampled (fst p) v).
Proof.
  revert out. induction l as [|e l IH]; intros out Hnd Hin Hi.
  { by apply elem_of_nil in Hin. }
  rewrite !fmap_cons, NoDup_cons in Hnd. destruct Hnd as [Hfresh Hnd].
  cbn [fold_left]. apply elem_of_cons in Hin as [<-|Hin].
  - rewrite lookup_fold_store.
    + unfold store. cbn. by apply list_lookup_insert_eq.
    + intros e He Heq. apply Hfresh. cbn. rewrite <- Heq.
      apply list_elem_of_fmap. exists (fst e). split; [done|].
      apply list_elem_of_fmap. by exists e.
  - apply IH; [done | done |]. unfold store. by rewrite length_insert.
Qed.

Lemma sample_tile_spec (parts : list (part R)) (bo : list Z) (t : Tile R)
    (r : Raster R) (out : list (Slot R)) :
  let res := sample_tile Intersects ExportToWkt parts bo t (r, out) in
  let r' := fst (fst res) in
  let out' := snd (fst res) in
  same_meta r r' /\
  reads r' = reads r ++ (if touched Intersects parts t then [block_coords t] else []) /\
  length out' = length out /\
  match snd res with
  | Ok _ =>
      length out = length parts ->
      forall (i : nat) (p : part R), parts !! i = Some p ->
        if meets Intersects t (snd p)
        then exists v, out' !! i = Some (Sampled (fst p) v) /\
                       tile_sample ExportToWkt r bo t (snd p) = Ok v
        else out' !! i = out !! i
  | Raise _ => out' = out
  end.
Proof.
  cbv zeta. unfold sample_tile.
  destruct (samp_ids Intersects parts t) as [|id0 ids0] eqn:Eids.
  - assert (Ht : touched Intersects parts t = false) by by apply samp_ids_nil.
    rewrite Ht, app_nil_r. cbn.
    split; [apply same_meta_refl|]. do 2 (split; [done|]).
    intros _ i p Hp. destruct (meets Intersects t (snd p)) eqn:Hm; [|done].
    assert (Hin : (i, p) ∈ samp_ids Intersects parts t) by by apply elem_of_samp_ids.
    rewrite Eids in Hin. by apply elem_of_nil in Hin.
  - assert (Ht : touched Intersects parts t = true).
    { apply not_false_is_true. intros Hf. apply samp_ids_nil in Hf. congruence. }
    rewrite Ht. cbv beta iota. rewrite <- Eids. clear id0 ids0 Eids.
    destruct (read_array_spec (block_coords t) r) as (Hmeta & Hreads & Harr).
    destruct (read_array (Some (block_coords t)) r) as [r1 [[]|e]]; cbn in *;
      [|by repeat (split; [assumption || done|])].
    destruct Harr as (a & Hblock & Ha).
    destruct (map_result _ (samp_ids Intersects parts t)) as [coords|e] eqn:Ecoords;
      cbn; [|by repeat (split; [assumption || done|])].
    destruct (get_locations coords _ _) as [locs|e] eqn:Elocs; cbn; [|by repeat (split; [assumption || done|])].
    destruct (map_result (sample _ _ _) locs) as [vals|e] eqn:Evals;
      cbn; [|by repeat (split; [assumption || done|])].
    apply map_result_Forall2 in Ecoords, Elocs, Evals.
    split; [done|]. split; [done|]. split; [apply length_fold_store|].
    intros Hlen i p Hp.
    destruct (meets Intersects t (snd p)) eqn:Hm.
    + assert (Hin : (i, p) ∈ samp_ids Intersects parts t) by by apply elem_of_samp_ids.
      apply list_elem_of_lookup in Hin as [k Hk].
      destruct (Forall2_lookup_l _ _ _ _ _ Ecoords Hk) as (c & Hc & Hpc).
      destruct (Forall2_lookup_l _ _ _ _ _ Elocs Hc) as (l & Hl & Hcl).
      destruct (Forall2_lookup_l _ _ _ _ _ Evals Hl) as (v & Hv & Hlv).
      exists v. split.
      * apply lookup_fold_store_in.
        -- rewrite fst_zip; [apply NoDup_samp_ids|].
           apply Forall2_length in Ecoords, Elocs, Evals. lia.
        -- apply (list_elem_of_lookup_2 _ k). apply lookup_zip_with_Some. by exists (i, p), v.
        -- rewrite Hlen. by eapply lookup_lt_Some.
      * unfold tile_sample. rewrite Hblock. cbn in Hpc |- *. rewrite Hpc. cbn.
        destruct Hmeta as (Hs & Htr & _). unfold nbands in *.
        rewrite Htr, Hs, Ha in *. rewrite Hcl. cbn. exact Hlv.
    + apply lookup_fold_store. intros [[j q] v] He Hj. cbn in Hj.
      apply elem_of_zip_l in He. apply elem_of_samp_ids in He as [Hq Hmq].
      subst j. pose proof (eq_trans (eq_sym Hp) Hq) as E. injection E as ->. congruence.
Qed.

End Sampling.

Section Loop.
Context {R : Type} `{PyNum R}.
Variable Intersects : list (R * R) -> Geom R -> bool.
Variable ExportToWkt : R * R -> R * R.

(** The last tile of a list that meets a geometry, if any does. *)
Lemma last_meeting (tiles : list (Tile R)) (g : Geom R) :
  (forall t, t ∈ tiles -> meets Intersects t g = false) \/
  exists l1 t l2,
    tiles = l1 ++ t :: l2 /\ meets Intersects t g = true /\
    forall t', t' ∈ l2 -> meets Intersects t' g = false.
Proof.
  induction tiles as [|t0 tiles IH].
  - left. intros t Ht. by apply elem_of_nil in Ht.
  - destruct IH as [Hnone|(l1 & t & l2 & -> & Ht & Hl2)].
    + destruct (meets Intersects t0 g) eqn:H0.
      * right. by exists [], t0, tiles.
      * left. intros t [->|Ht]%elem_of_cons; auto.
    + right. by exists (t0 :: l1), t, l2.
Qed.

Lemma sample_loop_spec (parts : list (part R)) (bo : list Z) (tiles : list (Tile R))
    (r : Raster R) (out : list (Slot R)) :
  let res := for_each (sample_tile Intersects ExportToWkt parts bo) tiles (r, out) in
  let r' := fst (fst res) in
  let out' := snd (fst res) in
  same_meta r r' /\
  length out' = length out /\
  (exists seen rest,
     tiles = seen ++ rest /\
     reads r' = reads r ++ (block_coords <$> filter (touched Intersects parts) seen) /\
     (snd res = Ok tt -> rest = [])) /\
  (snd res = Ok tt -> length out = length parts ->
   forall (i : nat) (p : part R), parts !! i = Some p ->
     ((forall t, t ∈ tiles -> meets Intersects t (snd p) = false) ->
      out' !! i = out !! i) /\
     (forall l1 t l2,
        tiles = l1 ++ t :: l2 -> meets Intersects t (snd p) = true ->
        (forall t', t' ∈ l2 -> meets Intersects t' (snd p) = false) ->
        exists v, out' !! i = Some (Sampled (fst p) v) /\
                  tile_sample ExportToWkt r bo t (snd p) = Ok v)).
Proof.
  revert r out. induction tiles as [|t0 tiles IH]; intros r out; cbv zeta.
  - cbn. split; [apply same_meta_refl|]. split; [done|]. split.
    + exists [], []. cbn. rewrite app_nil_r. by repeat split.
    + intros _ _ i p Hp. split; [done|]. intros [|??] ???; discriminate.
  - cbn [for_each].
    pose proof (sample_tile_spec Intersects ExportToWkt parts bo t0 r out) as Hstep.
    cbv zeta in Hstep.
    destruct (sample_tile Intersects ExportToWkt parts bo t0 (r, out)) as [[r1 out1] [[]|e]];
      cbn [fst snd] in Hstep; destruct Hstep as (Hmeta & Hreads & Hlen & Hslots).
    + specialize (IH r1 out1). cbv zeta in IH.
      destruct (for_each (sample_tile Intersects ExportToWkt parts bo) tiles (r1, out1))
        as [[r2 out2] res]; cbn [fst snd] in *.
      destruct IH as (Hmeta2 & Hlen2 & (seen & rest & Htiles & Hreads2 & Hrest) & Hslots2).
      split; [by eapply same_meta_trans|]. split; [congruence|]. split.
      * exists (t0 :: seen), rest. split; [by rewrite Htiles|]. split; [|done].
        rewrite Hreads2, Hreads, filter_cons.
        destruct (touched Intersects parts t0); cbn.
        -- destruct (decide _) as [|Hn]; [|by destruct Hn].
           by rewrite <- app_assoc.
        -- destruct (decide _) as [Hn|]; [by destruct Hn|].
           by rewrite app_nil_r.
      * intros Hres Hout i p Hp.
        specialize (Hslots Hout i p Hp).
        destruct (Hslots2 Hres ltac:(congruence) i p Hp) as [Hnone Hlast].
        split.
        -- intros Hall. rewrite Hnone by (intros t Ht; apply Hall; by right).
           rewrite (Hall t0) in Hslots by left. done.
        -- intros [|t1 l1] t l2 Heq Ht Hl2; cbn in Heq; injection Heq as <- ->.
           ++ rewrite Ht in Hslots. destruct Hslots as (v & Hv & Hsample).
              exists v. split; [|done]. by rewrite Hnone.
           ++ destruct (Hlast l1 t l2 eq_refl Ht Hl2) as (v & Hv & Hsample).
              exists v. split; [done|]. by rewrite <- (tile_sample_meta ExportToWkt r r1).
    + subst out1. cbn [fst snd]. split; [done|]. split; [done|]. split; [|discriminate].
      exists [t0], tiles. split; [done|]. split; [|discriminate].
      rewrite Hreads, filter_cons, filter_nil.
      destruct (touched Intersects parts t0); cbn.
      * by destruct (decide _) as [|Hn]; [|destruct Hn].
      * by destruct (decide _) as [Hn|]; [destruct Hn|].
Qed.

End Loop.

Lemma for_each_preserves {S A : Type} (P : S -> S -> Prop)
    (body : A -> S -> S * result unit) :
  (forall s, P s s) -> (forall s1 s2 s3, P s1 s2 -> P s2 s3 -> P s1 s3) ->
  (forall x s, P s (fst (body x s))) ->
  forall xs s, P s (fst (for_each body xs s)).
Proof.
  intros Hrefl Htrans Hbody xs. induction xs as [|x xs IH]; intros s; cbn; [done|].
  specialize (Hbody x s). destruct (body x s) as [s1 [u|e]]; cbn in *; [|done].
  by eapply Htrans.
Qed.

Lemma length_filter_orb {A : Type} (f g : A -> bool) (l : list A) :
  (length (filter (fun x => f x || g x) l)
   <= length (filter f l) + length (filter g l))%nat.
Proof.
  induction l as [|x l IH]; [done|]. rewrite !filter_cons.
  destruct (f x), (g x); cbn; repeat case_decide; cbn; try done; lia.
Qed.

Section Extract.
Context {R : Type} `{PyNum R}.
Variable Intersects : list (R * R) -> Geom R -> bool.

Lemma same_source_refl (r : Raster R) : same_source r r.
Proof. by repeat split. Qed.

Lemma same_source_trans (r1 r2 r3 : Raster R) :
  same_source r1 r2 -> same_source r2 r3 -> same_source r1 r3.
Proof. unfold same_source. intuition congruence. Qed.

Lemma grid_row_source (xmin xmax ymin ymax tw th y : Z) (r : Raster R) :
  same_source r (fst (grid_row xmin xmax ymin ymax tw th y r)).
Proof.
  unfold grid_row. destruct (xrange xmin xmax tw) as [xs|e]; [|apply same_source_refl].
  apply (for_each_preserves same_source);
    [apply same_source_refl | apply same_source_trans | by intros]; done.
Qed.

Lemma make_tile_grid_source (tw th : Z) (b : bounds_arg R) (r : Raster R) :
  same_source r (fst (make_tile_grid tw th b r)).
Proof.
  unfold make_tile_grid.
  destruct (get_pixel_bounds r b) as [[[[xmin xmax] ymin] ymax]|e];
    [|apply same_source_refl].
  destruct (xrange ymin ymax th) as [ys|e]; [|apply same_source_refl].
  pose proof (for_each_preserves same_source (grid_row xmin xmax ymin ymax tw th)
                same_source_refl same_source_trans
                (fun y s => grid_row_source xmin xmax ymin ymax tw th y s) ys r) as Hloop.
  destruct (for_each _ ys r) as [r1 [u|e]]; cbn in *; done.
Qed.

Lemma touched_count (parts : list (part R)) (tiles : list (Tile R)) :
  (forall p : part R, p ∈ parts ->
     (length (filter (fun t => meets Intersects t (snd p)) tiles) <= 1)%nat) ->
  (length (filter (touched Intersects parts) tiles) <= length parts)%nat.
Proof.
  induction parts as [|p parts IH]; intros Hone.
  - assert (filter (touched Intersects []) tiles = []) as ->; [|done].
    clear Hone. induction tiles as [|t tiles IHt]; [done|].
    rewrite filter_cons. destruct (decide _) as [Hn|]; [by destruct Hn|done].
  - pose proof (length_filter_orb (fun t => meets Intersects t (snd p))
                  (touched Intersects parts) tiles) as Hor.
    specialize (Hone p ltac:(left)) as Hp.
    specialize (IH (fun q Hq => Hone q ltac:(by right))).
    change (filter (touched Intersects (p :: parts)) tiles)
      with (filter (fun t => meets Intersects t (snd p) || touched Intersects parts t) tiles).
    cbn [length]. lia.
Qed.

Variable ExportToWkt : R * R -> R * R.

Lemma tile_sample_source (r r' : Raster R) bo t g :
  same_source r r' -> tile_sample ExportToWkt r' bo t g = tile_sample ExportToWkt r bo t g.
Proof.
  intros (Hs & Ht & Hd & _). unfold tile_sample, nbands. by rewrite Hs, Ht, Hd.
Qed.

(** What a run of [extract_geom] does, in one statement. *)
Lemma extract_geom_spec (parts : list (part R)) (band_order : option (list Z))
    (tile_size : option (Z * Z)) (r : Raster R) :
  let res := extract_geom Intersects ExportToWkt parts band_order tile_size r in
  let r' := fst res in
  let bo := band_order_of r band_order in
  (shape r' = shape r /\ transform r' = transform r /\ datasource r' = datasource r) /\
  (exists seen rest,
     tile_grid r' = seen ++ rest /\
     reads r' = reads r ++ (block_coords <$> filter (touched Intersects parts) seen)) /\
  (forall out, snd res = Ok out ->
     length out = length parts /\
     forall (i : nat) (p : part R), parts !! i = Some p ->
       ((forall t, t ∈ tile_grid r' -> meets Intersects t (snd p) = false) ->
        out !! i = Some Unsampled) /\
       (forall l1 t l2,
          tile_grid r' = l1 ++ t :: l2 -> meets Intersects t (snd p) = true ->
          (forall t', t' ∈ l2 -> meets Intersects t' (snd p) = false) ->
          exists v, out !! i = Some (Sampled (fst p) v) /\
                    tile_sample ExportToWkt r bo t (snd p) = Ok v)).
Proof.
  cbv zeta. unfold extract_geom.
  set (ts := match tile_size with Some t => t | None => (nrows r, ncols r) end).
  fold (band_order_of r band_order).
  set (r0 := match array r with None => initialize r | Some _ => r end).
  assert (Hinit : same_source r r0) by (subst r0; destruct (array r); by repeat split).
  pose proof (make_tile_grid_source (fst ts) (snd ts) NoBounds r0) as Hgrid0.
  destruct (make_tile_grid (fst ts) (snd ts) NoBounds r0) as [r1 [u|e]]; cbn [fst snd] in *.
  - pose proof (same_source_trans _ _ _ Hinit Hgrid0) as (Hs1 & Ht1 & Hd1 & Hr1).
    pose proof (sample_loop_spec Intersects ExportToWkt parts (band_order_of r band_order)
                  (tile_grid r1) r1 (map (fun _ => Unsampled) parts)) as Hloop.
    cbv zeta in Hloop.
    destruct (for_each _ (tile_grid r1) _) as [[r2 out2] [[]|e]]; cbn [fst snd] in *;
      destruct Hloop as (Hmeta & Hlen & (seen & rest & Hgrid & Hreads & Hrest) & Hslots);
      destruct Hmeta as (Hs2 & Ht2 & _ & Hd2 & Hg2 & _).
    + split; [repeat split; congruence|]. split.
      { exists seen, rest. by rewrite Hg2, Hreads, Hr1. }
      intros out [= <-]. rewrite length_map in Hlen. split; [done|].
      intros i p Hp. rewrite Hg2.
      destruct (Hslots eq_refl ltac:(by rewrite length_map) i p Hp) as [Hnone Hlast].
      split.
      * intros Hall. rewrite Hnone by done.
        apply list_lookup_fmap_Some. exists p. split; [done | exact Hp].
      * intros l1 t l2 Hl Ht Hl2. destruct (Hlast l1 t l2 Hl Ht Hl2) as (v & Hv & Hsample).
        exists v. split; [done|].
        rewrite <- Hsample. symmetry. apply tile_sample_source. by repeat split.
    + split; [repeat split; congruence|]. split; [|discriminate].
      exists seen, rest. by rewrite Hg2, Hreads, Hr1.
  - pose proof (same_source_trans _ _ _ Hinit Hgrid0) as (Hs1 & Ht1 & Hd1 & Hr1).
    split; [done|]. split; [|discriminate].
    exists [], (tile_grid r1). cbn. by rewrite app_nil_r.
Qed.

(** C10.  When [extract_geom] returns, its result has one slot for each
    parsed part, at the part's position: the slot is the empty list or the
    part's identifier with its values, and it is the empty list when no
    tile of the grid meets the part's geometry. *)
Theorem extract_geom_slot_per_part (parts : list (part R))
    (band_order : option (list Z)) (tile_size : option (Z * Z))
    (r r' : Raster R) (out : list (Slot R)) :
  extract_geom Intersects ExportToWkt parts band_order tile_size r = (r', Ok out) ->
  length out = length parts /\
  forall (i : nat) (p : part R), parts !! i = Some p ->
    (out !! i = Some Unsampled \/ exists v, out !! i = Some (Sampled (fst p) v)) /\
    ((forall t, t ∈ tile_grid r' -> meets Intersects t (snd p) = false) ->
     out !! i = Some Unsampled).
Proof.
  intros Hrun.
  destruct (extract_geom_spec parts band_order tile_size r) as (_ & _ & Hout).
  rewrite Hrun in Hout. cbn [fst snd] in Hout.
  destruct (Hout out eq_refl) as [Hlen Hslots]. split; [done|].
  intros i p Hp. destruct (Hslots i p Hp) as [Hnone Hlast]. split; [|done].
  destruct (last_meeting Intersects (tile_grid r') (snd p))
    as [Hall|(l1 & t & l2 & Hl & Ht & Hl2)].
  - left. by apply Hnone.
  - right. destruct (Hlast l1 t l2 Hl Ht Hl2) as (v & Hv & _). by exists v.
Qed.

(** C1, amended.  When [extract_geom] returns, the slot of a part holds
    the part's identifier and the values sampled from the last tile of the
    grid, in grid order, that meets the part's geometry; the tiles before
    it that meet the geometry as well do not decide the result. *)
Theorem extract_geom_last_tile_wins (parts : list (part R))
    (band_order : option (list Z)) (tile_size : option (Z * Z))
    (r r' : Raster R) (out : list (Slot R)) :
  extract_geom Intersects ExportToWkt parts band_order tile_size r = (r', Ok out) ->
  forall (i : nat) (p : part R) l1 t l2,
    parts !! i = Some p ->
    tile_grid r' = l1 ++ t :: l2 ->
    meets Intersects t (snd p) = true ->
    (forall t', t' ∈ l2 -> meets Intersects t' (snd p) = false) ->
    exists v,
      out !! i = Some (Sampled (fst p) v) /\
      tile_sample ExportToWkt r (band_order_of r band_order) t (snd p) = Ok v.
Proof.
  intros Hrun i p l1 t l2 Hp Hl Ht Hl2.
  destruct (extract_geom_spec parts band_order tile_size r) as (_ & _ & Hout).
  rewrite Hrun in Hout. cbn [fst snd] in Hout.
  destruct (Hout out eq_refl) as [_ Hslots].
  destruct (Hslots i p Hp) as [_ Hlast]. by apply (Hlast l1 t l2).
Qed.

(** C4, amended.  The reads of a run of [extract_geom] are the blocks of
    a subsequence of the raster's grid, each entry read at most once and
    only if some part meets it; when every part meets at most one entry of
    the grid, there are at most as many reads as parts. *)
Theorem extract_geom_reads (parts : list (part R))
    (band_order : option (list Z)) (tile_size : option (Z * Z)) (r : Raster R) :
  let r' := fst (extract_geom Intersects ExportToWkt parts band_order tile_size r) in
  exists read_tiles,
    reads r' = reads r ++ (block_coords <$> read_tiles) /\
    read_tiles `sublist_of` tile_grid r' /\
    (forall t, t ∈ read_tiles -> touched Intersects parts t = true) /\
    ((forall p : part R, p ∈ parts ->
        (length (filter (fun t => meets Intersects t (snd p)) (tile_grid r')) <= 1)%nat) ->
     (length read_tiles <= length parts)%nat).
Proof.
  cbv zeta.
  destruct (extract_geom_spec parts band_order tile_size r)
    as (_ & (seen & rest & Hgrid & Hreads) & _).
  exists (filter (touched Intersects parts) seen).
  split; [done|]. split; [|split].
  - rewrite Hgrid. apply sublist_inserts_r, sublist_filter.
  - intros t [Ht _]%list_elem_of_filter. by apply Is_true_true.
  - intros Hone. apply touched_count in Hone.
    rewrite Hgrid, filter_app, length_app in Hone. lia.
Qed.

End Extract.

(** ** The default tile size of [extract_geom] *)

Lemma offsets_single (n : Z) : 0 < n -> offsets 0 n n = [0].
Proof.
  intros Hn. unfold offsets, steps.
  replace ((n - 0 + n - 1) / n) with 1
    by (apply (Z.div_unique _ _ 1 (n - 1)); lia).
  reflexivity.
Qed.

Section DefaultGrid.
Context {R : Type} `{PyNum R}.
Variable Intersects : list (R * R) -> Geom R -> bool.
Variable ExportToWkt : R * R -> R * R.

(** The grid a run of [extract_geom] leaves is the one [make_tile_grid]
    built at its start; the loop over the tiles does not touch it. *)
Lemma extract_geom_grid (parts : list (part R)) (band_order : option (list Z))
    (tile_size : option (Z * Z)) (r : Raster R) :
  let ts := match tile_size with Some t => t | None => (nrows r, ncols r) end in
  let r0 := match array r with None => initialize r | Some _ => r end in
  tile_grid (fst (extract_geom Intersects ExportToWkt parts band_order tile_size r))
  = tile_grid (fst (make_tile_grid (fst ts) (snd ts) NoBounds r0)).
Proof.
  cbv zeta. unfold extract_geom.
  destruct (make_tile_grid _ _ NoBounds _) as [r1 [u|e]]; cbn [fst snd]; [|done].
  pose proof (sample_loop_spec Intersects ExportToWkt parts
                (match band_order with Some b => b | None => range 0 (nbands r) end)
                (tile_grid r1) r1 (map (fun _ => Unsampled) parts)) as Hloop.
  cbv zeta in Hloop.
  destruct (for_each _ (tile_grid r1) _) as [[r2 out2] [[]|e]]; cbn [fst snd] in *;
    by destruct Hloop as ((_ & _ & _ & _ & Hg & _) & _).
Qed.

(** On a square raster with an empty grid the default tile size does give
    the single tile of the whole raster. *)
Lemma extract_geom_default_grid_square (parts : list (part R))
    (band_order : option (list Z)) (r : Raster R) (n : Z) :
  0 < n -> nrows r = n -> ncols r = n -> tile_grid r = [] ->
  block_coords <$> tile_grid (fst (extract_geom Intersects ExportToWkt parts band_order None r))
  = [(0, 0, n, n)].
Proof.
  intros Hn Hrows Hcols Hgrid. rewrite extract_geom_grid. cbn [fst snd].
  rewrite Hrows, Hcols.
  set (r0 := match array r with None => initialize r | Some _ => r end).
  assert (Hr0 : tile_grid r0 = [] /\ nrows r0 = n /\ ncols r0 = n)
    by (subst r0; destruct (array r); done).
  destruct Hr0 as (Hg0 & Hrows0 & Hcols0).
  rewrite (make_tile_grid_cells r0 NoBounds 0 n 0 n n n)
    by (try done; cbn; by rewrite Hrows0, Hcols0).
  cbn [fst with_grid tile_grid]. rewrite Hg0. unfold grid_cells.
  rewrite offsets_single by done. cbn.
  destruct (Z.ltb_spec (0 + n) n); [lia|]. by rewrite Z.sub_0_r.
Qed.

End DefaultGrid.

(** ** [extract_geom] on the 8 x 8 raster *)

(** C1, as stated, fails.  The point [(4, 6.5)] lies on the edge shared by
    the tiles [(0, 0, 4, 4)] and [(4, 0, 4, 4)] and meets both.  The first
    of them locates it at column 4 of its four columns, so the call raises
    [IndexError] after one read and resolves nothing.  And where a later
    entry of the grid meets a point already sampled (here the grid left by
    an earlier call, which the second call extends), that entry is read and
    sampled again. *)
Lemma extract_geom_boundary_point :
  let edge : part Q := ("1_1"%string, Point 4 (13 # 2))%Q in
  let run := extract_geom rect_intersects Examples.text15 [edge] None (Some (4, 4))
      Examples.raster8 in
  let inner : part Q := ("1_1"%string, Point (5 # 2) (11 # 2))%Q in
  let first := extract_geom rect_intersects Examples.text15 [inner] None (Some (4, 4))
      Examples.raster8 in
  let second := extract_geom rect_intersects Examples.text15 [inner] None (Some (4, 4))
      (fst first) in
  (block_coords <$>
     filter (fun t => meets rect_intersects t (snd edge)) (tile_grid (fst run))
   = [(0, 0, 4, 4); (4, 0, 4, 4)] /\
   snd run = Raise IndexError /\ reads (fst run) = [(0, 0, 4, 4)]) /\
  (block_coords <$>
     filter (fun t => meets rect_intersects t (snd inner)) (tile_grid (fst second))
   = [(0, 0, 4, 4); (0, 0, 4, 4)] /\
   reads (fst first) = [(0, 0, 4, 4)] /\
   reads (fst second) = [(0, 0, 4, 4); (0, 0, 4, 4); (0, 0, 4, 4)]).
Proof. vm_compute. repeat split. Qed.

(** The second of two calls with the default tile size: the grid holds the
    whole raster twice, and the slot holds what the second entry gave. *)
Lemma extract_geom_last_tile_wins_witness :
  let inner : part Q := ("1_1"%string, Point (5 # 2) (11 # 2))%Q in
  let whole := make_tile Examples.north_up 0 8 0 8 8 8 0 0 in
  let first := extract_geom rect_intersects Examples.text15 [inner] None None Examples.raster8 in
  let second := extract_geom rect_intersects Examples.text15 [inner] None None (fst first) in
  (second = (fst second, Ok [Sampled "1_1" [inject_Z 122]]) /\
   [inner] !! 0%nat = Some inner /\
   tile_grid (fst second) = [whole] ++ whole :: [] /\
   meets rect_intersects whole (snd inner) = true) /\
  exists v,
    [Sampled "1_1" [inject_Z 122]] !! 0%nat = Some (Sampled (fst inner) v) /\
    tile_sample Examples.text15 (fst first) (band_order_of (fst first) None)
        whole (snd inner) = Ok v.
Proof.
  cbv zeta.
  assert (Hrun :
    extract_geom rect_intersects Examples.text15 [("1_1"%string, Point (5 # 2) (11 # 2))%Q]
        None None
      (fst (extract_geom rect_intersects Examples.text15 [("1_1"%string, Point (5 # 2) (11 # 2))%Q]
              None None Examples.raster8))
    = (fst (extract_geom rect_intersects Examples.text15 [("1_1"%string, Point (5 # 2) (11 # 2))%Q]
              None None
              (fst (extract_geom rect_intersects Examples.text15
                      [("1_1"%string, Point (5 # 2) (11 # 2))%Q]
                      None None Examples.raster8))),
       Ok [Sampled "1_1" [inject_Z 122]])) by (vm_compute; reflexivity).
  split; [split; [exact Hrun | split; [reflexivity | split; vm_compute; reflexivity]]|].
  apply (extract_geom_last_tile_wins rect_intersects Examples.text15 _ _ _ _ _ _ Hrun 0%nat
           ("1_1"%string, Point (5 # 2) (11 # 2))%Q
           [make_tile Examples.north_up 0 8 0 8 8 8 0 0]
           (make_tile Examples.north_up 0 8 0 8 8 8 0 0) []).
  - reflexivity.
  - vm_compute. reflexivity.
  - vm_compute. reflexivity.
  - intros t' Ht'. apply elem_of_nil in Ht'. destruct Ht'.
Defined.

(** C4, as stated, fails.  On a raster sampled before with the default tile
    size, the grid holds the whole raster twice: one point, two reads of
    the same block in the second call. *)
Lemma extract_geom_reads_tile_twice :
  let inner : part Q := ("1_1"%string, Point (5 # 2) (11 # 2))%Q in
  let first := extract_geom rect_intersects Examples.text15 [inner] None None Examples.raster8 in
  let second := extract_geom rect_intersects Examples.text15 [inner] None None (fst first) in
  reads (fst first) = [(0, 0, 8, 8)] /\
  reads (fst second) = reads (fst first) ++ [(0, 0, 8, 8); (0, 0, 8, 8)] /\
  snd second = Ok [Sampled "1_1" [inject_Z 122]] /\
  ~ (length (reads (fst second)) - length (reads (fst first)) <= length [inner])%nat.
Proof. vm_compute. repeat split. lia. Qed.

(** Three points, two of them in one tile of the 4 x 4 grid, none on an
    edge: two reads. *)
Lemma extract_geom_reads_witness :
  let parts : list (part Q) :=
    [("1_1"%string, Point (5 # 2) (11 # 2)); ("2_1"%string, Point (1 # 2) (15 # 2));
     ("3_1"%string, Point (13 # 2) (1 # 2))]%Q in
  let r' := fst (extract_geom rect_intersects Examples.text15 parts None (Some (4, 4))
      Examples.raster8) in
  (forall p : part Q, p ∈ parts ->
     (length (filter (fun t => meets rect_intersects t (snd p)) (tile_grid r')) <= 1)%nat) /\
  exists read_tiles : list (Tile Q),
    reads r' = reads Examples.raster8 ++ (block_coords <$> read_tiles) /\
    (length read_tiles <= 3)%nat.
Proof.
  cbv zeta.
  assert (Hone : forall p : part Q,
    p ∈ [("1_1"%string, Point (5 # 2) (11 # 2)); ("2_1"%string, Point (1 # 2) (15 # 2));
         ("3_1"%string, Point (13 # 2) (1 # 2))]%Q ->
    (length (filter (fun t => meets rect_intersects t (snd p))
               (tile_grid (fst (extract_geom rect_intersects Examples.text15
                  [("1_1"%string, Point (5 # 2) (11 # 2));
                   ("2_1"%string, Point (1 # 2) (15 # 2));
                   ("3_1"%string, Point (13 # 2) (1 # 2))]%Q
                  None (Some (4%Z, 4%Z)) Examples.raster8)))) <= 1)%nat).
  { intros p Hp. repeat (apply elem_of_cons in Hp as [->|Hp]);
      [vm_compute; lia .. | by apply elem_of_nil in Hp]. }
  split; [exact Hone|].
  destruct (extract_geom_reads rect_intersects Examples.text15
              [("1_1"%string, Point (5 # 2) (11 # 2));
               ("2_1"%string, Point (1 # 2) (15 # 2));
               ("3_1"%string, Point (13 # 2) (1 # 2))]%Q
              None (Some (4, 4)) Examples.raster8)
    as (read_tiles & Hreads & _ & _ & Hbound).
  exists read_tiles. split; [exact Hreads | exact (Hbound Hone)].
Defined.

(** Two parts, the second outside the raster: its slot stays empty. *)
Lemma extract_geom_slot_per_part_witness :
  let parts : list (part Q) :=
    [("1_1"%string, Point (5 # 2) (11 # 2)); ("2_1"%string, Point 20 20)]%Q in
  let run := extract_geom rect_intersects Examples.text15 parts None (Some (4, 4))
      Examples.raster8 in
  run = (fst run, Ok [Sampled "1_1" [inject_Z 122]; Unsampled]) /\
  length [Sampled "1_1" [inject_Z 122]; Unsampled] = length parts.
Proof.
  cbv zeta.
  assert (Hrun :
    extract_geom rect_intersects Examples.text15
      [("1_1"%string, Point (5 # 2) (11 # 2)); ("2_1"%string, Point 20 20)]%Q
      None (Some (4, 4)) Examples.raster8
    = (fst (extract_geom rect_intersects Examples.text15
              [("1_1"%string, Point (5 # 2) (11 # 2)); ("2_1"%string, Point 20 20)]%Q
              None (Some (4, 4)) Examples.raster8),
       Ok [Sampled "1_1" [inject_Z 122]; Unsampled])) by (vm_compute; reflexivity).
  split; [exact Hrun|].
  exact (proj1 (extract_geom_slot_per_part rect_intersects Examples.text15 _ _ _ _ _ _ Hrun)).
Defined.

(** ** More on the affine transform *)

Module ExactAffine.
Import Exact.

(** The floor of a rational is the one integer at or below it and less
    than one away. *)
Lemma is_floor_unique (q : Z) (v : Q) : is_floor q v -> Qfloor v = q.
Proof.
  intros [Hle Hlt].
  pose proof (Qfloor_le v) as Hfl. pose proof (Qlt_floor v) as Hfu.
  assert (H1 : (inject_Z q < inject_Z (Qfloor v + 1))%Q) by (eapply Qle_lt_trans; eassumption).
  assert (H2 : (inject_Z (Qfloor v) < inject_Z (q + 1))%Q) by (eapply Qle_lt_trans; eassumption).
  rewrite <- Zlt_Qlt in H1, H2. lia.
Qed.

Lemma floor_of_center (n : Z) (s t : Q) :
  ~ (s == 0)%Q ->
  Qfloor (Qred (Qred (Qred (Qred (inject_Z n * s) + t) + Qred (s / 2)) - t) / s) = n.
Proof.
  intros Hs. apply is_floor_unique.
  assert (E : (Qred (Qred (Qred (Qred (inject_Z n * s) + t) + Qred (s / 2)) - t) / s
               == inject_Z n + (1 # 2))%Q).
  { rewrite !Qred_correct. field. exact Hs. }
  unfold is_floor. rewrite E, inject_Z_plus. split.
  - rewrite <- (Qplus_0_r (inject_Z n)) at 1. apply Qplus_le_r. discriminate.
  - apply Qplus_lt_r. reflexivity.
Qed.

#[local] Opaque Qfloor Qred Qdiv Qplus Qminus Qmult inject_Z.

(** In exact arithmetic [get_locations] undoes [get_coords] on a whole
    list of pixels, for the pixel corners and for the pixel centres. *)
Theorem get_locations_get_coords (xy_list : list (Z * Z)) (pw ph tx ty : Q)
    (pixel_center : bool) :
  ~ (pw == 0)%Q -> ~ (ph == 0)%Q ->
  get_locations (map Some (get_coords xy_list (pw, ph) (tx, ty) pixel_center))
                (pw, ph) (tx, ty)
  = Ok (map (fun xy : Z * Z => (Some (inject_Z (fst xy)), Some (inject_Z (snd xy))))
            xy_list).
Proof.
  intros Hw Hh. unfold get_locations, get_coords.
  induction xy_list as [|[px py] l IH]; [reflexivity|].
  cbn [map map_result]. rewrite IH. clear IH.
  destruct pixel_center; cbn.
  - rewrite !ExactFacts.qfloordiv_nonzero by assumption. cbn.
    rewrite !floor_of_center by assumption. reflexivity.
  - rewrite !ExactFacts.qfloordiv_nonzero by assumption. cbn.
    rewrite !ExactFacts.floor_of_scaled by assumption. reflexivity.
Qed.

Lemma get_locations_get_coords_witness :
  (~ (1 # 10 == 0)%Q /\ ~ (-(1 # 10) == 0)%Q) /\
  get_locations (map Some (get_coords [(1, 0); (-3, 7)] (1 # 10, -(1 # 10))%Q (7 # 10, 8)%Q true))
                (1 # 10, -(1 # 10))%Q (7 # 10, 8)%Q
  = Ok [(Some (inject_Z 1), Some (inject_Z 0)); (Some (inject_Z (-3)), Some (inject_Z 7))].
Proof.
  split; [split; discriminate|].
  apply (get_locations_get_coords [(1, 0); (-3, 7)] (1 # 10) (-(1 # 10)) (7 # 10) 8 true);
    discriminate.
Defined.

#[local] Transparent Qfloor Qred Qdiv Qplus Qminus Qmult inject_Z.

Lemma corner_coord (n : Z) (s t : Q) :
  (Qred (Qred (Qred (inject_Z n * s) + t) + inject_Z 0) == inject_Z n * s + t)%Q.
Proof. rewrite !Qred_correct. change (inject_Z 0) with 0%Q. ring. Qed.

(** The pixel between whose borders a value falls. *)
Lemma floor_brackets (v s t : Q) (q : Z) :
  ~ (s == 0)%Q -> q = Qfloor ((v - t) / s) ->
  ((0 < s)%Q -> (inject_Z q * s + t <= v)%Q /\ (v < inject_Z (q + 1) * s + t)%Q) /\
  ((s < 0)%Q -> (inject_Z (q + 1) * s + t < v)%Q /\ (v <= inject_Z q * s + t)%Q).
Proof.
  intros Hs ->.
  pose proof (Qfloor_le ((v - t) / s)) as Hl. pose proof (Qlt_floor ((v - t) / s)) as Hu.
  set (q := Qfloor ((v - t) / s)) in *.
  assert (Ev : (v == (v - t) / s * s + t)%Q) by (field; exact Hs).
  split; intros Hsign.
  - split.
    + rewrite Ev. apply Qplus_le_l. apply Qmult_le_compat_r; [exact Hl|].
      by apply Qlt_le_weak.
    + rewrite Ev. apply Qplus_lt_l. by apply Qmult_lt_compat_r.
  - assert (Hneg : (0 < - s)%Q).
    { apply (Qplus_lt_l _ _ s). ring_simplify. exact Hsign. }
    split.
    + rewrite Ev. apply Qplus_lt_l.
      apply Qopp_lt_compat in Hu.
      apply (Qmult_lt_compat_r _ _ (- s) Hneg) in Hu.
      ring_simplify in Hu. ring_simplify. exact Hu.
    + rewrite Ev. apply Qplus_le_l.
      apply Qopp_le_compat in Hl.
      apply (Qmult_le_compat_r _ _ (- s)) in Hl; [|by apply Qlt_le_weak].
      ring_simplify in Hl. ring_simplify. exact Hl.
Qed.

#[local] Opaque Qfloor Qred Qdiv Qplus Qminus Qmult inject_Z.

(** In exact arithmetic the pixel [get_locations] finds for a coordinate is
    the pixel that holds it: the coordinate lies between the corner of that
    pixel and the corner of the next one, the pixel's own corner included,
    whatever the signs of the pixel size. *)
Theorem located_pixel_contains (x y pw ph tx ty : Q) :
  ~ (pw == 0)%Q -> ~ (ph == 0)%Q ->
  exists (qx qy : Z) (cx cy cx' cy' : Q),
    get_locations [Some (x, y)] (pw, ph) (tx, ty)
    = Ok [(Some (inject_Z qx), Some (inject_Z qy))] /\
    get_coords [(qx, qy); (qx + 1, qy + 1)] (pw, ph) (tx, ty) false
    = [(cx, cy); (cx', cy')] /\
    ((0 < pw)%Q -> (cx <= x)%Q /\ (x < cx')%Q) /\
    ((pw < 0)%Q -> (cx' < x)%Q /\ (x <= cx)%Q) /\
    ((0 < ph)%Q -> (cy <= y)%Q /\ (y < cy')%Q) /\
    ((ph < 0)%Q -> (cy' < y)%Q /\ (y <= cy)%Q).
Proof.
  intros Hw Hh.
  exists (Qfloor ((x - tx) / pw)), (Qfloor ((y - ty) / ph)).
  do 4 eexists. split; [|split; [reflexivity|]].
  - unfold get_locations. cbn. rewrite !ExactFacts.qfloordiv_nonzero by assumption. cbn.
    rewrite !ExactFacts.Qfloor_Qred_div. reflexivity.
  - cbn [fst snd of_int add mul exact_num].
    rewrite !corner_coord.
    destruct (floor_brackets x pw tx _ Hw eq_refl) as [Hxp Hxn].
    destruct (floor_brackets y ph ty _ Hh eq_refl) as [Hyp Hyn].
    split; [exact Hxp|]. split; [exact Hxn|]. split; [exact Hyp | exact Hyn].
Qed.

Lemma located_pixel_contains_witness :
  (~ (1 # 10 == 0)%Q /\ ~ (-(1 # 10) == 0)%Q) /\
  exists (qx qy : Z) (cx cy cx' cy' : Q),
    get_locations [Some (4 # 5, 31 # 4)%Q] (1 # 10, -(1 # 10))%Q (7 # 10, 8)%Q
    = Ok [(Some (inject_Z qx), Some (inject_Z qy))] /\
    get_coords [(qx, qy); (qx + 1, qy + 1)] (1 # 10, -(1 # 10))%Q (7 # 10, 8)%Q false
    = [(cx, cy); (cx', cy')] /\
    ((0 < 1 # 10)%Q -> (cx <= 4 # 5)%Q /\ (4 # 5 < cx')%Q) /\
    ((1 # 10 < 0)%Q -> (cx' < 4 # 5)%Q /\ (4 # 5 <= cx)%Q) /\
    ((0 < -(1 # 10))%Q -> (cy <= 31 # 4)%Q /\ (31 # 4 < cy')%Q) /\
    ((-(1 # 10) < 0)%Q -> (cy' < 31 # 4)%Q /\ (31 # 4 <= cy)%Q).
Proof.
  split; [split; discriminate|].
  apply (located_pixel_contains (4 # 5) (31 # 4) (1 # 10) (-(1 # 10)) (7 # 10) 8);
    discriminate.
Defined.

End ExactAffine.

Module B64Zero.
Import B64.

(** On floats a pixel size with a zero, of either sign, in width or in
    height makes [get_locations] raise [ZeroDivisionError] as soon as the
    list holds a coordinate; a list of [None] alone is converted. *)
Theorem get_locations_zero_pixel_size (coords : list (option (spec_float * spec_float)))
    (pw ph tx ty : spec_float) :
  is_zero pw || is_zero ph = true ->
  get_locations coords (pw, ph) (tx, ty)
  = if all_none coords then Ok (map (fun _ => (None, None)) coords)
    else Raise ZeroDivisionError.
Proof.
  intros Hz. unfold get_locations.
  induction coords as [|[[x y]|] coords IH]; [reflexivity | |].
  - cbn [map_result all_none forallb andb locate fst snd floordiv float_num].
    unfold floor_div at 1. destruct (is_zero pw) eqn:Ew; [reflexivity|].
    cbn [rbind]. cbn in Hz. unfold floor_div. rewrite Hz. reflexivity.
  - cbn [map_result all_none forallb andb locate rbind map]. rewrite IH.
    fold (all_none coords). by destruct (all_none coords).
Qed.

Lemma get_locations_zero_pixel_size_witness :
  is_zero (of_Z 1) || is_zero (S754_zero true) = true /\
  get_locations [None; Some (of_Z 3, of_Z 4)] (of_Z 1, S754_zero true) (of_Z 0, of_Z 8)
  = Raise ZeroDivisionError.
Proof.
  split; [reflexivity|].
  apply (get_locations_zero_pixel_size [None; Some (of_Z 3, of_Z 4)]
           (of_Z 1) (S754_zero true) (of_Z 0) (of_Z 8)).
  reflexivity.
Defined.

End B64Zero.

Section Window.
Context {R : Type} `{PyNum R}.

(** A window [get_pixel_bounds] returns on a raster that is not empty is
    never empty, lies inside the raster, and is a fixed point: given back
    as pixel bounds it is returned as it is. *)
Theorem get_pixel_bounds_fixed_point (r : Raster R) (b : bounds_arg R)
    (xmin xmax ymin ymax : Z) :
  0 < ncols r -> 0 < nrows r ->
  get_pixel_bounds r b = Ok (xmin, xmax, ymin, ymax) ->
  (0 <= xmin < xmax /\ xmax <= ncols r) /\ (0 <= ymin < ymax /\ ymax <= nrows r) /\
  get_pixel_bounds r (PixelBounds (xmin, xmax, ymin, ymax)) = Ok (xmin, xmax, ymin, ymax).
Proof.
  intros Hc Hr Hb.
  assert (Hclamp : forall x0 x1 y0 y1,
    clamp_bounds r (x0, x1, y0, y1) = Ok (xmin, xmax, ymin, ymax) ->
    (0 <= xmin < xmax /\ xmax <= ncols r) /\ (0 <= ymin < ymax /\ ymax <= nrows r)).
  { intros x0 x1 y0 y1. rewrite clamp_bounds_spec.
    destruct (Z.leb_spec (Z.min (ncols r) x1) (Z.max 0 x0)),
             (Z.leb_spec (Z.min (nrows r) y1) (Z.max 0 y0)); cbn; try discriminate.
    intros [= <- <- <- <-]. lia. }
  assert (Hin : (0 <= xmin < xmax /\ xmax <= ncols r) /\ (0 <= ymin < ymax /\ ymax <= nrows r)).
  { destruct b as [|[[[x0 x1] y0] y1]|c|]; unfold get_pixel_bounds in Hb.
    - injection Hb as <- <- <- <-. lia.
    - by eapply Hclamp.
    - destruct (crs_window r c) as [[[[x0 x1] y0] y1]|e]; cbn in Hb; [|discriminate].
      by eapply Hclamp.
    - discriminate. }
  split; [apply Hin|]. split; [apply Hin|].
  unfold get_pixel_bounds. rewrite clamp_bounds_spec.
  replace (Z.max 0 xmin) with xmin by lia. replace (Z.min (ncols r) xmax) with xmax by lia.
  replace (Z.max 0 ymin) with ymin by lia. replace (Z.min (nrows r) ymax) with ymax by lia.
  destruct (Z.leb_spec xmax xmin), (Z.leb_spec ymax ymin); cbn; try reflexivity; lia.
Qed.

End Window.

Lemma get_pixel_bounds_fixed_point_witness :
  (0 < ncols Examples.raster8 /\ 0 < nrows Examples.raster8 /\
   get_pixel_bounds Examples.raster8 (PixelBounds (-3, 5, 2, 20)) = Ok (0, 5, 2, 8)) /\
  get_pixel_bounds Examples.raster8 (PixelBounds (0, 5, 2, 8)) = Ok (0, 5, 2, 8).
Proof.
  split; [repeat split; vm_compute; reflexivity|].
  apply (get_pixel_bounds_fixed_point Examples.raster8 (PixelBounds (-3, 5, 2, 20)) 0 5 2 8);
    vm_compute; reflexivity.
Defined.

(** ** The grid tiles the window *)

Lemma steps_positive (lo hi size : Z) :
  0 < size -> lo < hi -> (0 < steps lo hi size)%nat.
Proof.
  intros Hs Hlt. unfold steps.
  assert (1 <= (hi - lo + size - 1) / size); [|lia].
  apply Z.div_le_lower_bound; lia.
Qed.

(** The cell of an axis that holds a pixel. *)
Lemma axis_cell (lo hi size p : Z) :
  0 < size -> lo <= p < hi ->
  let k := Z.to_nat ((p - lo) / size) in
  (k < steps lo hi size)%nat /\
  lo + Z.of_nat k * size <= p < lo + Z.of_nat k * size + Z.min size (hi - (lo + Z.of_nat k * size)).
Proof.
  intros Hs Hp k.
  pose proof (Z.mul_div_le (p - lo) size Hs).
  pose proof (Z.mul_succ_div_gt (p - lo) size Hs).
  assert (0 <= (p - lo) / size) by (apply Z.div_pos; lia).
  assert (Hk : Z.of_nat k = (p - lo) / size) by (subst k; lia).
  split.
  - unfold steps. apply Nat2Z.inj_lt. rewrite Hk, Z2Nat.id.
    + apply Z.div_lt_upper_bound; [lia|].
      pose proof (Z.mul_succ_div_gt (hi - lo + size - 1) size Hs). nia.
    + apply Z.div_pos; lia.
  - rewrite Hk. nia.
Qed.

Lemma axis_cell_unique (lo size p : Z) (k k' : nat) (w w' : Z) :
  0 < size -> w <= size -> w' <= size ->
  lo + Z.of_nat k * size <= p < lo + Z.of_nat k * size + w ->
  lo + Z.of_nat k' * size <= p < lo + Z.of_nat k' * size + w' ->
  k = k'.
Proof. intros. nia. Qed.

Section Partition.
Context {R : Type} `{PyNum R}.

Lemma lookup_grid_cells_inv (t : GeoTransform R) (xmin xmax ymin ymax tw th : Z)
    (k : nat) (c : Tile R) :
  grid_cells t xmin xmax ymin ymax tw th !! k = Some c ->
  exists i j : nat,
    (i < steps xmin xmax tw)%nat /\ (j < steps ymin ymax th)%nat /\
    k = (j * steps xmin xmax tw + i)%nat /\
    c = make_tile t xmin xmax ymin ymax tw th
          (xmin + Z.of_nat i * tw) (ymin + Z.of_nat j * th).
Proof.
  intros Hk. pose proof (lookup_lt_Some _ _ _ Hk) as Hlt.
  rewrite length_grid_cells in Hlt.
  set (nx := steps xmin xmax tw) in *.
  assert (Hnx : (0 < nx)%nat) by (destruct nx; [lia | lia]).
  exists (k mod nx)%nat, (k / nx)%nat.
  assert (Hi : (k mod nx < nx)%nat) by (apply Nat.mod_upper_bound; lia).
  assert (Hj : (k / nx < steps ymin ymax th)%nat).
  { apply Nat.Div0.div_lt_upper_bound. lia. }
  assert (Ek : k = (k / nx * nx + k mod nx)%nat).
  { rewrite (Nat.div_mod_eq k nx) at 1. lia. }
  split; [exact Hi|]. split; [exact Hj|]. split; [exact Ek|].
  pose proof (lookup_grid_cells t xmin xmax ymin ymax tw th _ _ Hi Hj) as Hc.
  fold nx in Hc. rewrite <- Ek in Hc. congruence.
Qed.

(** The tiles one call of [make_tile_grid] appends tile the window: every
    pixel of the window lies in the block of exactly one of them. *)
Theorem make_tile_grid_partitions (r : Raster R) (b : bounds_arg R)
    (xmin xmax ymin ymax tw th px py : Z) :
  0 < tw -> 0 < th ->
  get_pixel_bounds r b = Ok (xmin, xmax, ymin, ymax) ->
  xmin <= px < xmax -> ymin <= py < ymax ->
  let new := drop (length (tile_grid r)) (tile_grid (fst (make_tile_grid tw th b r))) in
  exists (k : nat) (t : Tile R),
    new !! k = Some t /\ in_block (block_coords t) px py = true /\
    forall (k' : nat) (t' : Tile R),
      new !! k' = Some t' -> in_block (block_coords t') px py = true -> k' = k.
Proof.
  intros Hw Hh Hb Hx Hy. cbv zeta.
  rewrite (make_tile_grid_cells r b xmin xmax ymin ymax tw th) by done.
  cbn [fst with_grid tile_grid]. rewrite drop_app_length.
  destruct (axis_cell xmin xmax tw px Hw Hx) as [Hi Hxi].
  destruct (axis_cell ymin ymax th py Hh Hy) as [Hj Hyj].
  set (i := Z.to_nat ((px - xmin) / tw)) in *.
  set (j := Z.to_nat ((py - ymin) / th)) in *.
  exists (j * steps xmin xmax tw + i)%nat. eexists.
  split; [by apply lookup_grid_cells|]. split.
  - rewrite block_coords_make_tile. unfold in_block.
    destruct (clipped_size xmin xmax tw i Hw Hi) as (-> & _).
    destruct (clipped_size ymin ymax th j Hh Hj) as (-> & _).
    apply andb_true_intro; split; [apply andb_true_intro; split;
      [apply andb_true_intro; split|]|]; lia.
  - intros k' t' Hk' Hin.
    apply lookup_grid_cells_inv in Hk' as (i' & j' & Hi' & Hj' & -> & ->).
    rewrite block_coords_make_tile in Hin. unfold in_block in Hin.
    destruct (clipped_size xmin xmax tw i' Hw Hi') as (Ex & _).
    destruct (clipped_size ymin ymax th j' Hh Hj') as (Ey & _).
    cbv zeta in Ex, Ey. rewrite Ex, Ey in Hin.
    apply andb_prop in Hin as [Hin H4]. apply andb_prop in Hin as [Hin H3].
    apply andb_prop in Hin as [H1 H2].
    apply Z.leb_le in H1, H3. apply Z.ltb_lt in H2, H4.
    assert (i' = i)
      by (eapply (axis_cell_unique xmin tw px i' i); [exact Hw| | |split; eassumption|exact Hxi]; lia).
    assert (j' = j)
      by (eapply (axis_cell_unique ymin th py j' j); [exact Hh| | |split; eassumption|exact Hyj]; lia).
    by subst.
Qed.

End Partition.

Lemma make_tile_grid_partitions_witness :
  (0 < 3 /\ 0 < 5 /\ get_pixel_bounds Examples.raster8 NoBounds = Ok (0, 8, 0, 8) /\
   0 <= 7 < 8 /\ 0 <= 4 < 8) /\
  exists (k : nat) (t : Tile Q),
    drop (length (tile_grid Examples.raster8))
      (tile_grid (fst (make_tile_grid 3 5 NoBounds Examples.raster8))) !! k = Some t /\
    in_block (block_coords t) 7 4 = true.
Proof.
  split; [repeat split; lia|].
  destruct (make_tile_grid_partitions Examples.raster8 NoBounds 0 8 0 8 3 5 7 4)
    as (k & t & Hk & Hin & _); [lia | lia | reflexivity | lia | lia |].
  exists k, t. split; [exact Hk | exact Hin].
Defined.

(** ** Tile sizes that are not positive *)

Lemma xrange_negative (lo hi size : Z) : size < 0 -> lo <= hi -> xrange lo hi size = Ok [].
Proof.
  intros Hs Hle. unfold xrange.
  destruct (Z.eqb_spec size 0); [lia|]. destruct (Z.ltb_spec 0 size); [lia|].
  assert (E : (lo - hi - size - 1) / - size <= 0).
  { apply Z.lt_succ_r. apply Z.div_lt_upper_bound; lia. }
  replace (Z.to_nat ((lo - hi - size - 1) / - size)) with 0%nat by lia. reflexivity.
Qed.

Section BadSizes.
Context {R : Type} `{PyNum R}.

Lemma for_each_no_tiles (xmin xmax ymin ymax tw th : Z) (ys : list Z) (r : Raster R) :
  tw < 0 -> xmin <= xmax ->
  for_each (grid_row xmin xmax ymin ymax tw th) ys r = (r, Ok tt).
Proof.
  intros Hw Hx. induction ys as [|y ys IH]; [reflexivity|]. cbn [for_each].
  unfold grid_row at 1. rewrite xrange_negative by done. cbn [for_each]. exact IH.
Qed.

(** [make_tile_grid] with a tile size that is not positive, on a window
    that is not empty: a zero height, or a zero width with a positive
    height, raises [ValueError] and leaves the raster as it was; a negative
    height, or a negative width with a positive height, raises nothing and
    appends nothing, and [ntiles] becomes the length of the grid as it
    was. *)
Theorem make_tile_grid_nonpositive_size (r : Raster R) (b : bounds_arg R)
    (xmin xmax ymin ymax tw th : Z) :
  get_pixel_bounds r b = Ok (xmin, xmax, ymin, ymax) ->
  xmin < xmax -> ymin < ymax ->
  (th = 0 \/ (tw = 0 /\ 0 < th) -> make_tile_grid tw th b r = (r, Raise ValueError)) /\
  (th < 0 \/ (tw < 0 /\ 0 < th) ->
   make_tile_grid tw th b r
   = (with_grid r (tile_grid r) (Some (Z.of_nat (length (tile_grid r)))), Ok tt)).
Proof.
  intros Hb Hx Hy. unfold make_tile_grid. rewrite Hb. split.
  - intros [->|[-> Hh]]; [reflexivity|].
    rewrite xrange_positive by done.
    destruct (offsets ymin ymax th) as [|y ys] eqn:E.
    + pose proof (steps_positive ymin ymax th Hh Hy) as Hpos.
      rewrite <- length_offsets, E in Hpos. cbn in Hpos. lia.
    + reflexivity.
  - intros [Hh|[Hw Hh]].
    + rewrite xrange_negative by lia. reflexivity.
    + rewrite xrange_positive by done. rewrite for_each_no_tiles by lia. reflexivity.
Qed.

End BadSizes.

Lemma make_tile_grid_nonpositive_size_witness :
  (get_pixel_bounds Examples.raster8 NoBounds = Ok (0, 8, 0, 8) /\ 0 < 8 /\ 0 < 8) /\
  make_tile_grid 0 4 NoBounds Examples.raster8 = (Examples.raster8, Raise ValueError) /\
  tile_grid (fst (make_tile_grid (-4) 4 NoBounds Examples.raster8)) = [].
Proof.
  split; [repeat split; lia|].
  destruct (make_tile_grid_nonpositive_size Examples.raster8 NoBounds 0 8 0 8 0 4)
    as [Hzero _]; [reflexivity | lia | lia |].
  destruct (make_tile_grid_nonpositive_size Examples.raster8 NoBounds 0 8 0 8 (-4) 4)
    as [_ Hneg]; [reflexivity | lia | lia |].
  split; [apply Hzero; right; lia|].
  rewrite Hneg by (right; lia). reflexivity.
Defined.

(** ** Finite tiles *)

Lemma existsb_map {A B : Type} (p : B -> bool) (f : A -> B) (l : list A) :
  existsb p (map f l) = existsb (fun x => p (f x)) l.
Proof. induction l as [|x l IH]; [done|]. cbn. by rewrite IH. Qed.

Lemma existsb_never {A : Type} (p : A -> bool) (l : list A) :
  (forall x, p x = false) -> existsb p l = false.
Proof. intros Hp. induction l as [|x l IH]; [done|]. cbn. by rewrite Hp, IH. Qed.

Section FiniteTiles.
Context {R : Type} `{PyNum R}.

Lemma replaced_finite (v x : R) :
  is_nan v = false -> is_inf v = false ->
  let y := if is_nan x then v else x in
  let z := if is_inf y then v else y in
  is_nan z = false /\ is_inf z = false.
Proof.
  intros Hn Hi. cbv zeta.
  destruct (is_nan x) eqn:Ex; [rewrite Hi; by split|].
  destruct (is_inf x) eqn:Ey; by split.
Qed.

Lemma assign_where2_finite (v : R) (a : list (list R)) :
  is_nan v = false -> is_inf v = false ->
  let a' := assign_where2 is_inf v (assign_where2 is_nan v a) in
  any2 is_nan a' || any2 is_inf a' = false.
Proof.
  intros Hn Hi. cbv zeta. unfold assign_where2, any2. rewrite !map_map.
  apply orb_false_intro; rewrite existsb_map; apply existsb_never; intros row;
    rewrite map_map, existsb_map; apply existsb_never; intros x;
    apply (replaced_finite v x Hn Hi).
Qed.

Lemma assign_where_finite (v : R) (a : list (list (list R))) :
  is_nan v = false -> is_inf v = false ->
  let a' := assign_where is_inf v (assign_where is_nan v a) in
  any3 is_nan a' || any3 is_inf a' = false.
Proof.
  intros Hn Hi. cbv zeta. unfold assign_where, any3. rewrite !map_map.
  apply orb_false_intro; rewrite existsb_map; apply existsb_never; intros p;
    rewrite map_map, existsb_map; apply existsb_never; intros row;
    rewrite map_map, existsb_map; apply existsb_never; intros x;
    apply (replaced_finite v x Hn Hi).
Qed.

(** With [finite_only] and a replacement value that is itself finite, the
    array [get_next_tile] yields for a tile holds no [nan] and no infinity,
    for one band as for several; [get_tile] gives the same guarantee when it
    is asked for a number of bands other than one. *)
Theorem finite_only_tiles (r : Raster R) (bands : list Z) (tile : Tile R)
    (v : R) (arr : ndarray R) :
  is_nan v = false -> is_inf v = false ->
  (next_tile_array r bands tile true v = Ok arr -> finite_array arr = true) /\
  (length bands <> 1%nat ->
   get_tile r (Some bands) (block_coords tile) true (Some v) = Ok arr ->
   finite_array arr = true).
Proof.
  intros Hn Hi. split.
  - unfold next_tile_array.
    destruct (match bands with [] => _ | _ => _ end) as [[a|a]|e]; cbn [rbind];
      [| |discriminate].
    + destruct (any2 is_nan a || any2 is_inf a) eqn:E; intros [= <-]; cbn.
      * by rewrite assign_where2_finite.
      * by rewrite E.
    + destruct (any3 is_nan a || any3 is_inf a) eqn:E; intros [= <-]; cbn.
      * by rewrite assign_where_finite.
      * by rewrite E.
  - intros Hlen Hget.
    destruct (get_tile_multi_band_finite r bands (block_coords tile) v arr Hlen Hget)
      as (raw & _ & ->).
    cbn. rewrite <- assign_twice. by rewrite assign_where_finite.
Qed.

End FiniteTiles.

Lemma finite_only_tiles_witness :
  (is_nan (B64.of_Z (-1)) = false /\ is_inf (B64.of_Z (-1)) = false /\
   next_tile_array (Examples.raster_nan 1) [1]
     (make_tile (transform (Examples.raster_nan 1)) 0 2 0 2 2 2 0 0) true (B64.of_Z (-1))
   = Ok (Arr2 [[B64.of_Z 1; B64.of_Z (-1)]; [B64.of_Z 2; B64.of_Z 3]])) /\
  finite_array (Arr2 [[B64.of_Z 1; B64.of_Z (-1)]; [B64.of_Z 2; B64.of_Z 3]]) = true.
Proof.
  split; [repeat split; vm_compute; reflexivity|].
  destruct (finite_only_tiles (Examples.raster_nan 1) [1]
              (make_tile (transform (Examples.raster_nan 1)) 0 2 0 2 2 2 0 0)
              (B64.of_Z (-1))
              (Arr2 [[B64.of_Z 1; B64.of_Z (-1)]; [B64.of_Z 2; B64.of_Z 3]]))
    as [Hnext _]; [reflexivity | reflexivity |].
  apply Hnext. vm_compute. reflexivity.
Defined.

(** ** When [extract_geom] returns *)

Lemma map_result_ok {A B : Type} (f : A -> result B) (xs : list A) :
  (forall x, x ∈ xs -> exists y, f x = Ok y) -> exists ys, map_result f xs = Ok ys.
Proof.
  induction xs as [|x xs IH]; intros Hall; [by exists []|].
  destruct (Hall x ltac:(left)) as [y Hy].
  destruct IH as [ys Hys]; [intros x' Hx'; apply Hall; by right|].
  exists (y :: ys). cbn. by rewrite Hy, Hys.
Qed.

Lemma map_result_raise {A B : Type} (f : A -> result B) (xs : list A) (x : A) (e : exn) :
  x ∈ xs -> f x = Raise e -> exists e', map_result f xs = Raise e'.
Proof.
  intros Hx Hf. induction xs as [|x0 xs IH]; [by apply elem_of_nil in Hx|].
  cbn. apply elem_of_cons in Hx as [<-|Hx].
  - rewrite Hf. by eexists.
  - destruct (f x0); cbn; [|by eexists].
    destruct (IH Hx) as [e' ->]. by eexists.
Qed.

Lemma filter_none {A : Type} (f : A -> bool) (l : list A) :
  (forall x, x ∈ l -> f x = false) -> filter f l = [].
Proof.
  induction l as [|x l IH]; intros Hall; [done|]. rewrite filter_cons.
  rewrite (Hall x) by left. destruct (decide _) as [Hn|]; [by destruct Hn|].
  apply IH. intros y Hy. apply Hall. by right.
Qed.

(** Three comprehensions in a row succeed exactly when the three steps
    succeed on every element. *)
Lemma map_result_chain {A B C D : Type} (f : A -> result B) (g : B -> result C)
    (h : C -> result D) (xs : list A) :
  (exists vs, (let* bs := map_result f xs in
               let* cs := map_result g bs in
               map_result h cs) = Ok vs) <->
  forall x, x ∈ xs -> exists v, (let* b := f x in let* c := g b in h c) = Ok v.
Proof.
  induction xs as [|x xs IH].
  - split; [intros _ x Hx; by apply elem_of_nil in Hx | intros _; by exists []].
  - cbn [map_result].
    destruct (f x) as [b|e] eqn:Eb; cbn [rbind].
    2:{ split; [intros [vs Hvs]; discriminate|].
        intros Hall. destruct (Hall x ltac:(left)) as [v Hv]. rewrite Eb in Hv. discriminate. }
    destruct (map_result f xs) as [bs|e] eqn:Ebs; cbn [rbind] in *.
    2:{ split; [intros [vs Hvs]; discriminate|].
        intros Hall. exfalso.
        destruct (proj2 IH) as [vs Hvs]; [intros x' Hx'; apply Hall; by right|].
        discriminate. }
    cbn [map_result].
    destruct (g b) as [c|e] eqn:Ec; cbn [rbind].
    2:{ split; [intros [vs Hvs]; discriminate|].
        intros Hall. destruct (Hall x ltac:(left)) as [v Hv].
        rewrite Eb in Hv. cbn [rbind] in Hv. rewrite Ec in Hv. discriminate. }
    destruct (map_result g bs) as [cs|e] eqn:Ecs; cbn [rbind] in *.
    2:{ split; [intros [vs Hvs]; discriminate|].
        intros Hall. exfalso.
        destruct (proj2 IH) as [vs Hvs]; [intros x' Hx'; apply Hall; by right|].
        discriminate. }
    cbn [map_result].
    destruct (h c) as [d|e] eqn:Ed; cbn [rbind].
    2:{ split; [intros [vs Hvs]; discriminate|].
        intros Hall. destruct (Hall x ltac:(left)) as [v Hv].
        rewrite Eb in Hv. cbn [rbind] in Hv. rewrite Ec in Hv. cbn [rbind] in Hv.
        rewrite Ed in Hv. discriminate. }
    destruct (map_result h cs) as [ds|e] eqn:Eds; cbn [rbind] in *.
    2:{ split; [intros [vs Hvs]; discriminate|].
        intros Hall. exfalso.
        destruct (proj2 IH) as [vs Hvs]; [intros x' Hx'; apply Hall; by right|].
        discriminate. }
    split; [|intros _; by eexists].
    intros _ x' [->|Hx']%elem_of_cons.
    + rewrite Eb. cbn [rbind]. rewrite Ec. cbn [rbind]. by eexists.
    + apply (proj1 IH); [by eexists | done].
Qed.

Section Returns.
Context {R : Type} `{PyNum R}.
Variable Intersects : list (R * R) -> Geom R -> bool.
Variable ExportToWkt : R * R -> R * R.

(** One tile of the loop: the body raises exactly when the values of a
    part the tile meets cannot be taken from it. *)
Lemma sample_tile_ok_iff (parts : list (part R)) (bo : list Z) (t : Tile R)
    (r : Raster R) (out : list (Slot R)) :
  snd (sample_tile Intersects ExportToWkt parts bo t (r, out)) = Ok tt <->
  forall p : part R, p ∈ parts -> meets Intersects t (snd p) = true ->
    exists v, tile_sample ExportToWkt r bo t (snd p) = Ok v.
Proof.
  unfold sample_tile.
  destruct (samp_ids Intersects parts t) as [|id0 ids0] eqn:Eids.
  { split; [|done]. intros _ p Hp Hm.
    apply list_elem_of_lookup in Hp as [i Hi].
    assert (Hin : (i, p) ∈ samp_ids Intersects parts t) by by apply elem_of_samp_ids.
    rewrite Eids in Hin. by apply elem_of_nil in Hin. }
  cbv beta iota. rewrite <- Eids.
  assert (Hne : exists i0 p0, (i0, p0) ∈ samp_ids Intersects parts t).
  { destruct id0 as [i0 p0]. exists i0, p0. rewrite Eids. left. }
  clear id0 ids0 Eids.
  destruct (read_array_spec (block_coords t) r) as (Hmeta & _ & Harr).
  destruct Hmeta as (Hs & Htr & _).
  unfold tile_sample.
  destruct (read_array (Some (block_coords t)) r) as [r1 [[]|e]] eqn:Eread; cbn [fst snd] in *.
  2:{ split; [discriminate|]. intros Hall. exfalso.
      destruct Hne as (i0 & p0 & Hin). apply elem_of_samp_ids in Hin as [Hi Hm].
      destruct (Hall p0 (list_elem_of_lookup_2 _ _ _ Hi) Hm) as [v Hv].
      unfold read_array in Eread.
      destruct (read_block (datasource r) (nbands r) (block_coords t));
        [discriminate Eread | discriminate Hv]. }
  destruct Harr as (a & Hblock & Ha). rewrite Hblock. cbn [rbind].
  unfold nbands in *. rewrite Htr, Hs, Ha.
  set (pz := (gt1 (transform r), gt5 (transform r))).
  pose proof (map_result_chain
                (fun p : nat * part R => samp_coord ExportToWkt (snd (snd p)))
                (locate pz (tie_point t))
                (sample (Some a) (fst (fst (shape r))) bo)
                (samp_ids Intersects parts t)) as Hstep.
  fold pz.
  destruct (let* samp_coords := map_result _ (samp_ids Intersects parts t) in _)
    as [vs|e]; cbn [snd].
  - split; [|done]. intros _ p Hp Hm.
    apply list_elem_of_lookup in Hp as [i Hi].
    apply (proj1 Hstep (ex_intro _ vs eq_refl) (i, p)). by apply elem_of_samp_ids.
  - split; [discriminate|]. intros Hall. exfalso.
    destruct (proj2 Hstep) as [vs Hvs]; [|discriminate].
    intros [i p] [Hi Hm]%elem_of_samp_ids. cbn.
    apply Hall; [by eapply list_elem_of_lookup_2 | done].
Qed.

Lemma sample_loop_ok_iff (parts : list (part R)) (bo : list Z) (tiles : list (Tile R))
    (r : Raster R) (out : list (Slot R)) :
  snd (for_each (sample_tile Intersects ExportToWkt parts bo) tiles (r, out)) = Ok tt <->
  forall (t : Tile R) (p : part R), t ∈ tiles -> p ∈ parts ->
    meets Intersects t (snd p) = true -> exists v, tile_sample ExportToWkt r bo t (snd p) = Ok v.
Proof.
  revert r out. induction tiles as [|t0 tiles IH]; intros r out.
  - split; [|done]. intros _ t p Ht. by apply elem_of_nil in Ht.
  - cbn [for_each].
    pose proof (sample_tile_ok_iff parts bo t0 r out) as Hhead.
    pose proof (sample_tile_spec Intersects ExportToWkt parts bo t0 r out) as Hspec.
    cbv zeta in Hspec.
    destruct (sample_tile Intersects ExportToWkt parts bo t0 (r, out)) as [[r1 out1] [[]|e]];
      cbn [fst snd] in *.
    + destruct Hspec as (Hmeta & _).
      rewrite IH. split.
      * intros Htail t p [->|Ht]%elem_of_cons Hp Hm.
        -- by apply (proj1 Hhead).
        -- destruct (Htail t p Ht Hp Hm) as [v Hv]. exists v.
           by rewrite <- (tile_sample_meta ExportToWkt r r1).
      * intros Hall t p Ht Hp Hm.
        destruct (Hall t p ltac:(by right) Hp Hm) as [v Hv]. exists v.
        by rewrite (tile_sample_meta ExportToWkt r r1).
    + split; [discriminate|]. intros Hall.
      apply Hhead. intros p Hp Hm. apply Hall; [by left | done | done].
Qed.

Lemma extract_geom_ok_iff (parts : list (part R))
    (band_order : option (list Z)) (tile_size : option (Z * Z)) (r : Raster R) :
  snd (make_tile_grid (fst (tile_size_of r tile_size)) (snd (tile_size_of r tile_size))
         NoBounds (refreshed r)) = Ok tt ->
  (exists out, snd (extract_geom Intersects ExportToWkt parts band_order tile_size r) = Ok out) <->
  forall (t : Tile R) (p : part R),
    t ∈ tile_grid (fst (extract_geom Intersects ExportToWkt parts band_order tile_size r)) ->
    p ∈ parts -> meets Intersects t (snd p) = true ->
    exists v, tile_sample ExportToWkt r (band_order_of r band_order) t (snd p) = Ok v.
Proof.
  intros Hgrid.
  pose proof (extract_geom_grid Intersects ExportToWkt parts band_order tile_size r) as Hg.
  cbv zeta in Hg. fold (tile_size_of r tile_size) (refreshed r) in Hg.
  rewrite Hg. clear Hg. unfold extract_geom.
  fold (tile_size_of r tile_size) (band_order_of r band_order) (refreshed r).
  pose proof (make_tile_grid_source (fst (tile_size_of r tile_size))
                (snd (tile_size_of r tile_size)) NoBounds (refreshed r)) as Hsrc.
  assert (Hinit : same_source r (refreshed r))
    by (unfold refreshed; destruct (array r); by repeat split).
  destruct (make_tile_grid _ _ NoBounds (refreshed r)) as [r1 [[]|e]];
    cbn [fst snd] in *; [|discriminate].
  pose proof (same_source_trans _ _ _ Hinit Hsrc) as Hr1.
  pose proof (sample_loop_ok_iff parts (band_order_of r band_order) (tile_grid r1) r1
                (map (fun _ => Unsampled) parts)) as Hloop.
  destruct (for_each _ (tile_grid r1) _) as [[r2 out2] [[]|e]]; cbn [fst snd] in *.
  - split; [|intros _; by eexists].
    intros _ t p Ht Hp Hm.
    destruct (proj1 Hloop eq_refl t p Ht Hp Hm) as [v Hv]. exists v.
    by rewrite <- (tile_sample_source ExportToWkt r r1).
  - split; [intros [out Hout]; discriminate|].
    intros Hall. exfalso.
    assert (Raise e = Ok tt :> result unit); [|discriminate].
    apply Hloop. intros t p Ht Hp Hm.
    destruct (Hall t p Ht Hp Hm) as [v Hv]. exists v.
    by rewrite (tile_sample_source ExportToWkt r r1).
Qed.

(** Once the grid is built, [extract_geom] returns a result exactly when
    every tile of the grid gives values for every part it meets: one part
    that a tile meets and cannot be sampled from makes the whole call
    raise, whatever the other tiles and parts.  A part that is not a point
    and meets a tile is such a part. *)
Theorem extract_geom_returns_iff (parts : list (part R))
    (band_order : option (list Z)) (tile_size : option (Z * Z)) (r : Raster R) :
  let ts := tile_size_of r tile_size in
  let res := extract_geom Intersects ExportToWkt parts band_order tile_size r in
  snd (make_tile_grid (fst ts) (snd ts) NoBounds (refreshed r)) = Ok tt ->
  ((exists out, snd res = Ok out) <->
   forall (t : Tile R) (p : part R), t ∈ tile_grid (fst res) -> p ∈ parts ->
     meets Intersects t (snd p) = true ->
     exists v, tile_sample ExportToWkt r (band_order_of r band_order) t (snd p) = Ok v) /\
  (forall (t : Tile R) (p : part R), t ∈ tile_grid (fst res) -> p ∈ parts ->
     meets Intersects t (snd p) = true -> snd p = NotPoint ->
     exists e, snd res = Raise e).
Proof.
  cbv zeta. intros Hgrid.
  pose proof (extract_geom_ok_iff parts band_order tile_size r Hgrid) as Hiff.
  split; [exact Hiff|].
  intros t p Ht Hp Hm Hnp.
  destruct (snd (extract_geom Intersects ExportToWkt parts band_order tile_size r))
      as [out|e] eqn:Eres;
    [|by exists e].
  exfalso. destruct (proj1 Hiff (ex_intro _ out eq_refl) t p Ht Hp Hm) as [v Hv].
  unfold tile_sample in Hv. rewrite Hnp in Hv.
  destruct (read_block _ _ _); discriminate.
Qed.

(** When no tile of the grid meets any part, [extract_geom] reads nothing
    and returns one empty slot for each part. *)
Theorem extract_geom_nothing_met (parts : list (part R))
    (band_order : option (list Z)) (tile_size : option (Z * Z)) (r : Raster R) :
  let ts := tile_size_of r tile_size in
  let res := extract_geom Intersects ExportToWkt parts band_order tile_size r in
  snd (make_tile_grid (fst ts) (snd ts) NoBounds (refreshed r)) = Ok tt ->
  (forall (t : Tile R) (p : part R), t ∈ tile_grid (fst res) -> p ∈ parts ->
     meets Intersects t (snd p) = false) ->
  snd res = Ok (map (fun _ => Unsampled) parts) /\ reads (fst res) = reads r.
Proof.
  cbv zeta. intros Hgrid Hnone.
  destruct (extract_geom_spec Intersects ExportToWkt parts band_order tile_size r)
    as (_ & (seen & rest & Hg & Hreads) & Hout).
  cbv zeta in Hout.
  split.
  - destruct (snd (extract_geom Intersects ExportToWkt parts band_order tile_size r))
      as [out|e] eqn:Eres.
    + destruct (Hout out eq_refl) as [Hlen Hslots]. f_equal.
      apply list_eq. intros i. rewrite list_lookup_fmap.
      destruct (parts !! i) as [p|] eqn:Hp; cbn.
      * apply (proj1 (Hslots i p Hp)). intros t Ht. apply Hnone; [done|].
        by eapply list_elem_of_lookup_2.
      * apply lookup_ge_None. apply lookup_ge_None in Hp. lia.
    + exfalso.
      destruct (proj2 (extract_geom_ok_iff parts band_order tile_size r Hgrid))
        as [out Hout']; [|congruence].
      intros t p Ht Hp Hm. rewrite Hnone in Hm by done. discriminate.
  - rewrite Hreads.
    assert (filter (touched Intersects parts) seen = []) as ->; [|by rewrite app_nil_r].
    apply filter_none. intros t Ht.
    destruct (touched Intersects parts t) eqn:Htouch; [|done]. exfalso.
    unfold touched in Htouch.
    apply existsb_exists in Htouch as (p & Hp & Hm).
    rewrite Hnone in Hm; [discriminate| |by apply list_elem_of_In].
    rewrite Hg. apply elem_of_app. by left.
Qed.

End Returns.

(** A line string that OGR finds to intersect a tile: the text of its
    coordinates does not parse, and the call raises. *)
Lemma extract_geom_returns_iff_witness :
  let parts : list (part Q) := [("1_1"%string, NotPoint)] in
  let meets_all : list (Q * Q) -> Geom Q -> bool := fun _ _ => true in
  snd (make_tile_grid (fst (tile_size_of Examples.raster8 (Some (4, 4))))
         (snd (tile_size_of Examples.raster8 (Some (4, 4)))) NoBounds
         (refreshed Examples.raster8)) = Ok tt /\
  exists e, snd (extract_geom meets_all Examples.text15 parts None (Some (4, 4))
      Examples.raster8) = Raise e.
Proof.
  cbv zeta. split; [vm_compute; reflexivity|].
  destruct (extract_geom_returns_iff (fun _ _ => true) Examples.text15
              [("1_1"%string, NotPoint)] None
              (Some (4, 4)) Examples.raster8) as [_ Hnp]; [vm_compute; reflexivity|].
  apply (Hnp (make_tile Examples.north_up 0 8 0 8 4 4 0 0) ("1_1"%string, NotPoint)).
  - apply (list_elem_of_lookup_2 _ 0%nat). vm_compute. reflexivity.
  - left.
  - reflexivity.
  - reflexivity.
Defined.

(** A point far outside the 8 x 8 raster: nothing is read. *)
Lemma extract_geom_nothing_met_witness :
  let parts : list (part Q) := [("1_1"%string, Point 20 20)%Q] in
  let res := extract_geom rect_intersects Examples.text15 parts None (Some (4, 4))
      Examples.raster8 in
  snd (make_tile_grid (fst (tile_size_of Examples.raster8 (Some (4, 4))))
         (snd (tile_size_of Examples.raster8 (Some (4, 4)))) NoBounds
         (refreshed Examples.raster8)) = Ok tt /\
  snd res = Ok [Unsampled] /\ reads (fst res) = [].
Proof.
  cbv zeta. split; [vm_compute; reflexivity|].
  apply (extract_geom_nothing_met rect_intersects Examples.text15 [("1_1"%string, Point 20 20)%Q] None
           (Some (4, 4)) Examples.raster8); [vm_compute; reflexivity|].
  intros t p Ht Hp. apply list_elem_of_singleton in Hp as ->.
  assert (Hall : forallb (fun t => negb (meets rect_intersects t (Point 20 20)%Q))
                   (tile_grid (fst (extract_geom rect_intersects Examples.text15
                      [("1_1"%string, Point 20 20)%Q] None (Some (4, 4)) Examples.raster8)))
                 = true) by (vm_compute; reflexivity).
  rewrite forallb_forall in Hall. apply negb_true_iff. apply Hall.
  by apply list_elem_of_In.
Defined.

(** ** The values [extract_geom] samples *)

Lemma index_ok_spec (n i : Z) : index_ok n i = true <-> - n <= i < n.
Proof. unfold index_ok. rewrite andb_true_iff, Z.leb_le, Z.ltb_lt. done. Qed.

Lemma np_get_seq {A : Type} (f : nat -> A) (n : nat) (i : Z) :
  np_get (map f (seq 0 n)) i
  = if index_ok (Z.of_nat n) i then Ok (f (Z.to_nat (i mod Z.of_nat n)))
    else Raise IndexError.
Proof.
  unfold np_get, np_index, index_ok. rewrite length_map, length_seq.
  destruct (Z.leb_spec 0 i), (Z.ltb_spec i (Z.of_nat n)); cbn [andb rbind].
  - destruct (Z.leb_spec (- Z.of_nat n) i); [|lia]. cbn [andb].
    rewrite list_lookup_fmap, lookup_seq_lt by lia. cbn.
    by rewrite Z.mod_small by lia.
  - destruct (Z.leb_spec (- Z.of_nat n) i), (Z.ltb_spec i 0); cbn; try reflexivity; lia.
  - destruct (Z.leb_spec (- Z.of_nat n) i), (Z.ltb_spec i 0); cbn [andb rbind]; try lia.
    + rewrite list_lookup_fmap, lookup_seq_lt by lia. cbn. do 3 f_equal.
      apply (Z.mod_unique _ _ (-1)); lia.
    + reflexivity.
  - lia.
Qed.

Lemma existsb_never_in {A : Type} (p : A -> bool) (l : list A) :
  (forall x, x ∈ l -> p x = false) -> existsb p l = false.
Proof.
  induction l as [|x l IH]; intros Hp; [done|]. cbn.
  rewrite (Hp x) by left. apply IH. intros y Hy. apply Hp. by right.
Qed.

Lemma map_result_map {A B : Type} (f : A -> result B) (g : A -> B) (xs : list A) :
  (forall x, x ∈ xs -> f x = Ok (g x)) -> map_result f xs = Ok (map g xs).
Proof.
  induction xs as [|x xs IH]; intros Hall; [done|]. cbn.
  rewrite (Hall x) by left. cbn. rewrite IH; [done|].
  intros y Hy. apply Hall. by right.
Qed.

Lemma map_result_fmap {A B C : Type} (f : B -> result C) (g : A -> B) (xs : list A) :
  map_result f (map g xs) = map_result (fun x => f (g x)) xs.
Proof. induction xs as [|x xs IH]; [done|]. cbn. by rewrite IH. Qed.

Lemma map_result_first_raise {A B : Type} (f : A -> result B) (xs : list A) (e : exn) :
  xs <> [] -> (forall x, x ∈ xs -> f x = Raise e) -> map_result f xs = Raise e.
Proof.
  intros Hne Hall. destruct xs as [|x xs]; [done|]. cbn. by rewrite (Hall x) by left.
Qed.

Lemma elem_of_range (a b x : Z) : x ∈ range a b <-> a <= x < b.
Proof.
  unfold range. rewrite list_elem_of_fmap. split.
  - intros (k & -> & Hk). apply elem_of_seq in Hk. lia.
  - intros Hx. exists (Z.to_nat (x - a)). split; [lia|]. apply elem_of_seq. lia.
Qed.

Section Windows.
Context {R : Type} `{PyNum R}.

(** The windows [ReadAsArray] hands back: those inside the dataset, and
    those without a column or without a row, wherever they lie. *)
Lemma ReadAsArray_ok (ds : DataSource R) (band x y cols rows : Z) :
  1 <= band <= RasterCount ds -> 0 <= cols -> 0 <= rows ->
  cols = 0 \/ rows = 0 \/
  (0 <= x /\ 0 <= y /\ x + cols <= RasterXSize ds /\ y + rows <= RasterYSize ds) ->
  ReadAsArray ds band (x, y, cols, rows) = Ok (window ds band (x, y, cols, rows)).
Proof.
  intros Hb Hc Hr Hin. unfold ReadAsArray, window.
  destruct (Z.leb_spec 1 band); [|lia]. destruct (Z.leb_spec band (RasterCount ds)); [|lia].
  cbn [andb negb].
  destruct (Z.ltb_spec cols 0); [lia|]. destruct (Z.ltb_spec rows 0); [lia|]. cbn [orb].
  destruct (Z.eqb_spec cols 0); [reflexivity|]. destruct (Z.eqb_spec rows 0); [reflexivity|].
  cbn [orb].
  destruct (Z.leb_spec 0 x); [|lia]. destruct (Z.leb_spec 0 y); [|lia].
  destruct (Z.leb_spec (x + cols) (RasterXSize ds)); [|lia].
  destruct (Z.leb_spec (y + rows) (RasterYSize ds)); [|lia]. reflexivity.
Qed.

Lemma ReadAsArray_window (ds : DataSource R) (band x y cols rows : Z) :
  1 <= band <= RasterCount ds -> 0 <= x -> 0 <= y -> 0 < cols -> 0 < rows ->
  x + cols <= RasterXSize ds -> y + rows <= RasterYSize ds ->
  ReadAsArray ds band (x, y, cols, rows) = Ok (window ds band (x, y, cols, rows)).
Proof. intros. apply ReadAsArray_ok; lia. Qed.

(** A window with columns and rows that reaches outside the dataset is
    refused. *)
Lemma ReadAsArray_outside (ds : DataSource R) (band x y cols rows : Z) :
  1 <= band <= RasterCount ds -> 0 < cols -> 0 < rows ->
  x < 0 \/ y < 0 \/ RasterXSize ds < x + cols \/ RasterYSize ds < y + rows ->
  ReadAsArray ds band (x, y, cols, rows) = Raise RuntimeError.
Proof.
  intros Hb Hc Hr Hout. unfold ReadAsArray.
  destruct (Z.leb_spec 1 band); [|lia]. destruct (Z.leb_spec band (RasterCount ds)); [|lia].
  cbn [andb negb].
  destruct (Z.ltb_spec cols 0); [lia|]. destruct (Z.ltb_spec rows 0); [lia|]. cbn [orb].
  destruct (Z.eqb_spec cols 0); [lia|]. destruct (Z.eqb_spec rows 0); [lia|]. cbn [orb].
  destruct (Z.leb_spec 0 x), (Z.leb_spec 0 y),
           (Z.leb_spec (x + cols) (RasterXSize ds)),
           (Z.leb_spec (y + rows) (RasterYSize ds)); try lia; reflexivity.
Qed.

(** Row [i], column [j] of a window, as numpy indexes it: an index below
    zero counts from the end of its axis. *)
Lemma window_at (ds : DataSource R) (band x y cols rows i j : Z) :
  0 < rows -> 0 < cols ->
  (let* row := np_get (window ds band (x, y, cols, rows)) i in np_get row j)
  = if index_ok rows i && index_ok cols j
    then Ok (pixel ds band (y + i mod rows) (x + j mod cols))
    else Raise IndexError.
Proof.
  intros Hr Hc. unfold window. rewrite np_get_seq, Z2Nat.id by lia.
  destruct (index_ok rows i); cbn [andb rbind]; [|reflexivity].
  rewrite np_get_seq, Z2Nat.id by lia.
  destruct (index_ok cols j); [|reflexivity].
  rewrite !Z2Nat.id; [reflexivity | |]; apply Z.mod_pos_bound; lia.
Qed.

(** What [read_array] holds after reading a block that [ReadAsArray]
    hands back: the window of the one band, or the windows of all bands. *)
Lemma read_block_ok (ds : DataSource R) (x y cols rows : Z) :
  1 <= RasterCount ds -> 0 <= cols -> 0 <= rows ->
  cols = 0 \/ rows = 0 \/
  (0 <= x /\ 0 <= y /\ x + cols <= RasterXSize ds /\ y + rows <= RasterYSize ds) ->
  read_block ds (RasterCount ds) (x, y, cols, rows)
  = Ok (if RasterCount ds =? 1 then Arr2 (window ds 1 (x, y, cols, rows))
        else Arr3 (map (fun k : nat => window ds (0 + Z.of_nat k + 1) (x, y, cols, rows))
                       (seq 0 (Z.to_nat (RasterCount ds - 0))))).
Proof.
  intros Hnb Hc Hr Hin. unfold read_block.
  destruct (Z.ltb_spec (RasterCount ds) 0); [lia|].
  destruct (Z.ltb_spec rows 0); [lia|]. destruct (Z.ltb_spec cols 0); [lia|]. cbn [orb].
  destruct (Z.ltb_spec (RasterCount ds) 1); [lia|].
  rewrite (map_result_map _ (fun b => window ds (b + 1) (x, y, cols, rows))).
  2:{ intros b Hb%elem_of_range. apply ReadAsArray_ok; [lia | lia | lia | exact Hin]. }
  cbn [rbind]. f_equal. unfold range. rewrite map_map.
  destruct (Z.eqb_spec (RasterCount ds) 1) as [E|E].
  - rewrite E. reflexivity.
  - destruct (Z.to_nat (RasterCount ds - 0)) as [|[|n]] eqn:En; [lia | lia |].
    reflexivity.
Qed.

Lemma read_block_windows (ds : DataSource R) (x y cols rows : Z) :
  1 <= RasterCount ds -> 0 <= x -> 0 <= y -> 0 < cols -> 0 < rows ->
  x + cols <= RasterXSize ds -> y + rows <= RasterYSize ds ->
  read_block ds (RasterCount ds) (x, y, cols, rows)
  = Ok (if RasterCount ds =? 1 then Arr2 (window ds 1 (x, y, cols, rows))
        else Arr3 (map (fun k : nat => window ds (0 + Z.of_nat k + 1) (x, y, cols, rows))
                       (seq 0 (Z.to_nat (RasterCount ds - 0))))).
Proof. intros. apply read_block_ok; lia. Qed.

End Windows.

Module ExactSampling.
Import Exact.

Lemma floor_shift (v : Q) (n : Z) : Qfloor (v - inject_Z n) = Qfloor v - n.
Proof.
  apply ExactAffine.is_floor_unique. unfold is_floor.
  pose proof (Qfloor_le v) as Hl. pose proof (Qlt_floor v) as Hu.
  unfold Qminus. split.
  - unfold Z.sub. rewrite inject_Z_plus, inject_Z_opp. apply Qplus_le_l. exact Hl.
  - replace (Qfloor v - n + 1) with ((Qfloor v + 1) + - n) by lia.
    rewrite (inject_Z_plus (Qfloor v + 1) (- n)), inject_Z_opp.
    apply Qplus_lt_l. exact Hu.
Qed.

(** The location of a coordinate in a tile is its pixel in the raster
    less the first pixel of the tile. *)
Lemma floor_from_corner (v s t : Q) (n : Z) :
  ~ (s == 0)%Q ->
  Qfloor (Qred (v - Qred (Qred (Qred (inject_Z n * s) + t) + inject_Z 0)) / s)
  = Qfloor ((v - t) / s) - n.
Proof.
  intros Hs. rewrite <- floor_shift. apply Qfloor_comp.
  rewrite !Qred_correct. change (inject_Z 0) with 0%Q. field. exact Hs.
Qed.

#[local] Opaque Qfloor Qred Qdiv Qplus Qminus Qmult inject_Z.

Lemma locate_in_tile (t : GeoTransform Q) (tl : Tile Q) (X Y : Q) (x y cols rows : Z) :
  ~ (gt1 t == 0)%Q -> ~ (gt5 t == 0)%Q ->
  block_coords tl = (x, y, cols, rows) -> anchored t tl ->
  locate (gt1 t, gt5 t) (tie_point tl) (Some (X, Y))
  = Ok (Some (inject_Z (fst (pixel_of t X Y) - x)), Some (inject_Z (snd (pixel_of t X Y) - y))).
Proof.
  intros Hw Hh Hb Ha. unfold anchored in Ha. rewrite Hb in Ha.
  cbn in Ha. injection Ha as Ha. rewrite <- Ha.
  cbn [locate fst snd floordiv sub exact_num].
  rewrite !ExactFacts.qfloordiv_nonzero by assumption. cbn [rbind].
  rewrite !floor_from_corner by assumption. reflexivity.
Qed.

Lemma sample_at (ds : DataSource Q) (bo : list Z) (x y cols rows lx ly : Z) :
  1 <= RasterCount ds -> bands_in_range (RasterCount ds) bo -> 0 < rows -> 0 < cols ->
  sample (Some (if RasterCount ds =? 1 then Arr2 (window ds 1 (x, y, cols, rows))
                else Arr3 (map (fun k : nat => window ds (0 + Z.of_nat k + 1) (x, y, cols, rows))
                               (seq 0 (Z.to_nat (RasterCount ds - 0))))))
         (RasterCount ds) bo (Some (inject_Z lx), Some (inject_Z ly))
  = if index_ok rows ly && index_ok cols lx
    then Ok (band_values ds (RasterCount ds) bo (y + ly mod rows) (x + lx mod cols))
    else Raise IndexError.
Proof.
  intros Hnb Hbo Hr Hc. unfold sample, band_values.
  rewrite !ExactFacts.truncate_inject_Z. cbn [rbind].
  destruct (Z.eqb_spec (RasterCount ds) 1) as [E|E].
  - pose proof (window_at ds 1 x y cols rows ly lx Hr Hc) as Hp.
    destruct (np_get (window ds 1 (x, y, cols, rows)) ly) as [row|e];
      cbn [rbind] in *.
    + rewrite Hp. by destruct (_ && _).
    + revert Hp. destruct (_ && _); intros Hp; [discriminate | by injection Hp as ->].
  - destruct (Hbo E) as [Hne Hall].
    assert (Hrows : map_result
              (fun p => let* row := np_get p ly in np_get row lx)
              (map (fun b => window ds (b + 1) (x, y, cols, rows)) bo)
            = if index_ok rows ly && index_ok cols lx
              then Ok (map (fun b => pixel ds (b + 1) (y + ly mod rows) (x + lx mod cols)) bo)
              else Raise IndexError).
    { rewrite map_result_fmap. destruct (index_ok rows ly && index_ok cols lx) eqn:Ein.
      - apply map_result_map. intros b _. by rewrite window_at, Ein by lia.
      - apply map_result_first_raise; [done|]. intros b _.
        by rewrite window_at, Ein by lia. }
    destruct bo as [|b0 bo']; [done|].
    rewrite (map_result_map _ (fun b => window ds (b + 1) (x, y, cols, rows))).
    2:{ intros b Hb. rewrite Forall_forall in Hall. specialize (Hall b Hb).
        rewrite np_get_seq.
        assert (index_ok (Z.of_nat (Z.to_nat (RasterCount ds - 0))) b = true) as ->
          by (apply index_ok_spec; lia).
        rewrite Z.mod_small by lia. do 2 f_equal. lia. }
    cbn [rbind]. exact Hrows.
Qed.

Section Positions.
Variable ExportToWkt : Q * Q -> Q * Q.

(** The values a tile of the raster gives for a point: the coordinates
    read back from the point's text are located from the tile's tie point,
    at their pixel in the raster less the first pixel of the block, and the
    tile's array is indexed there as numpy does. *)
Lemma tile_sample_at (r : Raster Q) (bo : list Z) (tl : Tile Q) (X Y : Q)
    (x y cols rows : Z) :
  ~ (gt1 (transform r) == 0)%Q -> ~ (gt5 (transform r) == 0)%Q ->
  1 <= nbands r -> bands_in_range (nbands r) bo ->
  tile_of r tl -> block_coords tl = (x, y, cols, rows) -> 0 < cols -> 0 < rows ->
  let lx := fst (sampled_pixel ExportToWkt (transform r) X Y) - x in
  let ly := snd (sampled_pixel ExportToWkt (transform r) X Y) - y in
  tile_sample ExportToWkt r bo tl (Point X Y)
  = if index_ok rows ly && index_ok cols lx
    then Ok (band_values (datasource r) (nbands r) bo (y + ly mod rows) (x + lx mod cols))
    else Raise IndexError.
Proof.
  intros Hw Hh Hnb Hbo [Hanch Hin] Hb Hc Hr. cbv zeta. rewrite Hb in Hin.
  unfold tile_sample, sampled_pixel. unfold nbands, nrows, ncols, shape in *.
  cbn [fst snd] in *.
  rewrite Hb. rewrite read_block_windows by lia. cbn [rbind samp_coord].
  destruct (ExportToWkt (X, Y)) as [X' Y']. cbn [fst snd].
  rewrite (locate_in_tile (transform r) tl X' Y' x y cols rows) by assumption.
  cbn [rbind]. by apply sample_at.
Qed.

Lemma tile_sample_in_block (r : Raster Q) (bo : list Z) (tl : Tile Q) (g : Geom Q) :
  ~ (gt1 (transform r) == 0)%Q -> ~ (gt5 (transform r) == 0)%Q ->
  1 <= nbands r -> bands_in_range (nbands r) bo -> tile_of r tl ->
  located_in ExportToWkt (transform r) tl g = true ->
  exists X Y, g = Point X Y /\
    tile_sample ExportToWkt r bo tl g
    = Ok (band_values (datasource r) (nbands r) bo
            (snd (sampled_pixel ExportToWkt (transform r) X Y))
            (fst (sampled_pixel ExportToWkt (transform r) X Y))).
Proof.
  intros Hw Hh Hnb Hbo Htile Hin. destruct g as [X Y|]; [|discriminate].
  exists X, Y. split; [reflexivity|]. cbn [located_in] in Hin.
  destruct (block_coords tl) as [[[x y] cols] rows] eqn:Eb. unfold in_block in Hin.
  apply andb_prop in Hin as [Hin H4]. apply andb_prop in Hin as [Hin H3].
  apply andb_prop in Hin as [H1 H2].
  apply Z.leb_le in H1, H3. apply Z.ltb_lt in H2, H4.
  rewrite (tile_sample_at r bo tl X Y x y cols rows) by (assumption || lia).
  assert (index_ok rows (snd (sampled_pixel ExportToWkt (transform r) X Y) - y)
          && index_ok cols (fst (sampled_pixel ExportToWkt (transform r) X Y) - x) = true)
    as -> by (apply andb_true_intro; split; apply index_ok_spec; lia).
  rewrite !Z.mod_small by lia. do 2 f_equal; lia.
Qed.

(** What a tile of the raster gives for a point, by the place of the pixel
    at which the point is looked up: the pixel [(gx, gy)] of the raster that
    holds the coordinates read back from the point's text, which is the
    point's own pixel only when the text gives the coordinates back.  In
    the block of the tile: the values the data source holds at that pixel
    (the first band on a raster of one band, the bands of [band_order]
    otherwise), whatever the tile and its size.  At or past the last column
    or row of the block, or a whole block before it: an [IndexError].  Less
    than a block before the first column: numpy counts the negative index
    from the end, and the values returned, without an error, are those of
    the pixel one block width further right. *)
Theorem tile_sample_by_position (r : Raster Q) (bo : list Z) (tl : Tile Q) (X Y : Q)
    (x y cols rows : Z) :
  ~ (gt1 (transform r) == 0)%Q -> ~ (gt5 (transform r) == 0)%Q ->
  1 <= nbands r -> bands_in_range (nbands r) bo ->
  tile_of r tl -> block_coords tl = (x, y, cols, rows) -> 0 < cols -> 0 < rows ->
  let gx := Qfloor ((fst (ExportToWkt (X, Y)) - gt0 (transform r)) / gt1 (transform r)) in
  let gy := Qfloor ((snd (ExportToWkt (X, Y)) - gt3 (transform r)) / gt5 (transform r)) in
  (x <= gx < x + cols -> y <= gy < y + rows ->
   tile_sample ExportToWkt r bo tl (Point X Y)
   = Ok (band_values (datasource r) (nbands r) bo gy gx)) /\
  ((x + cols <= gx \/ gx < x - cols) \/ (y + rows <= gy \/ gy < y - rows) ->
   tile_sample ExportToWkt r bo tl (Point X Y) = Raise IndexError) /\
  (x - cols <= gx < x -> y <= gy < y + rows ->
   tile_sample ExportToWkt r bo tl (Point X Y)
   = Ok (band_values (datasource r) (nbands r) bo gy (gx + cols))).
Proof.
  intros Hw Hh Hnb Hbo Htile Hb Hc Hr. cbv zeta.
  rewrite (tile_sample_at r bo tl X Y x y cols rows) by assumption.
  change (Qfloor ((fst (ExportToWkt (X, Y)) - gt0 (transform r)) / gt1 (transform r)))
    with (fst (sampled_pixel ExportToWkt (transform r) X Y)).
  change (Qfloor ((snd (ExportToWkt (X, Y)) - gt3 (transform r)) / gt5 (transform r)))
    with (snd (sampled_pixel ExportToWkt (transform r) X Y)).
  set (gx := fst (sampled_pixel ExportToWkt (transform r) X Y)).
  set (gy := snd (sampled_pixel ExportToWkt (transform r) X Y)).
  unfold index_ok. split; [|split].
  - intros Hx Hy.
    destruct (Z.leb_spec (- rows) (gy - y)), (Z.ltb_spec (gy - y) rows),
             (Z.leb_spec (- cols) (gx - x)), (Z.ltb_spec (gx - x) cols);
      cbn [andb]; try lia.
    rewrite !Z.mod_small by lia. do 2 f_equal; lia.
  - intros Hout.
    destruct (Z.leb_spec (- rows) (gy - y)), (Z.ltb_spec (gy - y) rows),
             (Z.leb_spec (- cols) (gx - x)), (Z.ltb_spec (gx - x) cols);
      cbn [andb]; try reflexivity; lia.
  - intros Hx Hy.
    destruct (Z.leb_spec (- rows) (gy - y)), (Z.ltb_spec (gy - y) rows),
             (Z.leb_spec (- cols) (gx - x)), (Z.ltb_spec (gx - x) cols);
      cbn [andb]; try lia.
    rewrite (Z.mod_small (gy - y)) by lia.
    rewrite <- (Z.mod_unique (gx - x) cols (-1) (gx - x + cols)) by lia.
    do 2 f_equal; lia.
Qed.

End Positions.

Lemma make_tile_anchored (t : GeoTransform Q) (xmin xmax ymin ymax tw th x y : Z) :
  anchored t (make_tile t xmin xmax ymin ymax tw th x y).
Proof. reflexivity. Qed.

Lemma grid_cells_tile_of (r : Raster Q) (tw th : Z) (tl : Tile Q) :
  0 < tw -> 0 < th ->
  tl ∈ grid_cells (transform r) 0 (ncols r) 0 (nrows r) tw th -> tile_of r tl.
Proof.
  intros Hw Hh [k Hk]%list_elem_of_lookup.
  apply lookup_grid_cells_inv in Hk as (i & j & Hi & Hj & _ & ->).
  split; [apply make_tile_anchored|]. rewrite block_coords_make_tile.
  destruct (clipped_size 0 (ncols r) tw i Hw Hi) as (-> & ? & ? & _).
  destruct (clipped_size 0 (nrows r) th j Hh Hj) as (-> & ? & ? & _).
  lia.
Qed.

Section Values.
Variable Intersects : list (Q * Q) -> Geom Q -> bool.
Variable ExportToWkt : Q * Q -> Q * Q.

(** With positive tile sizes and a grid whose tiles are tiles of the
    raster, when OGR finds a tile to intersect a part only if the part is a
    point that is looked up in the block of that tile (the pixel that holds
    the coordinates read back from the point's text lies in the block):
    [extract_geom] returns, and the slot of every point that some tile
    intersects holds the point's identifier and the values the data source
    holds at the pixel of the coordinates read back from the text; the other
    slots are empty.  These are the values at the point's own pixel exactly
    when the text puts the point in the pixel it lies in.  The result does
    not depend on the tile size. *)
Theorem extract_geom_samples_pixels (parts : list (part Q))
    (band_order : option (list Z)) (tile_size : option (Z * Z)) (r : Raster Q) :
  let ts := tile_size_of r tile_size in
  let bo := band_order_of r band_order in
  let res := extract_geom Intersects ExportToWkt parts band_order tile_size r in
  0 < fst ts -> 0 < snd ts ->
  ~ (gt1 (transform r) == 0)%Q -> ~ (gt5 (transform r) == 0)%Q ->
  1 <= nbands r -> bands_in_range (nbands r) bo ->
  Forall (tile_of r) (tile_grid r) ->
  (forall (t : Tile Q) (p : part Q), t ∈ tile_grid (fst res) -> p ∈ parts ->
     meets Intersects t (snd p) = true ->
     located_in ExportToWkt (transform r) t (snd p) = true) ->
  exists out,
    snd res = Ok out /\ length out = length parts /\
    forall (i : nat) (id : string) (X Y : Q), parts !! i = Some (id, Point X Y) ->
      let X' := fst (ExportToWkt (X, Y)) in
      let Y' := snd (ExportToWkt (X, Y)) in
      out !! i
      = Some (if existsb (fun t => meets Intersects t (Point X Y)) (tile_grid (fst res))
              then Sampled id (band_values (datasource r) (nbands r) bo
                                 (Qfloor ((Y' - gt3 (transform r)) / gt5 (transform r)))
                                 (Qfloor ((X' - gt0 (transform r)) / gt1 (transform r))))
              else Unsampled).
Proof.
  cbv zeta. intros Htw Hth Hw Hh Hnb Hbo Hold Hmeet.
  set (res := extract_geom Intersects ExportToWkt parts band_order tile_size r) in *.
  assert (Hr0 : tile_grid (refreshed r) = tile_grid r /\ transform (refreshed r) = transform r
                /\ ncols (refreshed r) = ncols r /\ nrows (refreshed r) = nrows r)
    by (unfold refreshed; destruct (array r); done).
  destruct Hr0 as (Hg0 & Ht0 & Hc0 & Hn0).
  pose proof (make_tile_grid_cells (refreshed r) NoBounds 0 (ncols r) 0 (nrows r)
                (fst (tile_size_of r tile_size)) (snd (tile_size_of r tile_size))
                Htw Hth) as Hmk.
  cbv zeta in Hmk. rewrite Hg0, Ht0 in Hmk.
  specialize (Hmk ltac:(cbn; by rewrite Hc0, Hn0)).
  assert (Hgrid : tile_grid (fst res)
                  = tile_grid r ++ grid_cells (transform r) 0 (ncols r) 0 (nrows r)
                                     (fst (tile_size_of r tile_size))
                                     (snd (tile_size_of r tile_size))).
  { subst res. rewrite extract_geom_grid. cbv zeta.
    fold (tile_size_of r tile_size) (refreshed r). rewrite Hmk. reflexivity. }
  assert (Htiles : forall t, t ∈ tile_grid (fst res) -> tile_of r t).
  { intros t. rewrite Hgrid, elem_of_app. intros [Ht|Ht].
    - rewrite Forall_forall in Hold. by apply Hold.
    - exact (grid_cells_tile_of r _ _ t Htw Hth Ht). }
  assert (Hsample : forall (t : Tile Q) (p : part Q), t ∈ tile_grid (fst res) -> p ∈ parts ->
            meets Intersects t (snd p) = true ->
            exists X Y, snd p = Point X Y /\
              tile_sample ExportToWkt r (band_order_of r band_order) t (snd p)
              = Ok (band_values (datasource r) (nbands r) (band_order_of r band_order)
                      (snd (sampled_pixel ExportToWkt (transform r) X Y))
                      (fst (sampled_pixel ExportToWkt (transform r) X Y)))).
  { intros t p Ht Hp Hm. apply tile_sample_in_block; auto. }
  assert (Hmade : snd (make_tile_grid (fst (tile_size_of r tile_size))
                         (snd (tile_size_of r tile_size)) NoBounds (refreshed r)) = Ok tt)
    by by rewrite Hmk.
  destruct (proj2 (extract_geom_ok_iff Intersects ExportToWkt parts band_order tile_size r Hmade))
    as [out Hout].
  { intros t p Ht Hp Hm. destruct (Hsample t p Ht Hp Hm) as (X & Y & _ & Hv). by eexists. }
  exists out. fold res in Hout. split; [exact Hout|].
  destruct (extract_geom_spec Intersects ExportToWkt parts band_order tile_size r)
    as (_ & _ & Hspec).
  cbv zeta in Hspec. fold res in Hspec.
  destruct (Hspec out Hout) as [Hlen Hslots]. split; [exact Hlen|].
  intros i id X Y Hp. destruct (Hslots i (id, Point X Y) Hp) as [Hnone Hlast].
  cbn [fst snd] in *.
  destruct (last_meeting Intersects (tile_grid (fst res)) (Point X Y))
    as [Hall|(l1 & t & l2 & Hl & Ht & Hl2)].
  - rewrite existsb_never_in by done. by apply Hnone.
  - destruct (Hlast l1 t l2 Hl Ht Hl2) as (v & Hv & Hsv).
    assert (Hin : t ∈ tile_grid (fst res)).
    { rewrite Hl. apply elem_of_app. right. left. }
    destruct (Hsample t (id, Point X Y) Hin (list_elem_of_lookup_2 _ _ _ Hp) Ht)
      as (X' & Y' & [= <- <-] & Hval).
    cbn [snd] in Hval. rewrite Hval in Hsv. injection Hsv as <-.
    assert (existsb (fun t => meets Intersects t (Point X Y)) (tile_grid (fst res)) = true) as ->.
    { apply existsb_exists. exists t. split; [by apply list_elem_of_In | done]. }
    exact Hv.
Qed.

End Values.

(** On the 8 x 8 raster cut in tiles of 4 x 4, the point
    [(3.9999999999999996, 6.5)] lies in column 3, inside the block
    [(0, 0, 4, 4)].  Its text reads back as [(4, 6.5)], in column 4, the
    first column after the block. *)
Lemma tile_sample_by_position_witness :
  let tl := make_tile Examples.north_up 0 8 0 8 4 4 0 0 in
  let X := (39999999999999996 # 10000000000000000)%Q in
  (~ (gt1 (transform Examples.raster8) == 0)%Q /\
   ~ (gt5 (transform Examples.raster8) == 0)%Q /\
   1 <= nbands Examples.raster8 /\ bands_in_range (nbands Examples.raster8) [0] /\
   tile_of Examples.raster8 tl /\ block_coords tl = (0, 0, 4, 4) /\
   pixel_of (transform Examples.raster8) X (13 # 2)%Q = (3, 1) /\
   sampled_pixel Examples.text15 (transform Examples.raster8) X (13 # 2)%Q = (4, 1)) /\
  tile_sample Examples.text15 Examples.raster8 [0] tl (Point X (13 # 2)%Q)
  = Raise IndexError.
Proof.
  cbv zeta.
  assert (Hw : ~ (gt1 (transform Examples.raster8) == 0)%Q) by discriminate.
  assert (Hh : ~ (gt5 (transform Examples.raster8) == 0)%Q) by discriminate.
  assert (Hnb : 1 <= nbands Examples.raster8) by (vm_compute; discriminate).
  assert (Hbo : bands_in_range (nbands Examples.raster8) [0])
    by (intros Hne; exfalso; apply Hne; reflexivity).
  assert (Htile : tile_of Examples.raster8 (make_tile Examples.north_up 0 8 0 8 4 4 0 0))
    by (split; [reflexivity | vm_compute; repeat split; discriminate]).
  split; [do 4 (split; [assumption|]); split; [assumption|]; repeat split; reflexivity|].
  destruct (tile_sample_by_position Examples.text15 Examples.raster8 [0]
              (make_tile Examples.north_up 0 8 0 8 4 4 0 0)
              (39999999999999996 # 10000000000000000)%Q (13 # 2)%Q 0 0 4 4)
    as (_ & Hout & _);
    [exact Hw | exact Hh | exact Hnb | exact Hbo | exact Htile
    | reflexivity | reflexivity | reflexivity |].
  apply Hout. left. left. vm_compute. discriminate.
Defined.

(** Three points inside tiles of the 4 x 4 grid of the 8 x 8 raster.  The
    first lies in column 2, just left of column 3, and its text reads back
    as [(3, 5.5)]: the values are those of column 3. *)
Lemma extract_geom_samples_pixels_witness :
  let parts : list (part Q) :=
    [("1_1"%string, Point (29999999999999996 # 10000000000000000) (11 # 2));
     ("2_1"%string, Point (1 # 2) (15 # 2));
     ("3_1"%string, Point (13 # 2) (1 # 2))]%Q in
  let res := extract_geom rect_intersects Examples.text15 parts None (Some (4, 4))
               Examples.raster8 in
  (forall (t : Tile Q) (p : part Q), t ∈ tile_grid (fst res) -> p ∈ parts ->
     meets rect_intersects t (snd p) = true ->
     located_in Examples.text15 (transform Examples.raster8) t (snd p) = true) /\
  pixel_of (transform Examples.raster8) (29999999999999996 # 10000000000000000)%Q (11 # 2)%Q
  = (2, 2) /\
  exists out,
    snd res = Ok out /\
    out !! 0%nat = Some (Sampled "1_1" [pixel Examples.ds8 1 2 3]) /\
    out !! 2%nat = Some (Sampled "3_1" [pixel Examples.ds8 1 7 6]).
Proof.
  cbv zeta.
  set (parts := [("1_1"%string, Point (29999999999999996 # 10000000000000000) (11 # 2));
                 ("2_1"%string, Point (1 # 2) (15 # 2));
                 ("3_1"%string, Point (13 # 2) (1 # 2))]%Q : list (part Q)).
  assert (Hmeet : forall (t : Tile Q) (p : part Q),
    t ∈ tile_grid (fst (extract_geom rect_intersects Examples.text15 parts None (Some (4, 4))
                          Examples.raster8)) ->
    p ∈ parts -> meets rect_intersects t (snd p) = true ->
    located_in Examples.text15 (transform Examples.raster8) t (snd p) = true).
  { assert (Hall : forallb (fun t : Tile Q =>
        forallb (fun p : part Q =>
                   implb (meets rect_intersects t (snd p))
                         (located_in Examples.text15 (transform Examples.raster8) t (snd p)))
                parts)
        (tile_grid (fst (extract_geom rect_intersects Examples.text15 parts None (Some (4, 4))
                           Examples.raster8))) = true) by (vm_compute; reflexivity).
    intros t p Ht Hp Hm. rewrite forallb_forall in Hall.
    specialize (Hall t (proj1 (list_elem_of_In _ _) Ht)). rewrite forallb_forall in Hall.
    specialize (Hall p (proj1 (list_elem_of_In _ _) Hp)). rewrite Hm in Hall. exact Hall. }
  split; [exact Hmeet|]. split; [vm_compute; reflexivity|].
  destruct (extract_geom_samples_pixels rect_intersects Examples.text15 parts None (Some (4, 4))
              Examples.raster8) as (out & Hout & _ & Hslots).
  - reflexivity.
  - reflexivity.
  - discriminate.
  - discriminate.
  - vm_compute. discriminate.
  - intros Hne. exfalso. apply Hne. reflexivity.
  - constructor.
  - exact Hmeet.
  - exists out. split; [exact Hout|]. split.
    + rewrite (Hslots 0%nat "1_1"%string (29999999999999996 # 10000000000000000)%Q
                 (11 # 2)%Q eq_refl).
      vm_compute. reflexivity.
    + rewrite (Hslots 2%nat "3_1"%string (13 # 2)%Q (1 # 2)%Q eq_refl).
      vm_compute. reflexivity.
Defined.

End ExactSampling.

(** ** [get_next_tile] *)

Section NextTileFacts.
Context {R : Type} `{PyNum R}.

Lemma yield_tiles_no_array (r : Raster R) (bands : list Z) (fo : bool) (v : R)
    (tiles : list (Tile R)) (k : nat) (before : list (Tile R)) :
  tile_grid r = before ++ tiles -> k = length before ->
  yield_tiles r bands false fo v (seq k (length tiles))
  = (map (fun t => (tie_point t, None)) tiles, Ok tt).
Proof.
  revert k before. induction tiles as [|t tiles IH]; intros k before Hg ->; [done|].
  cbn [length seq yield_tiles].
  rewrite Hg, lookup_app_r, Nat.sub_diag by lia. cbn [lookup list_lookup].
  rewrite (IH (S (length before)) (before ++ [t])).
  - reflexivity.
  - by rewrite <- app_assoc.
  - rewrite length_app. cbn. lia.
Qed.

(** A run on a raster whose grid is counted: the tile sizes play no part. *)
Lemma get_next_tile_counted (r : Raster R) (bands : bands_arg R) (tw th n : Z)
    (ga fo : bool) (nr : option R) :
  ntiles r = Some n ->
  get_next_tile tw th bands ga fo nr r
  = (r, match tile_bands r bands with
        | Raise e => ([], Raise e)
        | Ok bs => yield_tiles r bs ga fo (replacement_of r nr) (seq 0 (Z.to_nat n))
        end).
Proof.
  intros Hn. unfold get_next_tile, replacement_of. rewrite Hn. cbv beta iota.
  rewrite Hn. by destruct (tile_bands r bands).
Qed.

(** A run on a raster whose grid is not counted yet. *)
Lemma get_next_tile_fresh (r : Raster R) (bands : bands_arg R) (tw th : Z)
    (ga fo : bool) (nr : option R) :
  ntiles r = None -> 0 < tw -> 0 < th ->
  let g := tile_grid r ++ grid_cells (transform r) 0 (ncols r) 0 (nrows r) tw th in
  let r' := with_grid r g (Some (Z.of_nat (length g))) in
  get_next_tile tw th bands ga fo nr r
  = (r', match tile_bands r bands with
         | Raise e => ([], Raise e)
         | Ok bs => yield_tiles r' bs ga fo (replacement_of r nr) (seq 0 (length g))
         end).
Proof.
  intros Hn Hw Hh g r'. unfold get_next_tile, replacement_of. rewrite Hn.
  rewrite (make_tile_grid_cells r NoBounds 0 (ncols r) 0 (nrows r) tw th) by done.
  fold g r'. replace (tile_bands r' bands) with (tile_bands r bands) by by destruct bands.
  destruct (tile_bands r bands); [|reflexivity].
  cbn [ntiles with_grid r' nodatavalue]. by rewrite Nat2Z.id.
Qed.

(** Without arrays, on a raster whose grid has not been counted and for
    positive tile sizes: the generator builds the grid, reads nothing and
    yields, for every tile of the grid in grid order, the tile's tie point
    and [None]; it ends without an exception.  A [bands] argument of an
    unsupported type makes it raise [ValueError] before the first tile,
    but after the grid has been built. *)
Theorem get_next_tile_tie_points (r : Raster R) (bands : bands_arg R) (bs : list Z)
    (tw th : Z) (ga fo : bool) (nr : option R) :
  ntiles r = None -> 0 < tw -> 0 < th ->
  let g := tile_grid r ++ grid_cells (transform r) 0 (ncols r) 0 (nrows r) tw th in
  let r' := with_grid r g (Some (Z.of_nat (length g))) in
  (tile_bands r bands = Ok bs ->
   get_next_tile tw th bands false fo nr r
   = (r', (map (fun t => (tie_point t, None)) g, Ok tt))) /\
  get_next_tile tw th OtherBands ga fo nr r = (r', ([], Raise ValueError)).
Proof.
  intros Hn Hw Hh g r'. split.
  - intros Hb. rewrite get_next_tile_fresh by done. rewrite Hb. fold g r'.
    by rewrite (yield_tiles_no_array r' bs fo _ g 0%nat []).
  - by rewrite get_next_tile_fresh by done.
Qed.

(** Once a run of the generator has built the grid, the tile sizes of a
    later run are ignored: it yields the tiles of the first grid again, and
    returns what the first run returned. *)
Theorem get_next_tile_keeps_grid (r : Raster R) (bands : bands_arg R)
    (tw th tw' th' : Z) (ga fo : bool) (nr : option R) :
  ntiles r = None -> 0 < tw -> 0 < th ->
  let first := get_next_tile tw th bands ga fo nr r in
  get_next_tile tw' th' bands ga fo nr (fst first) = first /\
  tile_grid (fst first)
  = tile_grid r ++ grid_cells (transform r) 0 (ncols r) 0 (nrows r) tw th.
Proof.
  intros Hn Hw Hh. cbv zeta. rewrite (get_next_tile_fresh r bands tw th) by done.
  set (g := tile_grid r ++ grid_cells (transform r) 0 (ncols r) 0 (nrows r) tw th).
  set (r' := with_grid r g (Some (Z.of_nat (length g)))).
  cbn [fst]. split; [|reflexivity].
  rewrite (get_next_tile_counted r' bands tw' th' (Z.of_nat (length g))) by reflexivity.
  replace (tile_bands r' bands) with (tile_bands r bands) by by destruct bands.
  by rewrite Nat2Z.id.
Qed.

Lemma assign_twice2 (v : R) (a : list (list R)) :
  assign_where2 is_inf v (assign_where2 is_nan v a)
  = map (map (fun x => if is_nan x || is_inf x then v else x)) a.
Proof.
  unfold assign_where2. rewrite !map_map.
  apply map_ext; intros row. rewrite !map_map. apply map_ext; intros x.
  destruct (is_nan x); cbn; [by destruct (is_inf v)|done].
Qed.

Lemma finite2_id (v : R) (a : list (list R)) :
  any2 is_nan a || any2 is_inf a = false ->
  map (map (fun x => if is_nan x || is_inf x then v else x)) a = a.
Proof.
  intros Hn. apply orb_false_elim in Hn as [Hnan Hinf]. unfold any2 in *.
  induction a as [|row a IHa]; [done|]. cbn in *.
  apply orb_false_elim in Hnan as [Hr1 Ha1]. apply orb_false_elim in Hinf as [Hr2 Ha2].
  rewrite IHa by done. f_equal. clear IHa Ha1 Ha2.
  induction row as [|x row IHr]; [done|]. cbn in *.
  apply orb_false_elim in Hr1 as [-> Hr1]. apply orb_false_elim in Hr2 as [-> Hr2].
  by rewrite IHr.
Qed.

(** The array of one tile: for bands of the raster and a block inside it,
    nothing raises and the array holds the pixels of the block, made
    finite when [finite_only] is set. *)
Lemma next_tile_array_pixels (r : Raster R) (bs : list Z) (tl : Tile R) (fo : bool) (v : R)
    (x y cols rows : Z) :
  Forall (fun b => 1 <= b <= nbands r) bs ->
  block_coords tl = (x, y, cols, rows) ->
  0 <= x -> 0 <= y -> 0 < cols -> 0 < rows -> x + cols <= ncols r -> y + rows <= nrows r ->
  next_tile_array r bs tl fo v
  = Ok (let a := tile_pixels (datasource r) bs (x, y, cols, rows) in
        if fo then finite_version v a else a).
Proof.
  intros Hbs Hb Hx Hy Hc Hr Hxs Hys. unfold next_tile_array. rewrite Hb.
  unfold nbands, ncols, nrows, shape in *. cbn [fst snd] in *.
  assert (Hread : forall b, b ∈ bs ->
            ReadAsArray (datasource r) b (x, y, cols, rows)
            = Ok (window (datasource r) b (x, y, cols, rows))).
  { intros b Hin. rewrite Forall_forall in Hbs. apply ReadAsArray_window; auto. }
  assert (Hmulti :
    (if (cols <? 0) || (rows <? 0) then Raise ValueError
     else let* a := map_result (fun b => ReadAsArray (datasource r) b (x, y, cols, rows)) bs in
          Ok (Arr3 a))
    = Ok (Arr3 (map (fun b => window (datasource r) b (x, y, cols, rows)) bs))).
  { destruct (Z.ltb_spec cols 0); [lia|]. destruct (Z.ltb_spec rows 0); [lia|]. cbn [orb].
    by rewrite (map_result_map _ (fun b => window (datasource r) b (x, y, cols, rows))). }
  assert (Hfin2 : forall a : list (list R),
    (if any2 is_nan a || any2 is_inf a
     then Ok (Arr2 (assign_where2 is_inf v (assign_where2 is_nan v a)))
     else Ok (Arr2 a)) = Ok (finite_version v (Arr2 a))).
  { intros a. cbn [finite_version]. destruct (any2 is_nan a || any2 is_inf a) eqn:E.
    - by rewrite assign_twice2.
    - by rewrite finite2_id. }
  assert (Hfin3 : forall a : list (list (list R)),
    (if any3 is_nan a || any3 is_inf a
     then Ok (Arr3 (assign_where is_inf v (assign_where is_nan v a)))
     else Ok (Arr3 a)) = Ok (finite_version v (Arr3 a))).
  { intros a. cbn [finite_version]. destruct (any3 is_nan a || any3 is_inf a) eqn:E.
    - by rewrite assign_twice.
    - by rewrite make_finite_id. }
  destruct bs as [|b1 [|b2 bs]].
  - rewrite Hmulti. cbn [rbind tile_pixels map]. destruct fo; [apply Hfin3 | reflexivity].
  - rewrite (Hread b1) by left. cbn [rbind tile_pixels].
    destruct fo; [apply Hfin2 | reflexivity].
  - rewrite Hmulti. cbn [rbind tile_pixels]. destruct fo; [apply Hfin3 | reflexivity].
Qed.

Lemma yield_tiles_arrays (r : Raster R) (bs : list Z) (fo : bool) (v : R)
    (tiles : list (Tile R)) (k : nat) (before : list (Tile R)) :
  Forall (fun b => 1 <= b <= nbands r) bs ->
  (forall t, t ∈ tiles ->
     let '(x, y, cols, rows) := block_coords t in
     0 <= x /\ 0 <= y /\ 0 < cols /\ 0 < rows /\ x + cols <= ncols r /\ y + rows <= nrows r) ->
  tile_grid r = before ++ tiles -> k = length before ->
  yield_tiles r bs true fo v (seq k (length tiles))
  = (map (fun t => (tie_point t,
                    Some (let a := tile_pixels (datasource r) bs (block_coords t) in
                          if fo then finite_version v a else a))) tiles, Ok tt).
Proof.
  intros Hbs. revert k before. induction tiles as [|t tiles IH]; intros k before Hin Hg ->;
    [done|].
  cbn [length seq yield_tiles].
  rewrite Hg, lookup_app_r, Nat.sub_diag by lia. cbn [lookup list_lookup].
  specialize (Hin t ltac:(left)) as Ht.
  destruct (block_coords t) as [[[x y] cols] rows] eqn:Eb.
  rewrite (next_tile_array_pixels r bs t fo v x y cols rows) by (try done; lia).
  cbn [rbind]. rewrite (IH (S (length before)) (before ++ [t])).
  - cbn [map]. by rewrite Eb.
  - intros t' Ht'. apply Hin. by right.
  - by rewrite <- app_assoc.
  - rewrite length_app. cbn. lia.
Qed.

Lemma grid_cells_blocks (r : Raster R) (tw th : Z) (t : Tile R) :
  0 < tw -> 0 < th ->
  t ∈ grid_cells (transform r) 0 (ncols r) 0 (nrows r) tw th ->
  let '(x, y, cols, rows) := block_coords t in
  0 <= x /\ 0 <= y /\ 0 < cols /\ 0 < rows /\ x + cols <= ncols r /\ y + rows <= nrows r.
Proof.
  intros Hw Hh [k Hk]%list_elem_of_lookup.
  apply lookup_grid_cells_inv in Hk as (i & j & Hi & Hj & _ & ->).
  rewrite block_coords_make_tile.
  destruct (clipped_size 0 (ncols r) tw i Hw Hi) as (-> & ? & ? & _).
  destruct (clipped_size 0 (nrows r) th j Hh Hj) as (-> & ? & ? & _).
  lia.
Qed.

(** With arrays, on a raster without a grid, for positive tile sizes and
    bands of the raster: the generator raises nothing and yields, for the
    tiles of the grid in row-major order, the tie point of the tile and the
    pixels of its block in the chosen bands (a list counts bands from 0, a
    number from 1), with every [nan] and infinity replaced when
    [finite_only] is set. *)
Theorem get_next_tile_arrays (r : Raster R) (bands : bands_arg R) (bs : list Z)
    (tw th : Z) (fo : bool) (nr : option R) :
  ntiles r = None -> tile_grid r = [] -> 0 < tw -> 0 < th ->
  tile_bands r bands = Ok bs -> Forall (fun b => 1 <= b <= nbands r) bs ->
  let g := grid_cells (transform r) 0 (ncols r) 0 (nrows r) tw th in
  get_next_tile tw th bands true fo nr r
  = (with_grid r g (Some (Z.of_nat (length g))),
     (map (fun t =>
             (tie_point t,
              Some (let a := tile_pixels (datasource r) bs (block_coords t) in
                    if fo then finite_version (replacement_of r nr) a else a))) g,
      Ok tt)).
Proof.
  intros Hn Hg0 Hw Hh Hb Hbs g. rewrite get_next_tile_fresh by done.
  rewrite Hb, Hg0. cbn [app]. fold g.
  set (r' := with_grid r g (Some (Z.of_nat (length g)))).
  rewrite (yield_tiles_arrays r' bs fo _ g 0%nat []); try done.
  intros t Ht. by apply (grid_cells_blocks r tw th).
Qed.

End NextTileFacts.

(** The 8 x 8 raster cut in tiles of 4 x 4: four tie points, row by row. *)
Lemma get_next_tile_tie_points_witness :
  (ntiles Examples.raster8 = None /\ 0 < 4 /\
   tile_bands Examples.raster8 AllBands = Ok [1]) /\
  snd (get_next_tile 4 4 AllBands false true None Examples.raster8)
  = ([((0, 8)%Q, None); ((4, 8)%Q, None); ((0, 4)%Q, None); ((4, 4)%Q, None)], Ok tt).
Proof.
  split; [repeat split|].
  destruct (get_next_tile_tie_points Examples.raster8 AllBands [1] 4 4 false true None)
    as [Hrun _]; [reflexivity | reflexivity | reflexivity |].
  rewrite Hrun by reflexivity. vm_compute. reflexivity.
Defined.

(** A second run that asks for tiles of 2 x 2 yields the four tiles of
    4 x 4 again. *)
Lemma get_next_tile_keeps_grid_witness :
  (ntiles Examples.raster8 = None /\ 0 < 4) /\
  get_next_tile 2 2 (OneBand 1) true true None
    (fst (get_next_tile 4 4 (OneBand 1) true true None Examples.raster8))
  = get_next_tile 4 4 (OneBand 1) true true None Examples.raster8.
Proof.
  split; [repeat split|].
  apply (get_next_tile_keeps_grid Examples.raster8 (OneBand 1) 4 4 2 2 true true None);
    reflexivity.
Defined.

(** The list [[0]] names the first band, as the number 1 does; the last
    of the four tiles holds the pixels of the rows and columns 4 to 7. *)
Lemma get_next_tile_arrays_witness :
  (ntiles Examples.raster8 = None /\ tile_grid Examples.raster8 = [] /\ 0 < 4 /\
   tile_bands Examples.raster8 (BandList [0]) = Ok [1] /\
   Forall (fun b => 1 <= b <= nbands Examples.raster8) [1]) /\
  fst (snd (get_next_tile 4 4 (BandList [0]) true false None Examples.raster8)) !! 3%nat
  = Some ((4, 4)%Q, Some (Arr2 (window Examples.ds8 1 (4, 4, 4, 4)))).
Proof.
  assert (Hbs : Forall (fun b => 1 <= b <= nbands Examples.raster8) [1])
    by (constructor; [vm_compute; split; discriminate | constructor]).
  split; [repeat split; exact Hbs|].
  rewrite (get_next_tile_arrays Examples.raster8 (BandList [0]) [1] 4 4 false None);
    [|reflexivity | reflexivity | reflexivity | reflexivity | reflexivity | exact Hbs].
  vm_compute. reflexivity.
Defined.

(** ** The ring of a tile, [get_bounds] and [read_array] *)

Module ExactRing.
Import Exact.

Lemma ring_coord (n c : Z) (s t : Q) :
  Qred (Qred (Qred (Qred (inject_Z n * s) + t) + inject_Z 0) + Qred (s * inject_Z c))
  = Qred (Qred (Qred (inject_Z (n + c) * s) + t) + inject_Z 0).
Proof.
  apply Qred_complete. rewrite !Qred_correct, inject_Z_plus.
  change (inject_Z 0) with 0%Q. ring.
Qed.

#[local] Opaque Qred Qplus Qmult inject_Z.

(** In exact arithmetic the ring of a tile is made of the corners that
    [get_coords] gives for the four corner pixels of its block, the first
    one again at the end: tiles that are neighbours in the grid share the
    vertices of their common edge. *)
Theorem tile_ring_corners (t : GeoTransform Q) (xmin xmax ymin ymax tw th x y : Z) :
  let tl := make_tile t xmin xmax ymin ymax tw th x y in
  let cols := snd (fst (block_coords tl)) in
  let rows := snd (block_coords tl) in
  bound_coords tl
  = get_coords [(x, y); (x + cols, y); (x + cols, y + rows); (x, y + rows); (x, y)]
               (gt1 t, gt5 t) (gt0 t, gt3 t) false /\
  tie_point tl = hd (0, 0)%Q (bound_coords tl).
Proof.
  cbv zeta. split; [|reflexivity].
  cbn [block_coords make_tile bound_coords fst snd get_coords map hd
       of_int add mul exact_num].
  by rewrite !ring_coord.
Qed.

#[local] Transparent Qred Qplus Qmult inject_Z.

Lemma scaled_abs (s : Q) (n : Z) :
  0 < n -> ((Qabs s * inject_Z n == s * inject_Z n)%Q <-> (0 <= s)%Q).
Proof.
  intros Hn. assert (Hpos : (0 < inject_Z n)%Q)
    by (change (inject_Z 0 < inject_Z n)%Q; rewrite <- Zlt_Qlt; exact Hn).
  split.
  - intros E. apply Qmult_inj_r in E; [|intros E0; rewrite E0 in Hpos; discriminate].
    rewrite <- E. apply Qabs_nonneg.
  - intros Hs. by rewrite Qabs_pos.
Qed.

Lemma scaled_abs_neg (s : Q) (n : Z) :
  0 < n -> ((- (Qabs s * inject_Z n) == s * inject_Z n)%Q <-> (s <= 0)%Q).
Proof.
  intros Hn. assert (Hpos : (0 < inject_Z n)%Q)
    by (change (inject_Z 0 < inject_Z n)%Q; rewrite <- Zlt_Qlt; exact Hn).
  split.
  - intros E. assert (E' : (- Qabs s * inject_Z n == s * inject_Z n)%Q)
      by (rewrite <- E; ring).
    apply Qmult_inj_r in E'; [|intros E0; rewrite E0 in Hpos; discriminate].
    rewrite <- E'. apply (Qopp_le_compat 0). apply Qabs_nonneg.
  - intros Hs. rewrite Qabs_neg by exact Hs. ring.
Qed.

(** [get_bounds] takes the pixel sizes in absolute value and steps right
    and down from the tie point.  In exact arithmetic, on a raster that is
    not empty, its ring is the ring of the tile of the whole raster exactly
    when the pixel width is not negative and the pixel height not
    positive (a north-up raster); for any other raster the two rings
    differ. *)
Theorem get_bounds_north_up (r : Raster Q) :
  0 < ncols r -> 0 < nrows r ->
  exists ring,
    get_bounds r true = Ring ring /\
    (Forall2 same_point ring (bound_coords (whole_tile r)) <->
     (0 <= gt1 (transform r))%Q /\ (gt5 (transform r) <= 0)%Q).
Proof.
  intros Hc Hr. eexists. split; [reflexivity|].
  unfold whole_tile.
  cbn [make_tile bound_coords fst snd get_coords map hd of_int add sub mul exact_num
       xpixel ypixel py_abs exact_abs].
  destruct (Z.ltb_spec (0 + ncols r) (ncols r)); [lia|].
  destruct (Z.ltb_spec (0 + nrows r) (nrows r)); [lia|].
  rewrite !Z.sub_0_r.
  set (pw := gt1 (transform r)). set (ph := gt5 (transform r)).
  set (tx := gt0 (transform r)). set (ty := gt3 (transform r)).
  assert (Ex : (Qred (tx + Qred (Qabs pw * inject_Z (ncols r)))
                == Qred (Qred (Qred (Qred (inject_Z 0 * pw) + tx) + inject_Z 0)
                         + Qred (pw * inject_Z (ncols r))))%Q
               <-> (0 <= pw)%Q).
  { rewrite <- (scaled_abs pw (ncols r) Hc). rewrite !Qred_correct.
    change (inject_Z 0) with 0%Q. split; intros E.
    - apply (Qplus_inj_l _ _ tx). rewrite E. ring.
    - rewrite E. ring. }
  assert (Ey : (Qred (ty - Qred (Qabs ph * inject_Z (nrows r)))
                == Qred (Qred (Qred (Qred (inject_Z 0 * ph) + ty) + inject_Z 0)
                         + Qred (ph * inject_Z (nrows r))))%Q
               <-> (ph <= 0)%Q).
  { rewrite <- (scaled_abs_neg ph (nrows r) Hr). rewrite !Qred_correct.
    change (inject_Z 0) with 0%Q. split; intros E.
    - assert (E1 : (- (Qabs ph * inject_Z (nrows r))
                    == (ty - Qabs ph * inject_Z (nrows r)) - ty)%Q) by ring.
      rewrite E1, E. ring.
    - assert (E1 : (ty - Qabs ph * inject_Z (nrows r)
                    == ty + - (Qabs ph * inject_Z (nrows r)))%Q) by ring.
      rewrite E1, E. ring. }
  assert (Etx : (tx == Qred (Qred (Qred (inject_Z 0 * pw) + tx) + inject_Z 0))%Q)
    by (rewrite !Qred_correct; change (inject_Z 0) with 0%Q; ring).
  assert (Ety : (ty == Qred (Qred (Qred (inject_Z 0 * ph) + ty) + inject_Z 0))%Q)
    by (rewrite !Qred_correct; change (inject_Z 0) with 0%Q; ring).
  split.
  - intros Hall.
    apply Forall2_cons_1 in Hall as [_ Hall].
    apply Forall2_cons_1 in Hall as [[H1 _] Hall].
    apply Forall2_cons_1 in Hall as [[_ H2] _].
    cbn [fst snd] in H1, H2. split; [by apply Ex | by apply Ey].
  - intros [Hw Hh]. apply Ex in Hw. apply Ey in Hh.
    repeat (constructor; [split; cbn [fst snd]; assumption|]).
    constructor.
Qed.

End ExactRing.

(** A raster whose rows run upwards: the ring of [get_bounds] goes below
    the tie point, the ring of the tile above it. *)
Lemma get_bounds_north_up_witness :
  let south_up : DataSource Q :=
    {| RasterCount := 1; RasterYSize := 8; RasterXSize := 8;
       GetGeoTransform := {| gt0 := 0; gt1 := 1; gt2 := 0; gt3 := 0; gt4 := 0; gt5 := 1 |}%Q;
       GetNoDataValue := None; pixel b i j := 0%Q |} in
  (0 < ncols (initialized south_up) /\ 0 < nrows (initialized south_up)) /\
  exists ring,
    get_bounds (initialized south_up) true = Ring ring /\
    ~ Forall2 same_point ring (bound_coords (whole_tile (initialized south_up))).
Proof.
  cbv zeta. split; [split; reflexivity|].
  destruct (ExactRing.get_bounds_north_up
              (initialized
                 {| RasterCount := 1; RasterYSize := 8; RasterXSize := 8;
                    GetGeoTransform :=
                      {| gt0 := 0; gt1 := 1; gt2 := 0; gt3 := 0; gt4 := 0; gt5 := 1 |}%Q;
                    GetNoDataValue := None; pixel b i j := 0%Q |}))
    as (ring & Hring & Hiff); [reflexivity | reflexivity |].
  exists ring. split; [exact Hring|].
  intros Hall. apply Hiff in Hall as [_ Hh]. vm_compute in Hh. by apply Hh.
Defined.

Section ReadArray.
Context {R : Type} `{PyNum R}.

Lemma read_block_outside (ds : DataSource R) (x y cols rows : Z) :
  1 <= RasterCount ds -> 0 < cols -> 0 < rows ->
  x < 0 \/ y < 0 \/ RasterXSize ds < x + cols \/ RasterYSize ds < y + rows ->
  read_block ds (RasterCount ds) (x, y, cols, rows) = Raise RuntimeError.
Proof.
  intros Hnb Hc Hr Hout. unfold read_block.
  destruct (Z.ltb_spec (RasterCount ds) 0); [lia|].
  destruct (Z.ltb_spec rows 0); [lia|]. destruct (Z.ltb_spec cols 0); [lia|]. cbn [orb].
  destruct (Z.ltb_spec (RasterCount ds) 1); [lia|].
  unfold range.
  destruct (Z.to_nat (RasterCount ds - 0)) as [|n] eqn:En; [lia|].
  cbn [seq map map_result]. rewrite ReadAsArray_outside by (assumption || lia).
  reflexivity.
Qed.

Lemma read_block_negative (ds : DataSource R) (nb x y cols rows : Z) :
  cols < 0 \/ rows < 0 -> read_block ds nb (x, y, cols, rows) = Raise ValueError.
Proof.
  intros Hneg. unfold read_block.
  destruct (Z.ltb_spec nb 0), (Z.ltb_spec rows 0), (Z.ltb_spec cols 0);
    cbn [orb]; try reflexivity; lia.
Qed.

(** The state [read_array] leaves, on a raster with at least one band.
    The offsets are stored and the read is logged before anything is read.
    For a window inside the raster the array becomes the pixels of the
    window, two dimensions for one band and one plane for each band
    otherwise; for a window without a column or without a row the call
    returns as well, wherever the window lies, and the array holds no
    value.  For a window with columns and rows that reaches outside the
    raster the call raises [RuntimeError], for a negative size
    [ValueError]; the array then keeps what it held, while [array_offsets]
    already names the new window. *)
Theorem read_array_state (r : Raster R) (offsets : option block) (x y cols rows : Z) :
  match offsets with Some o => o | None => (0, 0, ncols r, nrows r) end
  = (x, y, cols, rows) ->
  1 <= nbands r ->
  let res := read_array offsets r in
  array_offsets (fst res) = Some (x, y, cols, rows) /\
  reads (fst res) = reads r ++ [(x, y, cols, rows)] /\
  (0 <= cols -> 0 <= rows ->
   cols = 0 \/ rows = 0 \/
   (0 <= x /\ 0 <= y /\ x + cols <= ncols r /\ y + rows <= nrows r) ->
   snd res = Ok tt /\
   array (fst res)
   = Some (if nbands r =? 1 then Arr2 (window (datasource r) 1 (x, y, cols, rows))
           else Arr3 (map (fun b => window (datasource r) (b + 1) (x, y, cols, rows))
                          (range 0 (nbands r))))) /\
  (0 < cols -> 0 < rows ->
   x < 0 \/ y < 0 \/ ncols r < x + cols \/ nrows r < y + rows ->
   snd res = Raise RuntimeError /\ array (fst res) = array r) /\
  (cols < 0 \/ rows < 0 ->
   snd res = Raise ValueError /\ array (fst res) = array r).
Proof.
  intros Hoffs Hnb. cbv zeta. unfold read_array. rewrite Hoffs.
  unfold nbands, ncols, nrows, shape in *. cbn [fst snd] in *.
  split; [by destruct (read_block _ _ _)|]. split; [by destruct (read_block _ _ _)|].
  split; [|split].
  - intros Hc Hr Hin. rewrite read_block_ok by assumption. cbn [fst snd].
    split; [reflexivity|]. cbn [array with_array]. do 2 f_equal.
    unfold range. by rewrite map_map.
  - intros Hc Hr Hout. rewrite read_block_outside by assumption. by split.
  - intros Hneg. rewrite read_block_negative by assumption. by split.
Qed.

End ReadArray.

(** On the 8 x 8 raster, after a window inside it: a window that ends one
    column past the raster is refused and the array stays; a window
    without a column that starts past the raster is read, and the array
    becomes two empty rows. *)
Lemma read_array_state_witness :
  let r1 := fst (read_array (Some (0, 0, 4, 4)) Examples.raster8) in
  let res := read_array (Some (5, 0, 4, 4)) r1 in
  let res0 := read_array (Some (9, 0, 0, 2)) r1 in
  (Some (5, 0, 4, 4) = Some (5, 0, 4, 4) /\ 1 <= nbands r1) /\
  (snd res = Raise RuntimeError /\ array (fst res) = array r1 /\
   array_offsets (fst res) = Some (5, 0, 4, 4)) /\
  (snd res0 = Ok tt /\ array (fst res0) = Some (Arr2 [[]; []]) /\
   array_offsets (fst res0) = Some (9, 0, 0, 2)).
Proof.
  cbv zeta.
  assert (Hnb : 1 <= nbands (fst (read_array (Some (0, 0, 4, 4)) Examples.raster8)))
    by (vm_compute; discriminate).
  split; [split; [reflexivity | exact Hnb]|]. split.
  - destruct (read_array_state (fst (read_array (Some (0, 0, 4, 4)) Examples.raster8))
                (Some (5, 0, 4, 4)) 5 0 4 4 eq_refl Hnb)
      as (Hoffs & _ & _ & Hfail & _).
    destruct Hfail as [Hres Harr]; [lia | lia | right; right; left; vm_compute; reflexivity |].
    split; [exact Hres|]. split; [exact Harr | exact Hoffs].
  - destruct (read_array_state (fst (read_array (Some (0, 0, 4, 4)) Examples.raster8))
                (Some (9, 0, 0, 2)) 9 0 0 2 eq_refl Hnb)
      as (Hoffs & _ & Hok & _).
    destruct Hok as [Hres Harr]; [lia | lia | left; reflexivity |].
    split; [exact Hres|]. split; [|exact Hoffs].
    rewrite Harr. vm_compute. reflexivity.
Defined.

(** ** CRS bounds in exact arithmetic *)

Module ExactWindow.
Import Exact.

Lemma np_min2_inject (a b : Z) : np_min2 (inject_Z a) (inject_Z b) = inject_Z (Z.min a b).
Proof.
  unfold np_min2. cbn [is_nan ltb exact_num]. unfold Qle_bool. cbn [Qnum Qden inject_Z].
  rewrite !Z.mul_1_r. destruct (Z.leb_spec a b); cbn [negb].
  - by rewrite Z.min_l by lia.
  - by rewrite Z.min_r by lia.
Qed.

Lemma np_max2_inject (a b : Z) : np_max2 (inject_Z a) (inject_Z b) = inject_Z (Z.max a b).
Proof.
  unfold np_max2. cbn [is_nan ltb exact_num]. unfold Qle_bool. cbn [Qnum Qden inject_Z].
  rewrite !Z.mul_1_r. destruct (Z.leb_spec b a); cbn [negb].
  - by rewrite Z.max_l by lia.
  - by rewrite Z.max_r by lia.
Qed.

#[local] Opaque Qfloor Qred Qdiv Qplus Qminus Qmult inject_Z.

(** In exact arithmetic and for a pixel size without a zero, the window
    that [get_pixel_bounds] makes of CRS bounds: each bound is located by
    the floor of its offset from the tie point in pixels; the window runs
    from the smaller to the larger located column and row, whatever the
    signs of the pixel size, and is then clamped to the raster.  The pixel
    that holds the far corner is the end of the window: bounds that fall
    in one column, or in one row, of pixels raise [ValueError]. *)
Theorem get_pixel_bounds_crs_floors (r : Raster Q) (bx0 bx1 by0 by1 : Q) :
  ~ (gt1 (transform r) == 0)%Q -> ~ (gt5 (transform r) == 0)%Q ->
  let qx0 := fst (pixel_of (transform r) bx0 by0) in
  let qy0 := snd (pixel_of (transform r) bx0 by0) in
  let qx1 := fst (pixel_of (transform r) bx1 by1) in
  let qy1 := snd (pixel_of (transform r) bx1 by1) in
  crs_window r (bx0, bx1, by0, by1)
  = Ok (Z.min qx0 qx1, Z.max qx0 qx1, Z.min qy0 qy1, Z.max qy0 qy1) /\
  get_pixel_bounds r (CrsBounds (bx0, bx1, by0, by1))
  = clamp_bounds r (Z.min qx0 qx1, Z.max qx0 qx1, Z.min qy0 qy1, Z.max qy0 qy1) /\
  (qx0 = qx1 \/ qy0 = qy1 ->
   get_pixel_bounds r (CrsBounds (bx0, bx1, by0, by1)) = Raise ValueError).
Proof.
  intros Hw Hh. cbv zeta. unfold pixel_of. cbn [fst snd].
  set (qx0 := Qfloor ((bx0 - gt0 (transform r)) / gt1 (transform r))).
  set (qx1 := Qfloor ((bx1 - gt0 (transform r)) / gt1 (transform r))).
  set (qy0 := Qfloor ((by0 - gt3 (transform r)) / gt5 (transform r))).
  set (qy1 := Qfloor ((by1 - gt3 (transform r)) / gt5 (transform r))).
  assert (Hwin : crs_window r (bx0, bx1, by0, by1)
                 = Ok (Z.min qx0 qx1, Z.max qx0 qx1, Z.min qy0 qy1, Z.max qy0 qy1)).
  { unfold crs_window, crs_corners, get_locations.
    cbn [map_result locate fst snd floordiv sub exact_num].
    rewrite !ExactFacts.qfloordiv_nonzero by assumption. cbn [rbind].
    rewrite !ExactFacts.Qfloor_Qred_div. fold qx0 qx1 qy0 qy1.
    cbn [column map_result fst snd rbind np_min np_max fold_left].
    rewrite !np_min2_inject, !np_max2_inject, !ExactFacts.truncate_inject_Z.
    cbn [rbind]. do 2 f_equal; [f_equal; [f_equal|]|]; lia. }
  split; [exact Hwin|]. split.
  - unfold get_pixel_bounds. by rewrite Hwin.
  - intros Hsame. unfold get_pixel_bounds. rewrite Hwin. cbn [rbind].
    rewrite clamp_bounds_spec.
    destruct (Z.leb_spec (Z.min (ncols r) (Z.max qx0 qx1)) (Z.max 0 (Z.min qx0 qx1)));
      [reflexivity|].
    destruct (Z.leb_spec (Z.min (nrows r) (Z.max qy0 qy1)) (Z.max 0 (Z.min qy0 qy1)));
      [reflexivity|].
    lia.
Qed.

Lemma get_pixel_bounds_crs_floors_witness :
  (~ (gt1 (transform Examples.raster8) == 0)%Q /\
   ~ (gt5 (transform Examples.raster8) == 0)%Q) /\
  get_pixel_bounds Examples.raster8 (CrsBounds (3 # 2, 13 # 2, 5 # 2, 15 # 2)%Q)
  = clamp_bounds Examples.raster8 (1, 6, 0, 5) /\
  get_pixel_bounds Examples.raster8 (CrsBounds (21 # 10, 29 # 10, 5 # 2, 15 # 2)%Q)
  = Raise ValueError.
Proof.
  split; [split; discriminate|]. split.
  - apply (get_pixel_bounds_crs_floors Examples.raster8 (3 # 2) (13 # 2) (5 # 2) (15 # 2));
      discriminate.
  - apply (get_pixel_bounds_crs_floors Examples.raster8 (21 # 10) (29 # 10) (5 # 2) (15 # 2));
      [discriminate | discriminate | left; vm_compute; reflexivity].
Defined.

End ExactWindow.

(** ** [get_pixel_bounds] with CRS bounds *)

Module ExactBounds.
Import Exact.

Section Corners.
Variable r : Raster Q.
Variables bx0 bx1 by0 by1 : Q.

Lemma zero_pixel_size :
  (gt1 (transform r) == 0)%Q \/ (gt5 (transform r) == 0)%Q ->
  crs_window r (bx0, bx1, by0, by1) = Raise ZeroDivisionError.
Proof.
  intros Hz. unfold crs_window, crs_corners, get_locations.
  cbn [map_result locate fst snd floordiv exact_num]. unfold qfloordiv.
  destruct (Qeq_bool (gt1 (transform r)) 0) eqn:Ew; [reflexivity|]. cbn [rbind].
  destruct (Qeq_bool (gt5 (transform r)) 0) eqn:Eh; [reflexivity|].
  destruct Hz as [Hz|Hz]; apply Qeq_bool_iff in Hz; congruence.
Qed.

#[local] Opaque Qfloor Qred Qdiv Qplus Qminus Qmult inject_Z.

Lemma crs_window_corners :
  ~ (gt1 (transform r) == 0)%Q -> ~ (gt5 (transform r) == 0)%Q ->
  let c1 := pixel_of (transform r) bx0 by1 in
  let c2 := pixel_of (transform r) bx1 by1 in
  let c3 := pixel_of (transform r) bx1 by0 in
  let c4 := pixel_of (transform r) bx0 by0 in
  crs_window r (bx0, bx1, by0, by1)
  = Ok (Z.min (Z.min (Z.min (fst c1) (fst c2)) (fst c3)) (fst c4),
        Z.max (Z.max (Z.max (fst c1) (fst c2)) (fst c3)) (fst c4),
        Z.min (Z.min (Z.min (snd c1) (snd c2)) (snd c3)) (snd c4),
        Z.max (Z.max (Z.max (snd c1) (snd c2)) (snd c3)) (snd c4)).
Proof.
  intros Hw Hh. cbv zeta. unfold pixel_of. cbn [fst snd].
  unfold crs_window, crs_corners, get_locations.
  cbn [map_result locate fst snd floordiv sub exact_num].
  rewrite !ExactFacts.qfloordiv_nonzero by assumption. cbn [rbind].
  rewrite !ExactFacts.Qfloor_Qred_div.
  cbn [column map_result fst snd rbind np_min np_max fold_left].
  rewrite !ExactWindow.np_min2_inject, !ExactWindow.np_max2_inject,
    !ExactFacts.truncate_inject_Z.
  reflexivity.
Qed.

(** C9, amended.  In exact arithmetic, [get_pixel_bounds] with CRS bounds
    on a raster whose pixel size has no zero: the four corners of the
    bounds are located, each by the floors of [get_locations]; the window
    runs from the smallest to the largest column and row among them and is
    clamped into [0, cols] x [0, rows]; the call raises exactly when the
    clamped window is degenerate, with [ValueError], and returns the
    clamped window otherwise.  With a pixel width or height of zero no
    corner can be located and the call raises [ZeroDivisionError].
    Without bounds the full extent is returned. *)
Theorem get_pixel_bounds_crs :
  let c1 := pixel_of (transform r) bx0 by1 in
  let c2 := pixel_of (transform r) bx1 by1 in
  let c3 := pixel_of (transform r) bx1 by0 in
  let c4 := pixel_of (transform r) bx0 by0 in
  let xmin := Z.max 0 (Z.min (Z.min (Z.min (fst c1) (fst c2)) (fst c3)) (fst c4)) in
  let xmax := Z.min (ncols r) (Z.max (Z.max (Z.max (fst c1) (fst c2)) (fst c3)) (fst c4)) in
  let ymin := Z.max 0 (Z.min (Z.min (Z.min (snd c1) (snd c2)) (snd c3)) (snd c4)) in
  let ymax := Z.min (nrows r) (Z.max (Z.max (Z.max (snd c1) (snd c2)) (snd c3)) (snd c4)) in
  let res := get_pixel_bounds r (CrsBounds (bx0, bx1, by0, by1)) in
  (~ (gt1 (transform r) == 0)%Q -> ~ (gt5 (transform r) == 0)%Q ->
   ((exists e, res = Raise e) <-> xmin >= xmax \/ ymin >= ymax) /\
   (xmin >= xmax \/ ymin >= ymax -> res = Raise ValueError) /\
   (~ (xmin >= xmax \/ ymin >= ymax) ->
    res = Ok (xmin, xmax, ymin, ymax) /\
    0 <= xmin < xmax /\ xmax <= ncols r /\ 0 <= ymin < ymax /\ ymax <= nrows r)) /\
  ((gt1 (transform r) == 0)%Q \/ (gt5 (transform r) == 0)%Q ->
   res = Raise ZeroDivisionError) /\
  get_pixel_bounds r NoBounds = Ok (0, ncols r, 0, nrows r).
Proof.
  cbv zeta. split; [|split; [|reflexivity]].
  - intros Hw Hh. unfold get_pixel_bounds.
    rewrite (crs_window_corners Hw Hh). cbn [rbind]. rewrite clamp_bounds_spec.
    set (xmin := Z.max 0 _). set (xmax := Z.min (ncols r) _).
    set (ymin := Z.max 0 _). set (ymax := Z.min (nrows r) _).
    destruct (Z.leb_spec xmax xmin), (Z.leb_spec ymax ymin); cbn [orb].
    + split; [split; [lia | by exists ValueError]|]. split; [done | lia].
    + split; [split; [lia | by exists ValueError]|]. split; [done | lia].
    + split; [split; [lia | by exists ValueError]|]. split; [done | lia].
    + split; [split; [intros [e He]; discriminate | lia]|]. split; [lia|].
      intros _. split; [reflexivity|]. subst xmin xmax ymin ymax. lia.
  - intros Hz. unfold get_pixel_bounds. by rewrite (zero_pixel_size Hz).
Qed.

End Corners.

(** The CRS bounds [(1.5, 6.5, 2.5, 7.5)] on the 8 x 8 raster: the corners
    fall in the pixels 1 and 6 across, 0 and 5 down.  The bounds
    [(2.1, 2.9, 2.5, 7.5)] fall in the one column 2. *)
Lemma get_pixel_bounds_crs_witness :
  (~ (gt1 (transform Examples.raster8) == 0)%Q /\
   ~ (gt5 (transform Examples.raster8) == 0)%Q) /\
  get_pixel_bounds Examples.raster8 (CrsBounds (3 # 2, 13 # 2, 5 # 2, 15 # 2)%Q)
  = Ok (1, 6, 0, 5) /\
  get_pixel_bounds Examples.raster8 (CrsBounds (21 # 10, 29 # 10, 5 # 2, 15 # 2)%Q)
  = Raise ValueError.
Proof.
  assert (Hw : ~ (gt1 (transform Examples.raster8) == 0)%Q) by discriminate.
  assert (Hh : ~ (gt5 (transform Examples.raster8) == 0)%Q) by discriminate.
  split; [by split|]. split.
  - destruct (get_pixel_bounds_crs Examples.raster8 (3 # 2) (13 # 2) (5 # 2) (15 # 2))
      as [Hcrs _].
    destruct (Hcrs Hw Hh) as (_ & _ & Hok).
    destruct Hok as [Hres _]; [vm_compute; intros [Hd|Hd]; by apply Hd|].
    rewrite Hres. vm_compute. reflexivity.
  - destruct (get_pixel_bounds_crs Examples.raster8 (21 # 10) (29 # 10) (5 # 2) (15 # 2))
      as [Hcrs _].
    destruct (Hcrs Hw Hh) as (_ & Hbad & _).
    apply Hbad. left. vm_compute. discriminate.
Defined.

(** C9, as stated, fails: the conversion of the corners can raise before
    there is a window to clamp.  On a raster with a pixel width of zero
    every CRS bound raises [ZeroDivisionError].  On floats, with the pixel
    size [(1.0, -1.0)] and the bounds [(0.5, inf, 0.5, 1.5)] on the 2 x 2
    raster, [inf // 1.0] is [nan], the smallest column is [nan] and
    [int(nan)] raises [ValueError]; all finite columns are 0. *)
Lemma get_pixel_bounds_conversion_raises :
  let inf := S754_infinity false in
  let b := (B64.ratio 1 2, inf, B64.ratio 1 2, B64.ratio 3 2) in
  get_pixel_bounds Examples.raster_zero_width (CrsBounds (3 # 2, 13 # 2, 5 # 2, 15 # 2)%Q)
  = Raise ZeroDivisionError /\
  get_locations (crs_corners b) (B64.of_Z 1, B64.of_Z (-1)) (B64.of_Z 0, B64.of_Z 2)
  = Ok [(Some (B64.of_Z 0), Some (B64.of_Z 0)); (Some S754_nan, Some (B64.of_Z 0));
        (Some S754_nan, Some (B64.of_Z 1)); (Some (B64.of_Z 0), Some (B64.of_Z 1))] /\
  crs_window (Examples.raster_nan 1) b = Raise ValueError /\
  get_pixel_bounds (Examples.raster_nan 1) (CrsBounds b) = Raise ValueError.
Proof. vm_compute. repeat split. Qed.

End ExactBounds.

(** ** What [extract_geom] leaves on the raster *)

Section Aftermath.
Context {R : Type} `{PyNum R}.
Variable Intersects : list (R * R) -> Geom R -> bool.
Variable ExportToWkt : R * R -> R * R.

Lemma holds_last_read_refl (r : Raster R) : holds_last_read r r.
Proof. by left. Qed.

Lemma holds_last_read_trans (r1 r2 r3 : Raster R) :
  holds_last_read r1 r2 -> holds_last_read r2 r3 -> holds_last_read r1 r3.
Proof.
  intros [(E1 & E2 & E3)|(l & b & E1 & E2)] [(F1 & F2 & F3)|(l' & b' & F1 & F2)].
  - left. repeat split; congruence.
  - right. exists l', b'. split; [congruence | done].
  - right. exists l, b. split; congruence.
  - right. exists (l ++ b :: l'), b'. split; [|done].
    rewrite F1, E1, <- !app_assoc. reflexivity.
Qed.

Lemma sample_tile_holds (parts : list (part R)) (bo : list Z) (t : Tile R)
    (s : Raster R * list (Slot R)) :
  holds_last_read (fst s) (fst (fst (sample_tile Intersects ExportToWkt parts bo t s))).
Proof.
  destruct s as [r out]. unfold sample_tile.
  destruct (samp_ids Intersects parts t) as [|id0 ids0]; [by left|].
  set (ids := id0 :: ids0). cbv beta iota.
  assert (Hread : holds_last_read r (fst (read_array (Some (block_coords t)) r))).
  { right. exists [], (block_coords t). unfold read_array.
    by destruct (read_block _ _ _). }
  destruct (read_array (Some (block_coords t)) r) as [r1 [[]|e]]; cbn [fst] in *; [|done].
  by destruct (let* samp_coords := _ in _).
Qed.

Lemma sample_loop_holds (parts : list (part R)) (bo : list Z) (tiles : list (Tile R))
    (s : Raster R * list (Slot R)) :
  holds_last_read (fst s) (fst (fst (for_each (sample_tile Intersects ExportToWkt parts bo) tiles s))).
Proof.
  apply (for_each_preserves (fun s s' => holds_last_read (fst s) (fst s'))).
  - intros s0. apply holds_last_read_refl.
  - intros s1 s2 s3. apply holds_last_read_trans.
  - intros t s0. apply sample_tile_holds.
Qed.

Lemma extract_geom_counts (parts : list (part R)) (band_order : option (list Z))
    (tile_size : option (Z * Z)) (r : Raster R) :
  0 < fst (tile_size_of r tile_size) -> 0 < snd (tile_size_of r tile_size) ->
  let g := tile_grid r
           ++ grid_cells (transform r) 0 (ncols r) 0 (nrows r)
                (fst (tile_size_of r tile_size)) (snd (tile_size_of r tile_size)) in
  let r' := fst (extract_geom Intersects ExportToWkt parts band_order tile_size r) in
  tile_grid r' = g /\ ntiles r' = Some (Z.of_nat (length g)) /\
  datasource r' = datasource r /\
  holds_last_read r r'.
Proof.
  intros Htw Hth. cbv zeta. unfold extract_geom.
  fold (tile_size_of r tile_size) (refreshed r).
  assert (Hr0 : tile_grid (refreshed r) = tile_grid r /\ transform (refreshed r) = transform r
                /\ ncols (refreshed r) = ncols r /\ nrows (refreshed r) = nrows r
                /\ datasource (refreshed r) = datasource r
                /\ holds_last_read r (refreshed r))
    by (unfold refreshed; destruct (array r); repeat split; by left).
  destruct Hr0 as (Hg0 & Ht0 & Hc0 & Hn0 & Hd0 & Hl0).
  pose proof (make_tile_grid_cells (refreshed r) NoBounds 0 (ncols r) 0 (nrows r)
                (fst (tile_size_of r tile_size)) (snd (tile_size_of r tile_size))
                Htw Hth) as Hmk.
  cbv zeta in Hmk. rewrite Hg0, Ht0 in Hmk.
  specialize (Hmk ltac:(cbn; by rewrite Hc0, Hn0)). rewrite Hmk.
  set (g := tile_grid r ++ grid_cells (transform r) 0 (ncols r) 0 (nrows r)
                             (fst (tile_size_of r tile_size))
                             (snd (tile_size_of r tile_size))) in *.
  set (r1 := with_grid (refreshed r) g (Some (Z.of_nat (length g)))).
  pose proof (sample_loop_spec Intersects ExportToWkt parts
                (match band_order with Some b => b | None => range 0 (nbands r) end)
                (tile_grid r1) r1 (map (fun _ => Unsampled) parts)) as Hloop.
  pose proof (sample_loop_holds parts
                (match band_order with Some b => b | None => range 0 (nbands r) end)
                (tile_grid r1) (r1, map (fun _ => Unsampled) parts)) as Hholds.
  cbv zeta in Hloop.
  assert (Hl1 : holds_last_read r r1).
  { eapply holds_last_read_trans; [exact Hl0|]. by left. }
  destruct (for_each _ (tile_grid r1) _) as [[r2 out2] [[]|e]]; cbn [fst snd] in *;
    destruct Hloop as ((_ & _ & _ & Hd & Hg & Hn) & _);
    (split; [exact Hg|]; split; [exact Hn|]; split; [by rewrite Hd|];
     by eapply holds_last_read_trans).
Qed.

(** A run of [extract_geom] appends its tiles to the grid the raster
    shares with [get_next_tile] and counts them: a run of the generator
    after it, whatever tile size it asks for, yields the tiles the grid held
    before followed by the tiles of [extract_geom], whether [extract_geom]
    returned or raised. *)
Theorem get_next_tile_after_extract_geom (parts : list (part R))
    (band_order : option (list Z)) (tile_size : option (Z * Z)) (r : Raster R)
    (bands : bands_arg R) (bs : list Z) (tw th : Z) (fo : bool) (nr : option R) :
  0 < fst (tile_size_of r tile_size) -> 0 < snd (tile_size_of r tile_size) ->
  tile_bands r bands = Ok bs ->
  let g := tile_grid r
           ++ grid_cells (transform r) 0 (ncols r) 0 (nrows r)
                (fst (tile_size_of r tile_size)) (snd (tile_size_of r tile_size)) in
  let r' := fst (extract_geom Intersects ExportToWkt parts band_order tile_size r) in
  get_next_tile tw th bands false fo nr r'
  = (r', (map (fun t => (tie_point t, None)) g, Ok tt)).
Proof.
  intros Htw Hth Hb. cbv zeta.
  destruct (extract_geom_counts parts band_order tile_size r Htw Hth)
    as (Hg & Hn & Hd & _). cbv zeta in Hg, Hn, Hd.
  rewrite (get_next_tile_counted _ bands tw th _ false fo nr Hn).
  replace (tile_bands _ bands) with (tile_bands r bands)
    by (destruct bands; try reflexivity; unfold tile_bands, nbands, shape; by rewrite Hd).
  rewrite Hb, Nat2Z.id.
  rewrite <- Hg at 2.
  rewrite (yield_tiles_no_array _ bs fo _ _ 0%nat []); [by rewrite Hg | done | done].
Qed.

(** A run of [extract_geom] that reads at least one tile replaces what
    the raster held: afterwards [array_offsets] is the block of the last
    tile read, not the window the raster was read with before; a run that
    reads nothing leaves the array and its offsets as they were. *)
Theorem extract_geom_leaves_last_tile (parts : list (part R))
    (band_order : option (list Z)) (tile_size : option (Z * Z)) (r : Raster R) :
  0 < fst (tile_size_of r tile_size) -> 0 < snd (tile_size_of r tile_size) ->
  let r' := fst (extract_geom Intersects ExportToWkt parts band_order tile_size r) in
  (reads r' = reads r /\ array_offsets r' = array_offsets r /\ array r' = array r) \/
  (exists (l : list block) (b : block),
     reads r' = reads r ++ l ++ [b] /\ array_offsets r' = Some b).
Proof.
  intros Htw Hth.
  by destruct (extract_geom_counts parts band_order tile_size r Htw Hth) as (_ & _ & _ & Hh).
Qed.

End Aftermath.

(** The grid of 4 x 4 tiles, then a sampling with the default tile size,
    then the generator again: five tiles, the fifth the whole raster. *)
Lemma get_next_tile_after_extract_geom_witness :
  let r1 := fst (get_next_tile 4 4 AllBands false true None Examples.raster8) in
  let parts : list (part Q) := [("1_1"%string, Point (5 # 2) (11 # 2))]%Q in
  let r2 := fst (extract_geom rect_intersects Examples.text15 parts None None r1) in
  (0 < fst (tile_size_of r1 None) /\ 0 < snd (tile_size_of r1 None) /\
   tile_bands r1 AllBands = Ok [1]) /\
  snd (get_next_tile 4 4 AllBands false true None r2)
  = ([((0, 8)%Q, None); ((4, 8)%Q, None); ((0, 4)%Q, None); ((4, 4)%Q, None);
      ((0, 8)%Q, None)], Ok tt).
Proof.
  cbv zeta. split; [repeat split|].
  rewrite (get_next_tile_after_extract_geom rect_intersects Examples.text15
             [("1_1"%string, Point (5 # 2) (11 # 2))]%Q None None
             (fst (get_next_tile 4 4 AllBands false true None Examples.raster8))
             AllBands [1] 4 4 true None); [|reflexivity | reflexivity | reflexivity].
  vm_compute. reflexivity.
Defined.

(** One point of the 8 x 8 raster, tiles of 4 x 4: the raster is left with
    the block of the one tile read. *)
Lemma extract_geom_leaves_last_tile_witness :
  let parts : list (part Q) := [("1_1"%string, Point (5 # 2) (11 # 2))]%Q in
  let r' := fst (extract_geom rect_intersects Examples.text15 parts None (Some (4, 4))
      Examples.raster8) in
  (0 < fst (tile_size_of Examples.raster8 (Some (4, 4))) /\
   0 < snd (tile_size_of Examples.raster8 (Some (4, 4)))) /\
  reads r' = [(0, 0, 4, 4)] /\ array_offsets r' = Some (0, 0, 4, 4).
Proof.
  cbv zeta. split; [split; reflexivity|].
  destruct (extract_geom_leaves_last_tile rect_intersects Examples.text15
              [("1_1"%string, Point (5 # 2) (11 # 2))]%Q None (Some (4, 4)) Examples.raster8)
    as [(Hsame & _)|(l & b & Hreads & Hoffs)]; [reflexivity | reflexivity | |].
  - vm_compute in Hsame. discriminate Hsame.
  - assert (Hr : reads (fst (extract_geom rect_intersects Examples.text15
                               [("1_1"%string, Point (5 # 2) (11 # 2))]%Q None (Some (4, 4))
                               Examples.raster8)) = [(0, 0, 4, 4)])
      by (vm_compute; reflexivity).
    split; [exact Hr|]. rewrite Hoffs. rewrite Hr in Hreads. cbn [reads Examples.raster8
      initialized app] in Hreads.
    destruct l as [|b0 [|b1 l]]; cbn in Hreads; [|discriminate Hreads|discriminate Hreads].
    by injection Hreads as <-.
Defined.

(** ** Where the exceptions of [extract_geom] come from *)

Lemma map_result_raise_inv {A B : Type} (f : A -> result B) (xs : list A) (e : exn) :
  map_result f xs = Raise e -> exists x, x ∈ xs /\ f x = Raise e.
Proof.
  induction xs as [|x xs IH]; [discriminate|]. cbn.
  destruct (f x) as [y|e'] eqn:Ex; cbn.
  - destruct (map_result f xs) as [ys|e'] eqn:Exs; cbn; [discriminate|].
    intros [= ->]. destruct (IH eq_refl) as (x' & Hx' & Hf). exists x'. split; [by right|done].
  - intros [= ->]. exists x. split; [left | done].
Qed.

Lemma map_result_chain_raise {A B C D : Type} (f : A -> result B) (g : B -> result C)
    (h : C -> result D) (xs : list A) (e : exn) :
  (let* bs := map_result f xs in
   let* cs := map_result g bs in
   map_result h cs) = Raise e ->
  exists x, x ∈ xs /\ (let* b := f x in let* c := g b in h c) = Raise e.
Proof.
  destruct (map_result f xs) as [bs|e1] eqn:Ebs; cbn [rbind].
  2:{ intros [= ->]. apply map_result_raise_inv in Ebs as (x & Hx & Hf).
      exists x. split; [done|]. cbv beta. rewrite Hf. reflexivity. }
  apply map_result_Forall2 in Ebs.
  destruct (map_result g bs) as [cs|e2] eqn:Ecs; cbn [rbind].
  2:{ intros [= ->]. apply map_result_raise_inv in Ecs as (b & Hb & Hg).
      apply list_elem_of_lookup in Hb as [k Hk].
      destruct (Forall2_lookup_r _ _ _ _ _ Ebs Hk) as (x & Hx & Hfx).
      exists x. split; [by eapply list_elem_of_lookup_2|]. cbv beta in *. rewrite Hfx. cbn [rbind].
      rewrite Hg. reflexivity. }
  apply map_result_Forall2 in Ecs.
  intros Hh. apply map_result_raise_inv in Hh as (c & Hc & Hhc).
  apply list_elem_of_lookup in Hc as [k Hk].
  destruct (Forall2_lookup_r _ _ _ _ _ Ecs Hk) as (b & Hb & Hgb).
  destruct (Forall2_lookup_r _ _ _ _ _ Ebs Hb) as (x & Hx & Hfx).
  exists x. split; [by eapply list_elem_of_lookup_2|]. cbv beta in *.
  rewrite Hfx. cbn [rbind]. rewrite Hgb. cbn [rbind]. exact Hhc.
Qed.

Section Provenance.
Context {R : Type} `{PyNum R}.
Variable Intersects : list (R * R) -> Geom R -> bool.
Variable ExportToWkt : R * R -> R * R.

Lemma sample_tile_raise (parts : list (part R)) (bo : list Z) (t : Tile R)
    (r : Raster R) (out : list (Slot R)) (e : exn) :
  snd (sample_tile Intersects ExportToWkt parts bo t (r, out)) = Raise e ->
  exists p : part R, p ∈ parts /\ meets Intersects t (snd p) = true /\
    tile_sample ExportToWkt r bo t (snd p) = Raise e.
Proof.
  unfold sample_tile.
  destruct (samp_ids Intersects parts t) as [|id0 ids0] eqn:Eids; [discriminate|].
  cbv beta iota. rewrite <- Eids.
  assert (Hne : exists i0 p0, (i0, p0) ∈ samp_ids Intersects parts t).
  { destruct id0 as [i0 p0]. exists i0, p0. rewrite Eids. left. }
  clear id0 ids0 Eids.
  destruct (read_array_spec (block_coords t) r) as (Hmeta & _ & Harr).
  destruct Hmeta as (Hs & Htr & _).
  unfold tile_sample.
  destruct (read_array (Some (block_coords t)) r) as [r1 [[]|e1]] eqn:Eread; cbn [fst snd] in *.
  2:{ intros [= ->]. destruct Hne as (i0 & p0 & Hin).
      apply elem_of_samp_ids in Hin as [Hi Hm].
      exists p0. split; [by eapply list_elem_of_lookup_2|]. split; [done|].
      unfold read_array in Eread.
      destruct (read_block (datasource r) (nbands r) (block_coords t)); [discriminate|].
      by injection Eread as _ ->. }
  destruct Harr as (a & Hblock & Ha). rewrite Hblock.
  unfold nbands in *. rewrite Htr, Hs, Ha.
  set (pz := (gt1 (transform r), gt5 (transform r))).
  pose proof (map_result_chain_raise
                (fun p : nat * part R => samp_coord ExportToWkt (snd (snd p)))
                (locate pz (tie_point t))
                (sample (Some a) (fst (fst (shape r))) bo)
                (samp_ids Intersects parts t) e) as Hstep.
  destruct (let* samp_coords := map_result _ (samp_ids Intersects parts t) in _)
    as [vs|e1]; cbn [snd]; [discriminate|].
  intros [= ->]. destruct (Hstep eq_refl) as ([i p] & Hin & Hp).
  apply elem_of_samp_ids in Hin as [Hi Hm].
  exists p. split; [by eapply list_elem_of_lookup_2|]. split; [done|]. exact Hp.
Qed.

Lemma sample_loop_raise (parts : list (part R)) (bo : list Z) (tiles : list (Tile R))
    (r : Raster R) (out : list (Slot R)) (e : exn) :
  snd (for_each (sample_tile Intersects ExportToWkt parts bo) tiles (r, out)) = Raise e ->
  exists (t : Tile R) (p : part R), t ∈ tiles /\ p ∈ parts /\
    meets Intersects t (snd p) = true /\ tile_sample ExportToWkt r bo t (snd p) = Raise e.
Proof.
  revert r out. induction tiles as [|t0 tiles IH]; intros r out; [discriminate|].
  cbn [for_each].
  pose proof (sample_tile_raise parts bo t0 r out) as Hhead.
  pose proof (sample_tile_spec Intersects ExportToWkt parts bo t0 r out) as Hspec.
  cbv zeta in Hspec.
  destruct (sample_tile Intersects ExportToWkt parts bo t0 (r, out)) as [[r1 out1] [[]|e1]];
    cbn [fst snd] in *.
  - destruct Hspec as (Hmeta & _). intros Htail.
    destruct (IH r1 out1 Htail) as (t & p & Ht & Hp & Hm & Hs).
    exists t, p. split; [by right|]. split; [done|]. split; [done|].
    by rewrite <- (tile_sample_meta ExportToWkt r r1).
  - intros [= ->]. destruct (Hhead e eq_refl) as (p & Hp & Hm & Hs).
    exists t0, p. split; [left|]. by repeat split.
Qed.

(** Once the grid is built, an exception of [extract_geom] is the
    exception of sampling some part from some tile of the grid that meets
    it. *)
Lemma extract_geom_raise_from (parts : list (part R))
    (band_order : option (list Z)) (tile_size : option (Z * Z)) (r : Raster R) (e : exn) :
  snd (make_tile_grid (fst (tile_size_of r tile_size)) (snd (tile_size_of r tile_size))
         NoBounds (refreshed r)) = Ok tt ->
  snd (extract_geom Intersects ExportToWkt parts band_order tile_size r) = Raise e ->
  exists (t : Tile R) (p : part R),
    t ∈ tile_grid (fst (extract_geom Intersects ExportToWkt parts band_order tile_size r)) /\
    p ∈ parts /\ meets Intersects t (snd p) = true /\
    tile_sample ExportToWkt r (band_order_of r band_order) t (snd p) = Raise e.
Proof.
  intros Hgrid.
  pose proof (extract_geom_grid Intersects ExportToWkt parts band_order tile_size r) as Hg.
  cbv zeta in Hg. fold (tile_size_of r tile_size) (refreshed r) in Hg.
  rewrite Hg. clear Hg. unfold extract_geom.
  fold (tile_size_of r tile_size) (band_order_of r band_order) (refreshed r).
  pose proof (make_tile_grid_source (fst (tile_size_of r tile_size))
                (snd (tile_size_of r tile_size)) NoBounds (refreshed r)) as Hsrc.
  assert (Hinit : same_source r (refreshed r))
    by (unfold refreshed; destruct (array r); by repeat split).
  destruct (make_tile_grid _ _ NoBounds (refreshed r)) as [r1 [[]|e1]];
    cbn [fst snd] in *; [|discriminate].
  pose proof (same_source_trans _ _ _ Hinit Hsrc) as Hr1.
  pose proof (sample_loop_raise parts (band_order_of r band_order) (tile_grid r1) r1
                (map (fun _ => Unsampled) parts) e) as Hloop.
  destruct (for_each _ (tile_grid r1) _) as [[r2 out2] [[]|e1]]; cbn [fst snd] in *;
    [discriminate|].
  intros [= ->]. destruct (Hloop eq_refl) as (t & p & Ht & Hp & Hm & Hs).
  exists t, p. repeat (split; [done|]).
  by rewrite <- (tile_sample_source ExportToWkt r r1).
Qed.

End Provenance.

Module ExactEdges.
Import Exact.

Section Edges.
Variable Intersects : list (Q * Q) -> Geom Q -> bool.
Variable ExportToWkt : Q * Q -> Q * Q.

(** In exact arithmetic, with positive tile sizes, point parts and a grid
    of tiles of the raster: when OGR finds a tile to intersect a point that
    is looked up at or past the last column or row of the tile's block, or
    a whole block before it, [extract_geom] raises [IndexError] and returns
    nothing, for that point or any other.  The pixel that counts is the one
    that holds the coordinates read back from the point's text: a point on
    the right or the lower edge of the tile whose text gives the edge back
    is such a point, and so is a point inside the tile whose text is
    rounded onto that edge. *)
Theorem extract_geom_off_block_raises (parts : list (part Q))
    (band_order : option (list Z)) (tile_size : option (Z * Z)) (r : Raster Q)
    (t : Tile Q) (id : string) (X Y : Q) :
  let ts := tile_size_of r tile_size in
  let res := extract_geom Intersects ExportToWkt parts band_order tile_size r in
  0 < fst ts -> 0 < snd ts ->
  ~ (gt1 (transform r) == 0)%Q -> ~ (gt5 (transform r) == 0)%Q ->
  1 <= nbands r -> bands_in_range (nbands r) (band_order_of r band_order) ->
  Forall (fun tl => tile_of r tl /\ positive_block (block_coords tl)) (tile_grid r) ->
  Forall (fun p : part Q => is_point (snd p)) parts ->
  t ∈ tile_grid (fst res) -> (id, Point X Y) ∈ parts ->
  meets Intersects t (Point X Y) = true ->
  beyond_block (block_coords t)
    (fst (sampled_pixel ExportToWkt (transform r) X Y))
    (snd (sampled_pixel ExportToWkt (transform r) X Y)) ->
  snd res = Raise IndexError.
Proof.
  cbv zeta. intros Htw Hth Hw Hh Hnb Hbo Hold Hpts Ht Hp Hm Hbeyond.
  set (res := extract_geom Intersects ExportToWkt parts band_order tile_size r) in *.
  assert (Hr0 : tile_grid (refreshed r) = tile_grid r /\ transform (refreshed r) = transform r
                /\ ncols (refreshed r) = ncols r /\ nrows (refreshed r) = nrows r)
    by (unfold refreshed; destruct (array r); done).
  destruct Hr0 as (Hg0 & Ht0 & Hc0 & Hn0).
  pose proof (make_tile_grid_cells (refreshed r) NoBounds 0 (ncols r) 0 (nrows r)
                (fst (tile_size_of r tile_size)) (snd (tile_size_of r tile_size))
                Htw Hth) as Hmk.
  cbv zeta in Hmk. rewrite Hg0, Ht0 in Hmk.
  specialize (Hmk ltac:(cbn; by rewrite Hc0, Hn0)).
  assert (Hgrid : tile_grid (fst res)
                  = tile_grid r ++ grid_cells (transform r) 0 (ncols r) 0 (nrows r)
                                     (fst (tile_size_of r tile_size))
                                     (snd (tile_size_of r tile_size))).
  { subst res. rewrite extract_geom_grid. cbv zeta.
    fold (tile_size_of r tile_size) (refreshed r). rewrite Hmk. reflexivity. }
  assert (Htiles : forall tl, tl ∈ tile_grid (fst res) ->
            tile_of r tl /\ positive_block (block_coords tl)).
  { intros tl. rewrite Hgrid, elem_of_app. intros [Htl|Htl].
    - rewrite Forall_forall in Hold. by apply Hold.
    - split; [exact (ExactSampling.grid_cells_tile_of r _ _ tl Htw Hth Htl)|].
      pose proof (grid_cells_blocks r _ _ tl Htw Hth Htl) as Hb.
      destruct (block_coords tl) as [[[x y] cols] rows]. cbn. lia. }
  assert (Hat : forall (tl : Tile Q) (p : part Q), tl ∈ tile_grid (fst res) -> p ∈ parts ->
            exists v, tile_sample ExportToWkt r (band_order_of r band_order) tl (snd p) = Ok v \/
                      tile_sample ExportToWkt r (band_order_of r band_order) tl (snd p)
                          = Raise IndexError).
  { intros tl p Htl Hpp. destruct (Htiles tl Htl) as [Hof Hpos].
    rewrite Forall_forall in Hpts. specialize (Hpts p Hpp).
    destruct (snd p) as [X' Y'|]; [|done].
    destruct (block_coords tl) as [[[x y] cols] rows] eqn:Eb. destruct Hpos as [Hc Hr].
    rewrite (ExactSampling.tile_sample_at ExportToWkt r _ tl X' Y' x y cols rows) by assumption.
    destruct (_ && _); [eexists; by left | exists []; by right]. }
  assert (Hmade : snd (make_tile_grid (fst (tile_size_of r tile_size))
                         (snd (tile_size_of r tile_size)) NoBounds (refreshed r)) = Ok tt)
    by by rewrite Hmk.
  assert (Hbad : tile_sample ExportToWkt r (band_order_of r band_order) t (Point X Y)
      = Raise IndexError).
  { destruct (Htiles t Ht) as [Hof Hpos].
    destruct (block_coords t) as [[[x y] cols] rows] eqn:Eb. destruct Hpos as [Hc Hr].
    rewrite (ExactSampling.tile_sample_at ExportToWkt r _ t X Y x y cols rows) by assumption.
    unfold beyond_block in Hbeyond. unfold index_ok.
    set (gx := fst (sampled_pixel ExportToWkt (transform r) X Y)) in *.
    set (gy := snd (sampled_pixel ExportToWkt (transform r) X Y)) in *.
    destruct (Z.leb_spec (- rows) (gy - y)), (Z.ltb_spec (gy - y) rows),
             (Z.leb_spec (- cols) (gx - x)), (Z.ltb_spec (gx - x) cols);
      cbn [andb]; try reflexivity; lia. }
  destruct (snd res) as [out|e] eqn:Eres.
  - exfalso.
    destruct (proj1 (extract_geom_ok_iff Intersects ExportToWkt parts band_order tile_size r Hmade)
                (ex_intro _ out Eres) t (id, Point X Y) Ht Hp Hm) as [v Hv].
    cbn [snd] in Hv. congruence.
  - f_equal.
    destruct (extract_geom_raise_from Intersects ExportToWkt parts band_order tile_size r
        e Hmade Eres)
      as (t' & p' & Ht' & Hp' & _ & Hs').
    destruct (Hat t' p' Ht' Hp') as [v [Hv|Hv]]; congruence.
Qed.

End Edges.

(** The point [(3.9999999999999996, 6.5)] inside the first tile of the
    8 x 8 raster, among two points that lie well inside tiles: no other
    tile meets it, its own pixel is in column 3 of the block, and its text
    reads back as [(4, 6.5)], in column 4. *)
Lemma extract_geom_off_block_raises_witness :
  let X := (39999999999999996 # 10000000000000000)%Q in
  let parts : list (part Q) :=
    [("1_1"%string, Point (5 # 2) (11 # 2)); ("2_1"%string, Point X (13 # 2));
     ("3_1"%string, Point (13 # 2) (1 # 2))]%Q in
  let res := extract_geom rect_intersects Examples.text15 parts None (Some (4, 4))
               Examples.raster8 in
  let t := make_tile Examples.north_up 0 8 0 8 4 4 0 0 in
  (t ∈ tile_grid (fst res) /\ meets rect_intersects t (Point X (13 # 2))%Q = true /\
   pixel_of (transform Examples.raster8) X (13 # 2)%Q = (3, 1) /\
   sampled_pixel Examples.text15 (transform Examples.raster8) X (13 # 2)%Q = (4, 1) /\
   block_coords t = (0, 0, 4, 4)) /\
  snd res = Raise IndexError.
Proof.
  cbv zeta.
  assert (Ht : make_tile Examples.north_up 0 8 0 8 4 4 0 0
               ∈ tile_grid (fst (extract_geom rect_intersects Examples.text15
                   [("1_1"%string, Point (5 # 2) (11 # 2));
                    ("2_1"%string, Point (39999999999999996 # 10000000000000000) (13 # 2));
                    ("3_1"%string, Point (13 # 2) (1 # 2))]%Q
                   None (Some (4, 4)) Examples.raster8)))
    by (apply (list_elem_of_lookup_2 _ 0%nat); vm_compute; reflexivity).
  split; [split; [exact Ht|]; repeat split; vm_compute; reflexivity|].
  apply (extract_geom_off_block_raises rect_intersects Examples.text15 _ None (Some (4, 4))
           Examples.raster8
           (make_tile Examples.north_up 0 8 0 8 4 4 0 0) "2_1"%string
           (39999999999999996 # 10000000000000000)%Q (13 # 2)%Q).
  - reflexivity.
  - reflexivity.
  - discriminate.
  - discriminate.
  - vm_compute. discriminate.
  - intros Hne. exfalso. apply Hne. reflexivity.
  - constructor.
  - repeat constructor.
  - exact Ht.
  - right. left.
  - vm_compute. reflexivity.
  - left. left. vm_compute. discriminate.
Defined.

End ExactEdges.

(** ** A band that the raster does not have *)

Section BadBand.
Context {R : Type} `{PyNum R}.

Lemma grid_cells_first (t : GeoTransform R) (xmax ymax tw th : Z) :
  0 < tw -> 0 < th -> 0 < xmax -> 0 < ymax ->
  exists tl rest, grid_cells t 0 xmax 0 ymax tw th = tl :: rest.
Proof.
  intros Hw Hh Hx Hy.
  pose proof (steps_positive 0 xmax tw Hw Hx) as Hi.
  pose proof (steps_positive 0 ymax th Hh Hy) as Hj.
  pose proof (lookup_grid_cells t 0 xmax 0 ymax tw th 0 0 Hi Hj) as Hl.
  destruct (grid_cells t 0 xmax 0 ymax tw th) as [|tl rest]; [discriminate|].
  by exists tl, rest.
Qed.

(** A number given for [bands] is taken as it is, while the entries of a
    list are counted from 0: with arrays, on a raster that is not empty and
    has no grid yet, one band that the raster does not have (the number 0,
    or the entry [nbands] of a list) makes the generator raise at its first
    tile, after the grid has been built, and nothing is yielded. *)
Theorem get_next_tile_missing_band (r : Raster R) (bands : bands_arg R) (b : Z)
    (tw th : Z) (fo : bool) (nr : option R) :
  ntiles r = None -> tile_grid r = [] -> 0 < tw -> 0 < th ->
  0 < ncols r -> 0 < nrows r ->
  tile_bands r bands = Ok [b] -> b < 1 \/ nbands r < b ->
  let g := grid_cells (transform r) 0 (ncols r) 0 (nrows r) tw th in
  get_next_tile tw th bands true fo nr r
  = (with_grid r g (Some (Z.of_nat (length g))), ([], Raise RuntimeError)).
Proof.
  intros Hn Hg0 Hw Hh Hc Hr Hb Hbad g. rewrite get_next_tile_fresh by done.
  rewrite Hb, Hg0. cbn [app]. fold g.
  destruct (grid_cells_first (transform r) (ncols r) (nrows r) tw th Hw Hh Hc Hr)
    as (tl & rest & Hg). subst g. rewrite Hg.
  cbn [length seq yield_tiles with_grid tile_grid lookup list_lookup].
  unfold next_tile_array, ReadAsArray. cbn [datasource with_grid].
  destruct (block_coords tl) as [[[x y] cols] rows].
  unfold nbands, shape in Hbad. cbn [fst] in Hbad.
  destruct (Z.leb_spec 1 b), (Z.leb_spec b (RasterCount (datasource r)));
    try lia; reflexivity.
Qed.

End BadBand.

(** On the raster of one band: the number 0 and the list [[1]] both name a
    band that is not there, while the list [[0]] names the first band. *)
Lemma get_next_tile_missing_band_witness :
  (ntiles Examples.raster8 = None /\ tile_grid Examples.raster8 = [] /\ 0 < 4 /\
   0 < ncols Examples.raster8 /\ 0 < nrows Examples.raster8 /\
   tile_bands Examples.raster8 (OneBand 0) = Ok [0] /\
   tile_bands Examples.raster8 (BandList [1]) = Ok [2]) /\
  snd (get_next_tile 4 4 (OneBand 0) true true None Examples.raster8)
  = ([], Raise RuntimeError) /\
  snd (get_next_tile 4 4 (BandList [1]) true true None Examples.raster8)
  = ([], Raise RuntimeError).
Proof.
  split; [repeat split|]. split.
  - rewrite (get_next_tile_missing_band Examples.raster8 (OneBand 0) 0 4 4 true None);
      [reflexivity | reflexivity | reflexivity | reflexivity | reflexivity | reflexivity
      | reflexivity | reflexivity | left; reflexivity].
  - rewrite (get_next_tile_missing_band Examples.raster8 (BandList [1]) 2 4 4 true None);
      [reflexivity | reflexivity | reflexivity | reflexivity | reflexivity | reflexivity
      | reflexivity | reflexivity | right; reflexivity].
Defined.
